(** * Open Margins proxy servers: catalogue aggregation and text extraction

    A shallow embedding of the book-catalogue and content-normalisation
    code of [src/server.js] (Activity Builder: sequential aggregation, no
    cache, the fetch-url endpoint; the first server of
    [src/sylva/server.js] has the same code) and of [src/nova/server.js]
    (parallel aggregation and the ten-minute cache; the Companion server,
    second in [src/sylva/server.js], has the same code), with the
    properties the specification states about them, and with further
    properties read off the code.  The proxy to the Messages API
    ([/api/generate], four variants) is embedded as well.

    A handler is modelled as a function of the request, of what the
    upstream answers and, for the cache, of the state of the process; it
    runs from start to end without another request in between.

    JavaScript strings are sequences of UTF-16 code units, modelled as
    [list N].  Values decoded from JSON are modelled dynamically
    ([value]); code that can throw returns a [result]. *)

From Stdlib Require Import List NArith ZArith Bool Lia Ascii String.
From Stdlib Require Import Permutation Sorted DecimalString.
From Stdlib Require DecimalPos.
Import ListNotations.

Set Implicit Arguments.
Set Warnings "-register-all".

(* ================================================================== *)
(** * Strings *)
(* ================================================================== *)

Module JsString.

Definition char := N.
Definition jsstring := list char.

(** A string literal of the source (ASCII only). *)
Definition str (s : string) : jsstring :=
  List.map N_of_ascii (list_ascii_of_string s).

Definition ch (a : ascii) : char := N_of_ascii a.

Definition LF : char := 10%N.
Definition LT : char := 60%N.
Definition GT : char := 62%N.

Definition eqc (a b : char) : bool := N.eqb a b.

Fixpoint eqs (a b : jsstring) : bool :=
  match a, b with
  | [], [] => true
  | x :: a', y :: b' => eqc x y && eqs a' b'
  | _, _ => false
  end.

(** [s.startsWith(p)] *)
Fixpoint startsWith (s p : jsstring) : bool :=
  match p, s with
  | [], _ => true
  | x :: p', y :: s' => eqc x y && startsWith s' p'
  | _ :: _, [] => false
  end.

(** [s.includes(k)] *)
Fixpoint includes (s k : jsstring) : bool :=
  startsWith s k ||
  match s with
  | [] => false
  | _ :: s' => includes s' k
  end.

(** [s.endsWith(p)] *)
Definition endsWith (s p : jsstring) : bool :=
  startsWith (rev s) (rev p).

(** [s.replace(pat, by)] with a string pattern: the first occurrence only. *)
Fixpoint replaceFirst (s pat by_ : jsstring) : jsstring :=
  if startsWith s pat then by_ ++ skipn (List.length pat) s
  else match s with
       | [] => []
       | c :: s' => c :: replaceFirst s' pat by_
       end.

(** WhiteSpace and LineTerminator code points of ECMAScript: what
    [String.prototype.trim] removes and what [\s] matches. *)
Definition isWhiteSpace (c : char) : bool :=
  ((9 <=? c) && (c <=? 13) || eqc c 32 || eqc c 160 || eqc c 5760
   || (8192 <=? c) && (c <=? 8202) || eqc c 8232 || eqc c 8233
   || eqc c 8239 || eqc c 8287 || eqc c 12288 || eqc c 65279)%N.

Fixpoint dropWhile (p : char -> bool) (s : jsstring) : jsstring :=
  match s with
  | [] => []
  | c :: s' => if p c then dropWhile p s' else s
  end.

Definition trimStart (s : jsstring) : jsstring := dropWhile isWhiteSpace s.
Definition trimEnd (s : jsstring) : jsstring :=
  rev (dropWhile isWhiteSpace (rev s)).

(** [s.trim()] *)
Definition trim (s : jsstring) : jsstring := trimEnd (trimStart s).

(** [s.split(/\s+/).filter(Boolean).length]: the number of maximal runs of
    non-whitespace code units. *)
Fixpoint countWords (inWord : bool) (s : jsstring) : nat :=
  match s with
  | [] => 0
  | c :: s' =>
      if isWhiteSpace c then countWords false s'
      else if inWord then countWords true s'
           else S (countWords true s')
  end.

(** Decimal rendering of an integer, as in a template literal. *)
Definition dec (z : Z) : jsstring := str (NilZero.string_of_int (Z.to_int z)).

(** ASCII case mapping of one code unit. *)
Definition isUpperAZ (c : char) : bool := ((65 <=? c) && (c <=? 90))%N.
Definition isLowerAZ (c : char) : bool := ((97 <=? c) && (c <=? 122))%N.
Definition lowerAZ (c : char) : char := if isUpperAZ c then (c + 32)%N else c.
Definition upperAZ (c : char) : char := if isLowerAZ c then (c - 32)%N else c.

End JsString.
Import JsString.

(* ================================================================== *)
(** * Regular expressions *)
(* ================================================================== *)

(** The fragment of ECMAScript regular expressions the servers use: every
    quantified atom in the source is a character class, so repetition is
    over classes only.  Matching follows the backtracking order of the
    language: [run r s] lists, in priority order, what is left of [s]
    after each way [r] can match a prefix of it; the match the runtime
    reports is the first one. *)
Module Regex.

Inductive regex : Type :=
| Eps
| Chr (p : char -> bool)
| Cat (r1 r2 : regex)
| Alt (r1 r2 : regex)
| Rep (greedy : bool) (min : nat) (p : char -> bool).

(** exactly [n] code units of class [p] *)
Fixpoint times (n : nat) (p : char -> bool) (s : jsstring) : option jsstring :=
  match n with
  | O => Some s
  | S n' =>
      match s with
      | c :: s' => if p c then times n' p s' else None
      | [] => None
      end
  end.

(** [p*]: longest first *)
Fixpoint star_greedy (p : char -> bool) (s : jsstring) : list jsstring :=
  match s with
  | [] => [[]]
  | c :: s' => if p c then star_greedy p s' ++ [s] else [s]
  end.

(** [p*?]: shortest first *)
Fixpoint star_lazy (p : char -> bool) (s : jsstring) : list jsstring :=
  match s with
  | [] => [[]]
  | c :: s' => if p c then s :: star_lazy p s' else [s]
  end.

Fixpoint run (r : regex) (s : jsstring) : list jsstring :=
  match r with
  | Eps => [s]
  | Chr p =>
      match s with
      | c :: s' => if p c then [s'] else []
      | [] => []
      end
  | Cat r1 r2 => flat_map (run r2) (run r1 s)
  | Alt r1 r2 => run r1 s ++ run r2 s
  | Rep greedy n p =>
      match times n p s with
      | Some s' => if greedy then star_greedy p s' else star_lazy p s'
      | None => []
      end
  end.

(** The match at the start of [s], if any: the rest of the string. *)
Definition matchHere (r : regex) (s : jsstring) : option jsstring :=
  hd_error (run r s).

(** [re.test(s)] for a pattern that begins with [^]. *)
Definition testAnchored (r : regex) (s : jsstring) : bool :=
  match matchHere r s with Some _ => true | None => false end.

(** [s.replace(/r/g, by)].  The scan goes left to right; [skip] counts the
    code units of the current match still to be dropped.  An empty match
    inserts [by] and moves on by one code unit. *)
Fixpoint replaceFrom (r : regex) (by_ : jsstring) (skip : nat) (s : jsstring)
  : jsstring :=
  match s with
  | [] =>
      match skip, matchHere r [] with
      | O, Some _ => by_
      | _, _ => []
      end
  | c :: s' =>
      match skip with
      | S k => replaceFrom r by_ k s'
      | O =>
          match matchHere r s with
          | Some rest =>
              match List.length s - List.length rest with
              | O => by_ ++ c :: replaceFrom r by_ 0 s'
              | S k => by_ ++ replaceFrom r by_ k s'
              end
          | None => c :: replaceFrom r by_ 0 s'
          end
      end
  end.

Definition replaceAll (r : regex) (by_ : jsstring) (s : jsstring) : jsstring :=
  replaceFrom r by_ 0 s.

(** [s.match(/pre(body)post/)]: the text of the group in the leftmost
    match, the first in backtracking order at that position. *)
Definition groupHere (pre body post : regex) (s : jsstring) : option jsstring :=
  hd_error
    (flat_map
       (fun s1 =>
          flat_map
            (fun s2 =>
               List.map
                 (fun _ => firstn (List.length s1 - List.length s2) s1)
                 (run post s2))
            (run body s1))
       (run pre s)).

Fixpoint firstGroup (pre body post : regex) (s : jsstring) : option jsstring :=
  match groupHere pre body post s with
  | Some g => Some g
  | None =>
      match s with
      | [] => None
      | _ :: s' => firstGroup pre body post s'
      end
  end.

(** ** Building patterns *)

Definition one (c : char) : regex := Chr (eqc c).
(** a literal code unit under the [i] flag *)
Definition one_ci (c : char) : regex :=
  Chr (fun x => eqc x (lowerAZ c) || eqc x (upperAZ c)).

Fixpoint lit (s : jsstring) : regex :=
  match s with
  | [] => Eps
  | c :: s' => Cat (one c) (lit s')
  end.

Fixpoint lit_ci (s : jsstring) : regex :=
  match s with
  | [] => Eps
  | c :: s' => Cat (one_ci c) (lit_ci s')
  end.

Fixpoint alts (rs : list regex) : regex :=
  match rs with
  | [] => Chr (fun _ => false)
  | [r] => r
  | r :: rs' => Alt r (alts rs')
  end.

(** [r?] (greedy) *)
Definition opt (r : regex) : regex := Alt r Eps.

Definition any : char -> bool := fun _ => true.
Definition notc (c : char) : char -> bool := fun x => negb (eqc x c).
Definition range (lo hi : ascii) : char -> bool :=
  fun x => (N_of_ascii lo <=? x)%N && (x <=? N_of_ascii hi)%N.

End Regex.
Import Regex.

Declare Scope regex_scope.
Delimit Scope regex_scope with re.
Infix "+++" := Cat (at level 60, right associativity) : regex_scope.

(* ================================================================== *)
(** * HTML to plain text *)
(* ================================================================== *)

Module Html.

Local Open Scope regex_scope.

(** [/<script[^>]*>[\s\S]*?<\/script>/gi] *)
Definition re_script : regex :=
  lit_ci (str "<script") +++ Rep true 0 (notc GT) +++ one GT +++
  Rep false 0 any +++ lit_ci (str "</script>").

(** [/<style[^>]*>[\s\S]*?<\/style>/gi] *)
Definition re_style : regex :=
  lit_ci (str "<style") +++ Rep true 0 (notc GT) +++ one GT +++
  Rep false 0 any +++ lit_ci (str "</style>").

(** [/<\/?(p|div|h[1-6]|li|blockquote|tr|br)[^>]*>/gi] *)
Definition re_block : regex :=
  one LT +++ opt (one (ch "/")) +++
  alts [ lit_ci (str "p"); lit_ci (str "div");
         one_ci (ch "h") +++ Chr (range "1" "6");
         lit_ci (str "li"); lit_ci (str "blockquote");
         lit_ci (str "tr"); lit_ci (str "br") ] +++
  Rep true 0 (notc GT) +++ one GT.

(** [/<[^>]+>/g] *)
Definition re_tag : regex :=
  one LT +++ Rep true 1 (notc GT) +++ one GT.

(** [/\n{3,}/g] *)
Definition re_newlines : regex := Rep true 3 (eqc LF).

(** [/[ \t]{2,}/g] *)
Definition isBlank (c : char) : bool := eqc c 32%N || eqc c 9%N.
Definition re_blanks : regex := Rep true 2 isBlank.

(** Steps 1 to 4: scripts and styles, block tags, remaining tags. *)
Definition stripMarkup (html : jsstring) : jsstring :=
  replaceAll re_tag []
    (replaceAll re_block [LF]
       (replaceAll re_style []
          (replaceAll re_script [] html))).

(** The entity table, in the order the replacements are chained. *)
Definition entities : list (jsstring * jsstring) :=
  [ (str "&amp;", str "&");
    (str "&lt;", [LT]);
    (str "&gt;", [GT]);
    (str "&quot;", [34%N]);
    (str "&#039;", [39%N]);
    (str "&nbsp;", [32%N]);
    (str "&#8211;", [8211%N]);
    (str "&#8212;", [8212%N]);
    (str "&#8216;", [8216%N]);
    (str "&#8217;", [8217%N]);
    (str "&#8220;", [8220%N]);
    (str "&#8221;", [8221%N]) ].

Definition decodeEntities (s : jsstring) : jsstring :=
  fold_left (fun acc e => replaceAll (lit (fst e)) (snd e) acc) entities s.

(** The last three steps: newline runs, blank runs, trim. *)
Definition tidy (s : jsstring) : jsstring :=
  trim (replaceAll re_blanks [32%N] (replaceAll re_newlines [LF; LF] s)).

Definition htmlToPlainText (html : jsstring) : jsstring :=
  tidy (decodeEntities (stripMarkup html)).

Definition stripHtml (html : jsstring) : jsstring :=
  trim (replaceAll (lit (str "&#8211;")) [8211%N]
          (replaceAll (lit (str "&amp;")) (str "&")
             (replaceAll re_tag [] html))).

(** ** What the properties below are stated with *)

(** the number of leading code units of class [p] *)
Fixpoint leading (p : char -> bool) (s : jsstring) : nat :=
  match s with
  | c :: t => if p c then S (leading p t) else 0
  | [] => 0
  end.

(** No three line feeds in a row. *)
Definition NoNewlineRun (s : jsstring) : Prop :=
  forall pre post, s <> pre ++ [LF; LF; LF] ++ post.

(** the same, checked from the left: fewer than three line feeds start
    at any position *)
Fixpoint calm (s : jsstring) : bool :=
  match s with
  | [] => true
  | _ :: t => (leading (eqc LF) s <? 3) && calm t
  end.

(** No tag is left: a [<] is never followed by one or more code units
    other than [>] and then a [>]. *)
Definition TagFree (s : jsstring) : Prop :=
  forall pre mid post,
    s = pre ++ [LT] ++ mid ++ [GT] ++ post -> mid <> [] -> In GT mid.

(** what [re_tag] matches at the start of [s], read off the pattern *)
Definition tagRest (s : jsstring) : option jsstring :=
  match s with
  | c :: c' :: t =>
      if eqc LT c && notc GT c' then
        match dropWhile (notc GT) t with
        | _ :: rest => Some rest
        | [] => None
        end
      else None
  | _ => None
  end.

Fixpoint noTag (s : jsstring) : bool :=
  match s with
  | [] => true
  | _ :: t => match tagRest s with Some _ => false | None => noTag t end
  end.

Definition squeeze : jsstring -> jsstring := replaceAll re_newlines [LF; LF].
Definition unblank : jsstring -> jsstring := replaceAll re_blanks [32%N].
Definition untag : jsstring -> jsstring := replaceAll re_tag [].

End Html.
Import Html.

(* ================================================================== *)
(** * Values and exceptions *)
(* ================================================================== *)

Module Js.

(** What [JSON.parse] yields, plus [VUndefined] for absent properties and
    [VMethod] for a method found on a prototype (a string has a [link]
    method, so [b.link] is a function when [b] is a string).  Numbers are
    the integers; the code only tests them for zero and passes them on. *)
Inductive value : Type :=
| VUndefined
| VNull
| VBool (b : bool)
| VNum (n : Z)
| VStr (s : jsstring)
| VArr (items : list value)
| VObj (props : list (jsstring * value))
| VMethod.

Record error : Type := mkError { name : jsstring; message : jsstring }.

(** Errors the runtime raises.  The message texts follow V8 loosely; no
    property below depends on them. *)
Definition TypeError (what : jsstring) : error :=
  mkError (str "TypeError") what.
(** [new Error(msg)] *)
Definition Error (msg : jsstring) : error := mkError (str "Error") msg.

Inductive result (A : Type) : Type :=
| Ok (a : A)
| Throw (e : error).
Arguments Ok {A} a.
Arguments Throw {A} e.

Definition bind {A B} (m : result A) (f : A -> result B) : result B :=
  match m with
  | Ok a => f a
  | Throw e => Throw e
  end.

Fixpoint mapM {A B} (f : A -> result B) (l : list A) : result (list B) :=
  match l with
  | [] => Ok []
  | a :: l' =>
      bind (f a) (fun b => bind (mapM f l') (fun bs => Ok (b :: bs)))
  end.

Definition truthy (v : value) : bool :=
  match v with
  | VUndefined | VNull => false
  | VBool b => b
  | VNum n => negb (Z.eqb n 0)
  | VStr s => match s with [] => false | _ => true end
  | VArr _ | VObj _ | VMethod => true
  end.

(** [a || b] on values already evaluated *)
Definition or_ (a b : value) : value := if truthy a then a else b.

(** [v === true] *)
Definition isTrue (v : value) : bool :=
  match v with VBool true => true | _ => false end.

Definition isNullish (v : value) : bool :=
  match v with VUndefined | VNull => true | _ => false end.

Fixpoint lookup (k : jsstring) (props : list (jsstring * value)) : value :=
  match props with
  | [] => VUndefined
  | (k', v) :: rest => if eqs k k' then v else lookup k rest
  end.

(** [v.k] for the property names the servers read.  Of those names only
    [link] exists on a prototype ([String.prototype.link]). *)
Definition get (v : value) (k : jsstring) : result value :=
  match v with
  | VUndefined | VNull =>
      Throw (TypeError (str "Cannot read properties of null or undefined"))
  | VObj props => Ok (lookup k props)
  | VStr _ => Ok (if eqs k (str "link") then VMethod else VUndefined)
  | VMethod => Ok (if eqs k (str "name") then VStr (str "link") else VUndefined)
  | _ => Ok VUndefined
  end.

(** [v?.k] *)
Definition getOpt (v : value) (k : jsstring) : value :=
  match get v k with
  | Ok x => x
  | Throw _ => VUndefined
  end.

(** Calling a string method on [v]: only a string has one. *)
Definition asString (method : jsstring) (v : value) : result jsstring :=
  match v with
  | VStr s => Ok s
  | VUndefined | VNull =>
      Throw (TypeError (str "Cannot read properties of null or undefined"))
  | _ => Throw (TypeError (method ++ str " is not a function"))
  end.

(** [Array.isArray(v) ? v : []] *)
Definition arrayOrEmpty (v : value) : list value :=
  match v with VArr items => items | _ => [] end.

(** [items.join(sep)] over strings already converted *)
Fixpoint joinWith (sep : jsstring) (items : list jsstring) : jsstring :=
  match items with
  | [] => []
  | [x] => x
  | x :: rest => x ++ sep ++ joinWith sep rest
  end.

(** ToString of a value, as [Array.prototype.join] applies it to each
    element ([null] and [undefined] elements give the empty string). *)
Fixpoint toStr (v : value) : jsstring :=
  match v with
  | VUndefined => str "undefined"
  | VNull => str "null"
  | VBool true => str "true"
  | VBool false => str "false"
  | VNum n => dec n
  | VStr s => s
  | VArr items =>
      joinWith (str ",")
        (List.map (fun x => if isNullish x then [] else toStr x) items)
  | VObj _ => str "[object Object]"
  | VMethod => str "function link() { [native code] }"
  end.

Definition join (sep : jsstring) (items : list value) : jsstring :=
  joinWith sep (List.map (fun x => if isNullish x then [] else toStr x) items).

End Js.
Import Js.

Notation "x <- m ;; k" := (bind m (fun x => k))
  (at level 61, m at next level, right associativity).

(* ================================================================== *)
(** * What the runtime provides *)
(* ================================================================== *)

(** The result of [new URL(s)]: the two fields the servers read. *)
Record URL : Type := mkURL { protocol : jsstring; hostname : jsstring }.

(** Built-ins whose behaviour lives in the runtime's tables (Unicode case
    mapping, collation, the WHATWG URL parser).  The servers are modelled
    over any implementation of them. *)
Class Runtime : Type := {
  toLowerCase : jsstring -> jsstring;
  localeCompare : jsstring -> jsstring -> Z;
  parseURL : jsstring -> option URL
}.

(* ================================================================== *)
(** * Junk filter and entry construction *)
(* ================================================================== *)

Record entry : Type := mkEntry {
  id : value;
  title : jsstring;
  link : jsstring;
  author : jsstring;
  license : value;
  subject : jsstring;
  inCatalog : bool;
  wordCount : value;
  lastUpdated : value
}.

Definition JUNK_SLUG_KEYWORDS : list jsstring :=
  List.map str
    [ "sandbox"; "sample"; "test"; "demo"; "h5p"; "hypothesis";
      "import"; "workshop"; "template"; "training"; "trial";
      "temp"; "-dev"; "devsite"; "dev2" ]%string.

Definition JUNK_TITLE_KEYWORDS : list jsstring :=
  List.map str
    [ "sandbox"; "sample"; "testbook"; "test book"; "demo book";
      "workshop"; "template"; "dev site"; "dev 2" ]%string.

(** [s.replace(/\/$/, '')] *)
Definition dropTrailingSlash (s : jsstring) : jsstring :=
  match rev s with
  | c :: r => if eqc c (ch "/") then rev r else s
  | [] => s
  end.

Section Catalogue.

Context {RT : Runtime}.

(** [b.metadata || {}] *)
Definition metadataOf (b : value) : result value :=
  m <- get b (str "metadata") ;;
  Ok (or_ m (VObj [])).

(** The slug [isJunkBook] derives from the lower-cased link. *)
Definition slugOfLink (lowered : jsstring) : jsstring :=
  replaceFirst
    (replaceFirst
       (replaceFirst lowered (str "https://") [])
       (str ".pressbooks.tru.ca/") [])
    (str "/") [].

Definition lowered (field : value) : result jsstring :=
  s <- asString (str "toLowerCase") (or_ field (VStr [])) ;;
  Ok (toLowerCase s).

Definition isJunkBook (b : value) : result bool :=
  meta <- metadataOf b ;;
  flag <- get meta (str "inCatalog") ;;
  if isTrue flag then Ok false
  else
    bl <- get b (str "link") ;;
    link <- lowered bl ;;
    let slug := slugOfLink link in
    mn <- get meta (str "name") ;;
    title <- lowered mn ;;
    if existsb (fun k => includes slug k) JUNK_SLUG_KEYWORDS then Ok true
    else if existsb (fun k => includes title k) JUNK_TITLE_KEYWORDS then Ok true
    else Ok false.

(** Three readings of a record, as [isJunkBook] makes them: the
    explicit-inclusion flag, the slug, the lower-cased title. *)
Definition flagOf (b : value) : result bool :=
  meta <- metadataOf b ;;
  flag <- get meta (str "inCatalog") ;;
  Ok (isTrue flag).

Definition slugOf (b : value) : result jsstring :=
  bl <- get b (str "link") ;;
  link <- lowered bl ;;
  Ok (slugOfLink link).


(** [meta.name] as it is in the record, before it is lower-cased *)
Definition nameOf (b : value) : result value :=
  meta <- metadataOf b ;;
  get meta (str "name").

(** [arr.map(a => a.name).filter(Boolean).join(', ')] *)
Definition names (arr : list value) : result jsstring :=
  ns <- mapM (fun a => get a (str "name")) arr ;;
  Ok (join (str ", ") (filter truthy ns)).

Definition parseBook (b : value) : result entry :=
  meta <- metadataOf b ;;
  mn <- get meta (str "name") ;;
  bt <- get b (str "title") ;;
  let title := or_ (or_ mn bt) (VStr (str "Untitled")) in
  ma <- get meta (str "author") ;;
  author <- names (arrayOrEmpty ma) ;;
  ml <- get meta (str "license") ;;
  let license :=
    or_ (or_ (getOpt ml (str "code")) (getOpt ml (str "name"))) (VStr []) in
  mab <- get meta (str "about") ;;
  subject <- names (arrayOrEmpty mab) ;;
  bid <- get b (str "id") ;;
  trimmed <- asString (str "title.trim") title ;;
  bl <- get b (str "link") ;;
  l <- asString (str "replace") (or_ bl (VStr [])) ;;
  flag <- get meta (str "inCatalog") ;;
  wc <- get meta (str "wordCount") ;;
  lu <- get meta (str "lastUpdated") ;;
  Ok {| id := bid;
        title := trim trimmed;
        link := dropTrailingSlash l;
        author := author;
        license := license;
        subject := subject;
        inCatalog := isTrue flag;
        wordCount := or_ wc (VNum 0);
        lastUpdated := or_ lu (VStr []) |}.

End Catalogue.

(* ================================================================== *)
(** * Sorting *)
(* ================================================================== *)

(** [Array.prototype.sort(cmp)] is stable; for a consistent comparator its
    result is the one stably sorted arrangement, computed here by
    insertion.  [cmp a b > 0] puts [b] first, anything else keeps [a]
    first. *)
Module Sort.
Section Sort.

Variable A : Type.
Variable cmp : A -> A -> Z.

Fixpoint insert (x : A) (l : list A) : list A :=
  match l with
  | [] => [x]
  | y :: l' => if (0 <? cmp x y)%Z then y :: insert x l' else x :: l
  end.

Fixpoint sort (l : list A) : list A :=
  match l with
  | [] => []
  | x :: l' => insert x (sort l')
  end.

(** A consistent comparator, as the language requires of the argument of
    [sort]: reversing the arguments reverses the sign, and the order is
    transitive. *)
Definition Consistent : Prop :=
  (forall a b, (0 < cmp a b)%Z -> (cmp b a < 0)%Z)
  /\ (forall a b c, (cmp a b <= 0)%Z -> (cmp b c <= 0)%Z -> (cmp a c <= 0)%Z).

Definition le (a b : A) : Prop := (cmp a b <= 0)%Z.


End Sort.
End Sort.

(* ================================================================== *)
(** * The network and the replies *)
(* ================================================================== *)

Module Http.

(** What [fetch] resolves to: the status, [headers.get], and what
    [r.json()] and [r.text()] settle to. *)
Record response : Type := mkResponse {
  status : Z;
  header : jsstring -> option jsstring;
  json : result value;
  text : result jsstring
}.

(** [r.ok] *)
Definition ok (r : response) : bool :=
  ((200 <=? status r) && (status r <=? 299))%Z.

(** [fetch(url)]: [Throw] is a rejected promise (transport failure). *)
Definition network : Type := jsstring -> result response.

Record tocChapter : Type := mkTocChapter {
  c_id : value; c_title : value; c_slug : value; c_link : value;
  c_wordCount : value
}.

Record tocPart : Type := mkTocPart {
  p_id : value; p_title : value; p_chapters : list tocChapter
}.

Record chapterContent : Type := mkChapterContent {
  ch_id : value; ch_title : jsstring; ch_link : value;
  ch_wordCount : nat; ch_text : jsstring
}.

Record pageExtract : Type := mkPageExtract {
  x_title : jsstring; x_text : jsstring; x_wordCount : nat
}.

(** The JSON body the server sends. *)
Inductive body : Type :=
| ErrorBody (msg : jsstring)
| Books (l : list entry)
| Toc (parts : list tocPart)
| Chapter (c : chapterContent)
| Page (x : pageExtract).

(** [res.status(code).json(body)] *)
Record reply : Type := mkReply { code : Z; payload : body }.

(** One handled request: the reply and the URLs fetched, in the order the
    requests were issued. *)
Record handled : Type := mkHandled { sent : reply; requests : list jsstring }.

Definition PB_NETWORK : jsstring := str "https://pressbooks.tru.ca".

(** [parseInt(s, 10)]; [None] is NaN.  The integer read is kept as it
    is written; the number the runtime returns is that integer as long
    as it is at most 2^53 in absolute value. *)
Definition isDigit (c : char) : bool := ((48 <=? c) && (c <=? 57))%N.

Fixpoint digits (acc : Z) (s : jsstring) : Z :=
  match s with
  | c :: s' =>
      if isDigit c then digits (acc * 10 + Z.of_N (c - 48)) s' else acc
  | [] => acc
  end.

Definition parseInt10 (s : jsstring) : option Z :=
  let s1 := trimStart s in
  let '(sign, s2) :=
    match s1 with
    | c :: t =>
        if eqc c (ch "-") then ((-1)%Z, t)
        else if eqc c (ch "+") then (1%Z, t)
        else (1%Z, s1)
    | [] => (1%Z, s1)
    end in
  match s2 with
  | c :: _ => if isDigit c then Some (sign * digits 0 s2)%Z else None
  | [] => None
  end.

(** [parseInt(r.headers.get('X-WP-TotalPages') || '1', 10)] *)
Definition totalPagesOf (r : response) : option Z :=
  match header r (str "X-WP-TotalPages") with
  | Some (c :: s) => parseInt10 (c :: s)
  | _ => parseInt10 (str "1")
  end.

Definition booksUrl (page : Z) : jsstring :=
  PB_NETWORK ++ str "/wp-json/pressbooks/v2/books?per_page=10&page=" ++ dec page.

(** [throw new Error(`Pressbooks returned HTTP ${r.status} on page ${p}`)] *)
Definition pageError (st page : Z) : error :=
  Error (str "Pressbooks returned HTTP " ++ dec st ++ str " on page " ++ dec page).

(** [res.status(502).json({ error: `Could not fetch book list: ${err.message}` })] *)
Definition booksFailure (e : error) : reply :=
  mkReply 502 (ErrorBody (str "Could not fetch book list: " ++ message e)).

(** Requesting page [p] of the listing and reading its body:
    [fetch(url)], then [if (!r.ok) throw new Error(...)], then [r.json()]. *)
Definition fetchPage (net : network) (p : Z) : result value :=
  r <- net (booksUrl p) ;;
  if negb (ok r) then Throw (pageError (status r) p) else json r.

(** [req.query.all === '1'] *)
Definition showAllOf (all : option jsstring) : bool :=
  match all with
  | Some s => eqs s (str "1")
  | None => false
  end.

End Http.
Import Http.

(* ================================================================== *)
(** * The handlers *)
(* ================================================================== *)

(** ** [src/server.js]: [/api/books], one page after the other *)
Module Server.
Section Server.

Context {RT : Runtime}.

Definition byTitle (a b : entry) : Z := localeCompare (title a) (title b).

(** The body of [for (const b of books)]: skip junk unless [showAll],
    otherwise build the entry (the same expressions as [parseBook]). *)
Definition shape (showAll : bool) (b : value) : result (option entry) :=
  junk <- (if showAll then Ok false else isJunkBook b) ;;
  if junk then Ok None
  else e <- parseBook b ;; Ok (Some e).

Fixpoint shapePage (showAll : bool) (books : list value) (allBooks : list entry)
  : result (list entry) :=
  match books with
  | [] => Ok allBooks
  | b :: rest =>
      o <- shape showAll b ;;
      shapePage showAll rest
        (match o with Some e => allBooks ++ [e] | None => allBooks end)
  end.

Inductive pageResult : Type :=
| Failed (e : error)
| Stop
| More (allBooks : list entry).

(** One turn of the [while] loop, after the request has been issued. *)
Definition onePage (showAll : bool) (fetched : result response) (page : Z)
    (allBooks : list entry) : pageResult :=
  match fetched with
  | Throw e => Failed e
  | Ok r =>
      if negb (ok r) then Failed (pageError (status r) page)
      else
        match json r with
        | Throw e => Failed e
        | Ok (VArr (b :: rest)) =>
            match shapePage showAll (b :: rest) allBooks with
            | Ok allBooks' => More allBooks'
            | Throw e => Failed e
            end
        | Ok _ => Stop
        end
  end.

(** [while (page <= totalPages)]: [turns] is the number of turns the
    condition can still allow; [reqs] collects the pages requested. *)
Fixpoint pagesFrom (turns : nat) (showAll : bool) (net : network) (page : Z)
    (allBooks : list entry) (reqs : list Z)
  : result (list entry) * list Z :=
  match turns with
  | O => (Ok allBooks, reqs)
  | S turns' =>
      let reqs' := reqs ++ [page] in
      match onePage showAll (net (booksUrl page)) page allBooks with
      | Failed e => (Throw e, reqs')
      | Stop => (Ok allBooks, reqs')
      | More allBooks' =>
          pagesFrom turns' showAll net (page + 1) allBooks' reqs'
      end
  end.

(** [totalPages] starts at 1 and is read from the header of page 1, so
    the loop takes its first turn, then at most [totalPages - 1] more
    (none when the header does not parse). *)
Definition turnsAfterFirst (first : result response) : nat :=
  match first with
  | Ok r =>
      match totalPagesOf r with
      | Some totalPages => Z.to_nat (totalPages - 1)
      | None => 0
      end
  | Throw _ => 0
  end.

Definition aggregate (showAll : bool) (net : network)
  : result (list entry) * list Z :=
  pagesFrom (S (turnsAfterFirst (net (booksUrl 1)))) showAll net 1 [] [].

Definition books (all : option jsstring) (net : network) : handled :=
  match aggregate (showAllOf all) net with
  | (Ok allBooks, reqs) =>
      mkHandled (mkReply 200 (Books (Sort.sort byTitle allBooks)))
        (List.map booksUrl reqs)
  | (Throw e, reqs) => mkHandled (booksFailure e) (List.map booksUrl reqs)
  end.

End Server.
End Server.

(** ** [src/nova/server.js], [src/sylva/server.js] (Companion):
       [/api/books], pages 2..N in parallel, with the cache *)
Module Nova.

Record cache : Type := mkCache {
  booksCache : option (list entry);
  booksCacheTime : Z
}.

(** [let booksCache = null; let booksCacheTime = 0;] *)
Definition startup : cache := mkCache None 0.

Definition BOOKS_CACHE_TTL : Z := 10 * 60 * 1000.

(** [Promise.all(promises)]: [settled] lists positions of [promises] in
    the order they settle (positions left out settle afterwards, in the
    order of [promises]).  The first promise to settle as rejected rejects
    the whole; with none rejected the values come in the order of
    [promises]. *)
Fixpoint firstRejected {A} (promises : list (result A)) (settled : list nat)
  : option error :=
  match settled with
  | [] => None
  | i :: settled' =>
      match nth_error promises i with
      | Some (Throw e) => Some e
      | _ => firstRejected promises settled'
      end
  end.

Definition promiseAll {A} (promises : list (result A)) (settled : list nat)
  : result (list A) :=
  match firstRejected promises settled with
  | Some e => Throw e
  | None => mapM (fun p => p) promises
  end.

(** [arr.flat()] *)
Definition flat (arr : list value) : list value :=
  flat_map (fun v => match v with VArr items => items | _ => [v] end) arr.

Fixpoint filterM {A} (f : A -> result bool) (l : list A) : result (list A) :=
  match l with
  | [] => Ok []
  | a :: l' =>
      keep <- f a ;;
      rest <- filterM f l' ;;
      Ok (if keep then a :: rest else rest)
  end.

Section Nova.

Context {RT : Runtime}.

Definition byTitle (a b : entry) : Z := localeCompare (title a) (title b).

(** [for (let p = 2; p <= totalPages; p++)] *)
Definition remainingPages (totalPages : option Z) : list Z :=
  match totalPages with
  | Some n => List.map (fun i => Z.of_nat i + 2)%Z (seq 0 (Z.to_nat (n - 1)))
  | None => []
  end.

(** [b => showAll || !isJunkBook(b)] *)
Definition keep (showAll : bool) (b : value) : result bool :=
  if showAll then Ok true else (j <- isJunkBook b ;; Ok (negb j)).

(** Step 3 of the handler. *)
Definition shapeAll (showAll : bool) (pages : list value) : result (list entry) :=
  kept <- filterM (keep showAll) (flat pages) ;;
  allBooks <- mapM parseBook kept ;;
  Ok (Sort.sort byTitle allBooks).

(** Steps 1 to 3, with the pages requested.  Each of the promises pushed
    by the loop is [fetch(url).then(r => { if (!r.ok) throw ...; return
    r.json(); })], that is [fetchPage]. *)
Definition aggregate (showAll : bool) (net : network) (settled : list nat)
  : result (list entry) * list Z :=
  let reqs1 := [1%Z] in
  match net (booksUrl 1) with
  | Throw e => (Throw e, reqs1)
  | Ok r1 =>
      if negb (ok r1) then (Throw (pageError (status r1) 1), reqs1)
      else
        match json r1 with
        | Throw e => (Throw e, reqs1)
        | Ok page1books =>
            let pages := remainingPages (totalPagesOf r1) in
            (remainingResults <-
               promiseAll (List.map (fetchPage net) pages) settled ;;
             shapeAll showAll (page1books :: remainingResults),
             reqs1 ++ pages)
        end
  end.

(** [!showAll && booksCache && (Date.now() - booksCacheTime) < BOOKS_CACHE_TTL] *)
Definition servedFromCache (showAll : bool) (st : cache) (now : Z)
  : option (list entry) :=
  if showAll then None
  else
    match booksCache st with
    | Some cached =>
        if (now - booksCacheTime st <? BOOKS_CACHE_TTL)%Z then Some cached
        else None
    | None => None
    end.

(** The handler.  [now] is [Date.now()] at the cache test, [later] is
    [Date.now()] when the cache is written. *)
Definition books (all : option jsstring) (now later : Z) (net : network)
    (settled : list nat) (st : cache) : handled * cache :=
  let showAll := showAllOf all in
  match servedFromCache showAll st now with
  | Some cached => (mkHandled (mkReply 200 (Books cached)) [], st)
  | None =>
      match aggregate showAll net settled with
      | (Ok allBooks, reqs) =>
          (mkHandled (mkReply 200 (Books allBooks)) (List.map booksUrl reqs),
           if showAll then st else mkCache (Some allBooks) later)
      | (Throw e, reqs) =>
          (mkHandled (booksFailure e) (List.map booksUrl reqs), st)
      end
  end.

(** The entries in order of discovery: page after page, and within a
    page in the order of the body.  This is what the specification
    compares the reply with; the handler does not compute it this way. *)
Definition discovered (showAll : bool) (net : network) : result (list entry) :=
  r1 <- net (booksUrl 1) ;;
  bodies <- mapM (fetchPage net) (1%Z :: remainingPages (totalPagesOf r1)) ;;
  kept <- filterM (keep showAll) (flat bodies) ;;
  mapM parseBook kept.


End Nova.
End Nova.

(** ** [/api/toc] and [/api/chapter] (the same text in every server) *)
Module Content.
Section Content.

Context {RT : Runtime}.

Definition refuse (msg : string) : handled :=
  mkHandled (mkReply 400 (ErrorBody (str msg))) [].

(** [parsed.hostname.endsWith('.pressbooks.tru.ca') ||
     parsed.hostname === 'pressbooks.tru.ca'] *)
Definition trustedHost (h : jsstring) : bool :=
  endsWith h (str ".pressbooks.tru.ca") || eqs h (str "pressbooks.tru.ca").

(** The checks both handlers make before they fetch: [inl] is the reply
    sent at once, [inr] lets the request through. *)
Definition checkBookUrl (bookUrl : jsstring) : handled + unit :=
  match parseURL bookUrl with
  | None => inl (refuse "bookUrl is not a valid URL.")
  | Some parsed =>
      if negb (endsWith (hostname parsed) (str ".pressbooks.tru.ca"))
         && negb (eqs (hostname parsed) (str "pressbooks.tru.ca"))
      then inl (refuse "bookUrl must be a pressbooks.tru.ca subdomain.")
      else inr tt
  end.

(** [fetch(url)] then [if (!r.ok) throw new Error(`HTTP ${r.status}`)]
    then [r.json()] *)
Definition fetchJson (net : network) (url : jsstring) : result value :=
  r <- net url ;;
  if negb (ok r) then Throw (Error (str "HTTP " ++ dec (status r)))
  else json r.

(** [v.filter(...)], [v.map(...)]: [v] has to be an array. *)
Definition asArray (v : value) : result (list value) :=
  match v with
  | VArr items => Ok items
  | VUndefined | VNull =>
      Throw (TypeError (str "Cannot read properties of null or undefined"))
  | _ => Throw (TypeError (str "filter is not a function"))
  end.

(** [c.status === 'publish' && c.has_post_content] *)
Definition published (c : value) : result bool :=
  st <- get c (str "status") ;;
  hp <- get c (str "has_post_content") ;;
  Ok (match st with VStr s => eqs s (str "publish") | _ => false end
      && truthy hp).

Definition simplifyChapter (c : value) : result tocChapter :=
  cid <- get c (str "id") ;;
  ct <- get c (str "title") ;;
  cs <- get c (str "slug") ;;
  cl <- get c (str "link") ;;
  wc <- get c (str "word_count") ;;
  Ok (mkTocChapter cid (or_ ct (VStr (str "Untitled Chapter"))) cs cl
        (or_ wc (VNum 0))).

(** [Array.isArray(p.chapters) && p.chapters.length > 0] *)
Definition hasChapters (p : value) : result bool :=
  cs <- get p (str "chapters") ;;
  Ok (match cs with VArr (_ :: _) => true | _ => false end).

Definition simplifyPart (p : value) : result tocPart :=
  pid <- get p (str "id") ;;
  pt <- get p (str "title") ;;
  cs <- get p (str "chapters") ;;
  kept <- Nova.filterM published (arrayOrEmpty cs) ;;
  chapters <- mapM simplifyChapter kept ;;
  Ok (mkTocPart pid (or_ pt (VStr (str "Untitled Part"))) chapters).

Definition simplifyToc (toc : value) : result (list tocPart) :=
  ps <- get toc (str "parts") ;;
  parts <- asArray (or_ ps (VArr [])) ;;
  withChapters <- Nova.filterM hasChapters parts ;;
  simplified <- mapM simplifyPart withChapters ;;
  Ok (filter (fun p => match p_chapters p with [] => false | _ => true end)
        simplified).

Definition toc (bookUrl : option jsstring) (net : network) : handled :=
  match bookUrl with
  | None | Some [] => refuse "bookUrl query parameter is required."
  | Some bookUrl =>
      match checkBookUrl bookUrl with
      | inl r => r
      | inr _ =>
          let tocUrl := bookUrl ++ str "/wp-json/pressbooks/v2/toc" in
          match (t <- fetchJson net tocUrl ;; simplifyToc t) with
          | Ok parts => mkHandled (mkReply 200 (Toc parts)) [tocUrl]
          | Throw e =>
              mkHandled
                (mkReply 502
                   (ErrorBody
                      (str "Could not fetch table of contents: " ++ message e)))
                [tocUrl]
          end
      end
  end.

(** [htmlToPlainText(v)], [stripHtml(v)]: [v.replace] needs a string. *)
Definition plainTextOf (v : value) : result jsstring :=
  s <- asString (str "html.replace") v ;; Ok (htmlToPlainText s).

Definition shapeChapter (chapter : value) : result chapterContent :=
  let htmlContent :=
    or_ (getOpt (getOpt chapter (str "content")) (str "rendered")) (VStr []) in
  let title :=
    or_ (getOpt (getOpt chapter (str "title")) (str "rendered"))
        (VStr (str "Untitled Chapter")) in
  let link := or_ (getOpt chapter (str "link")) (VStr []) in
  plainText <- plainTextOf htmlContent ;;
  cid <- get chapter (str "id") ;;
  t <- asString (str "html.replace") title ;;
  Ok (mkChapterContent cid (stripHtml t) link (countWords false plainText)
        plainText).

Definition chapter (bookUrl chapterId : option jsstring) (net : network)
  : handled :=
  match bookUrl, chapterId with
  | Some (c :: u), Some (d :: i) =>
      let bookUrl := c :: u in
      let chapterId := d :: i in
      match checkBookUrl bookUrl with
      | inl r => r
      | inr _ =>
          let chapterUrl :=
            bookUrl ++ str "/wp-json/pressbooks/v2/chapters/" ++ chapterId in
          match (c <- fetchJson net chapterUrl ;; shapeChapter c) with
          | Ok content => mkHandled (mkReply 200 (Chapter content)) [chapterUrl]
          | Throw e =>
              mkHandled
                (mkReply 502
                   (ErrorBody (str "Could not fetch chapter: " ++ message e)))
                [chapterUrl]
          end
      end
  | _, _ => refuse "bookUrl and chapterId query parameters are required."
  end.

End Content.
End Content.

(** ** [src/server.js]: [/api/fetch-url] *)
Module FetchUrl.

Local Open Scope regex_scope.

(** [[ /^localhost/i, /^127\./, /^10\./, /^192\.168\./,
       /^172\.(1[6-9]|2\d|3[01])\./ ]] *)
Definition FETCH_URL_BLOCKLIST : list regex :=
  [ lit_ci (str "localhost");
    lit (str "127.");
    lit (str "10.");
    lit (str "192.168.");
    lit (str "172.") +++
      alts [ one (ch "1") +++ Chr (range "6" "9");
             one (ch "2") +++ Chr (range "0" "9");
             one (ch "3") +++ Chr (range "0" "1") ] +++
      one (ch ".") ].

(** The title pattern [/<title[^>]*>(G)<\/title>/i] with group
    [G = [^<]*], in three parts around the group. *)
Definition titleOpen : regex := lit_ci (str "<title") +++ Rep true 0 (notc GT) +++ one GT.
Definition titleText : regex := Rep true 0 (notc LT).
Definition titleClose : regex := lit_ci (str "</title>").

(** [contentType.split(';')[0]] *)
Fixpoint beforeSemicolon (s : jsstring) : jsstring :=
  match s with
  | [] => []
  | c :: s' => if eqc c (ch ";") then [] else c :: beforeSemicolon s'
  end.

(** The timer aborts the fetch after this many milliseconds; the fetch
    then rejects with [AbortError]. *)
Definition FETCH_URL_TIMEOUT_MS : Z := 12000.

Definition AbortError : error := mkError (str "AbortError") (str "This operation was aborted").

Section FetchUrl.

Context {RT : Runtime}.

Definition refuse (msg : string) : handled :=
  mkHandled (mkReply 400 (ErrorBody (str msg))) [].

Definition failed (e : error) : reply :=
  if eqs (name e) (str "AbortError")
  then mkReply 504
         (ErrorBody (str "Request timed out " ++ [8212%N]
                    ++ str " the URL took too long to respond."))
  else mkReply 502 (ErrorBody (str "Could not fetch URL: " ++ message e)).

(** What follows [await fetch(url, ...)]; [inl] is a reply sent from
    inside the [try], [Throw] goes to the [catch]. *)
Definition extract (parsed : URL) (r : response) : result reply :=
  if negb (ok r)
  then Throw (Error (str "Remote server returned HTTP " ++ dec (status r)))
  else
    let contentType :=
      match header r (str "content-type") with Some t => t | None => [] end in
    if negb (includes contentType (str "text/html"))
       && negb (includes contentType (str "text/plain"))
       && negb (includes contentType (str "application/xhtml"))
    then Ok (mkReply 415
               (ErrorBody (str "Unsupported content type: "
                           ++ beforeSemicolon contentType)))
    else
      html <- text r ;;
      let title :=
        match firstGroup titleOpen titleText titleClose html with
        | Some t => trim t
        | None => hostname parsed
        end in
      let text := htmlToPlainText html in
      if (List.length text <? 20)%nat
      then Ok (mkReply 422 (ErrorBody (str "No readable text found at that URL.")))
      else Ok (mkReply 200
                 (Page (mkPageExtract title text (countWords false text)))).

Definition fetchUrl (url : option jsstring) (net : network) : handled :=
  match url with
  | None | Some [] => refuse "url query parameter is required."
  | Some url =>
      match parseURL url with
      | None => refuse "Invalid URL."
      | Some parsed =>
          if negb (existsb (eqs (protocol parsed)) [str "http:"; str "https:"])
          then refuse "Only http and https URLs are supported."
          else if existsb (fun re => testAnchored re (hostname parsed))
                    FETCH_URL_BLOCKLIST
          then refuse "That host is not allowed."
          else
            match (r <- net url ;; extract parsed r) with
            | Ok rep => mkHandled rep [url]
            | Throw e => mkHandled (failed e) [url]
            end
      end
  end.

End FetchUrl.
End FetchUrl.

(* ================================================================== *)
(** * A reference runtime *)
(* ================================================================== *)

(** An implementation of [Runtime] to run the servers on examples.  It
    lower-cases A-Z only, compares strings code unit by code unit, and
    parses URLs of the plain shape [scheme://host/rest], where the host
    is made of letters, digits, [-] and [.]; on such inputs the three
    agree with the built-ins, apart from the collation order of letters.
    No theorem about the servers depends on it. *)
Module Reference.

Fixpoint compareUnits (a b : jsstring) : Z :=
  match a, b with
  | [], [] => 0
  | [], _ :: _ => -1
  | _ :: _, [] => 1
  | x :: a', y :: b' =>
      match N.compare x y with
      | Lt => -1
      | Gt => 1
      | Eq => compareUnits a' b'
      end
  end.

Definition isSchemeChar (c : char) : bool := isLowerAZ c || isUpperAZ c.
Definition isHostChar (c : char) : bool :=
  isLowerAZ c || isUpperAZ c || isDigit c || eqc c (ch "-") || eqc c (ch ".").

Fixpoint takeWhile (p : char -> bool) (s : jsstring) : jsstring :=
  match s with
  | [] => []
  | c :: s' => if p c then c :: takeWhile p s' else []
  end.

Definition parse (s : jsstring) : option URL :=
  let scheme := takeWhile isSchemeChar s in
  let rest := dropWhile isSchemeChar s in
  match scheme with
  | [] => None
  | _ =>
      if startsWith rest (str "://") then
        let authority := skipn 3 rest in
        let host := takeWhile isHostChar authority in
        match host, dropWhile isHostChar authority with
        | [], _ => None
        | _, [] => Some (mkURL (List.map lowerAZ scheme ++ str ":")
                           (List.map lowerAZ host))
        | _, c :: _ =>
            if eqc c (ch "/") || eqc c (ch "?") || eqc c (ch "#")
            then Some (mkURL (List.map lowerAZ scheme ++ str ":")
                         (List.map lowerAZ host))
            else None
        end
      else None
  end.

#[export] Instance runtime : Runtime := {
  toLowerCase := List.map lowerAZ;
  localeCompare := compareUnits;
  parseURL := parse
}.

End Reference.

(* ================================================================== *)
(** * Example records and upstreams *)
(* ================================================================== *)

Module Examples.
Import Reference.
Local Open Scope string_scope.

Definition obj (props : list (string * value)) : value :=
  VObj (List.map (fun kv => (str (fst kv), snd kv)) props).

Definition book (name link : string) : value :=
  obj [("link", VStr (str link)); ("metadata", obj [("name", VStr (str name))])].

(** a record whose name is three spaces *)
Definition blankName : value :=
  obj [("metadata", obj [("name", VStr (str "   "))])].

(** One page of the listing: status 200, the page count in
    [X-WP-TotalPages], the records as the body. *)
Definition listing (total : string) (records : list value) : response :=
  mkResponse 200
    (fun h => if eqs h (str "X-WP-TotalPages") then Some (str total) else None)
    (Ok (VArr records)) (Ok []).

Definition fetchFailed : error := TypeError (str "fetch failed").

(** An upstream that answers the listed pages and is unreachable for
    anything else. *)
Definition upstream (pages : list (Z * response)) : network :=
  fun url =>
    match find (fun pr => eqs url (booksUrl (fst pr))) pages with
    | Some (_, r) => Ok r
    | None => Throw fetchFailed
    end.

Definition algebra : value := book "Algebra" "https://algebra.pressbooks.tru.ca/".
Definition botany : value := book "Botany" "https://botany.pressbooks.tru.ca/".
Definition zoology : value := book "Zoology" "https://zoology.pressbooks.tru.ca/".
Definition algebra2 : value := book "Algebra" "https://algebra2.pressbooks.tru.ca/".
Definition sandbox : value := book "Field Notes" "https://sandbox1.pressbooks.tru.ca/".
(** the same slug and a junk title, but marked in Pressbooks *)
Definition listedSandbox : value :=
  obj [("link", VStr (str "https://sandbox1.pressbooks.tru.ca/"));
       ("metadata", obj [("name", VStr (str "Sandbox"));
                         ("inCatalog", VBool true)])].

(** nothing answers *)
Definition offline : network := upstream [].
(** page 1 of 2 answers, page 2 is unreachable *)
Definition page2Unreachable : network := upstream [(1%Z, listing "2" [algebra])].
(** page 1 of 2 answers, page 2 answers 404 *)
Definition page2Missing : network :=
  upstream [(1%Z, listing "2" [algebra]);
            (2%Z, mkResponse 404 (fun _ => None) (Ok VNull) (Ok []))].
(** three pages, the second one empty *)
Definition gap : network :=
  upstream [(1%Z, listing "3" [algebra]); (2%Z, listing "3" []);
            (3%Z, listing "3" [zoology])].
(** two pages, titles out of order and one title twice *)
Definition shuffled : network :=
  upstream [(1%Z, listing "2" [zoology; algebra]);
            (2%Z, listing "2" [botany; algebra2])].
(** a listing with no record *)
Definition nothingListed : network := upstream [(1%Z, listing "1" [])].
Definition blankListed : network := upstream [(1%Z, listing "1" [blankName])].

(** a site whose only page is a short HTML document *)
Definition shortPage : network :=
  fun url =>
    if eqs url (str "http://example.com/")
    then Ok (mkResponse 200
               (fun h => if eqs h (str "content-type")
                         then Some (str "text/html; charset=utf-8") else None)
               (Ok VNull) (Ok (str "<html><body><p>Hi</p></body></html>")))
    else Throw fetchFailed.

(** what the parallel handler answers for [shuffled] *)
Definition shuffledReply : list entry :=
  Eval vm_compute in
    match payload (sent (fst (Nova.books None 0 0 shuffled [0] Nova.startup))) with
    | Books l => l
    | _ => []
    end.

(** the cache after serving [nothingListed] at time 5, stored at time 7 *)
Definition emptyCache : Nova.cache :=
  snd (Nova.books None 5 7 nothingListed [] Nova.startup).

(** a cache filled at time 7 *)
Definition filledCache : Nova.cache := Nova.mkCache (Some shuffledReply) 7.

End Examples.

(* ================================================================== *)
(** * White space and words *)
(* ================================================================== *)

Module Text.

(** No two blanks (space or tab) in a row. *)
Definition NoBlankRun (s : jsstring) : Prop :=
  forall pre a b post,
    s = pre ++ a :: b :: post -> isBlank a = true -> isBlank b = true -> False.

(** the same, checked from the left *)
Fixpoint sparse (s : jsstring) : bool :=
  match s with
  | [] => true
  | _ :: t => (leading isBlank s <? 2) && sparse t
  end.

(** Neither the first nor the last code unit is white space. *)
Definition Trimmed (s : jsstring) : Prop :=
  (forall c t, s = c :: t -> isWhiteSpace c = false)
  /\ (forall t c, s = t ++ [c] -> isWhiteSpace c = false).

(** [s.split(/\s+/)]: the pieces between the maximal runs of white space,
    empty pieces at either end included.  [piece] is the piece being read,
    [inRun] tells whether the scan is inside a run of white space. *)
Fixpoint splitFrom (inRun : bool) (piece : jsstring) (s : jsstring)
  : list jsstring :=
  match s with
  | [] => [piece]
  | c :: t =>
      if isWhiteSpace c
      then if inRun then splitFrom true piece t
           else piece :: splitFrom true [] t
      else splitFrom false (piece ++ [c]) t
  end.

Definition splitWhiteSpace (s : jsstring) : list jsstring :=
  splitFrom false [] s.

(** [r] can only match where the subject starts with a code unit of
    class [p]. *)
Definition Opens (p : char -> bool) (r : regex) : Prop :=
  forall s, run r s <> [] -> exists c t, s = c :: t /\ p c = true.

Definition AMP : char := 38%N.

(** [pieces.filter(Boolean)] on strings *)
Definition nonEmpty (s : jsstring) : bool :=
  match s with [] => false | _ => true end.

End Text.
Import Text.

(* ================================================================== *)
(** * Filtering and shaping records, as a relation *)
(* ================================================================== *)

Module Shaping.
Section Shaping.

Context {RT : Runtime}.

(** The records are filtered and shaped without an error, and [es] are
    the entries, in the order of the records. *)
Definition shaped (showAll : bool) (records : list value) (es : list entry)
  : Prop :=
  exists kept,
    Nova.filterM (Nova.keep showAll) records = Ok kept
    /\ mapM parseBook kept = Ok es.

(** the pages [i], [i + 1], ..., [turns] of them *)
Definition pagesOf (i turns : nat) : list Z := List.map Z.of_nat (seq i turns).

(** page [q] answers with a success status and an array of records that
    is not empty *)
Definition answersWith (net : network) (q : Z) (records : list value) : Prop :=
  exists r,
    net (booksUrl q) = Ok r /\ ok r = true /\ json r = Ok (VArr records)
    /\ records <> [].

(** the number of pages the header of page 1 declares; 1 when the header
    is absent or does not parse *)
Definition declared (r1 : response) : Z :=
  match totalPagesOf r1 with
  | Some n => n
  | None => 1%Z
  end.

End Shaping.

(** [l1] is [l2] with some elements left out, the others in the same
    order. *)
Inductive Subsequence {A : Type} : list A -> list A -> Prop :=
| sub_nil : Subsequence [] []
| sub_skip x l1 l2 : Subsequence l1 l2 -> Subsequence l1 (x :: l2)
| sub_take x l1 l2 : Subsequence l1 l2 -> Subsequence (x :: l1) (x :: l2).

End Shaping.
Import Shaping.

(* ================================================================== *)
(** * [/api/generate]: the proxy to the Messages API *)
(* ================================================================== *)

Module Generate.

(** The body of the request to the Messages API,
    [JSON.stringify({ model, max_tokens, system, messages })].  A field
    that is [undefined] is left out by [JSON.stringify]; the servers that
    send no [system] field are modelled with [system := VUndefined]. *)
Record apiRequest : Type := mkApiRequest {
  model : value;
  max_tokens : value;
  system : value;
  messages : value
}.

(** [fetch('https://api.anthropic.com/v1/messages', { method: 'POST', ... })] *)
Definition api : Type := apiRequest -> result response.

(** [{ error: v }] or the body of the API's answer, passed on as it is *)
Inductive sentBody : Type :=
| ErrorMessage (v : value)
| Forwarded (body : value).

(** What becomes of the request: a reply, or an exception that leaves the
    [async] handler (the promise it returns rejects and no reply is
    sent). *)
Inductive outcome : Type :=
| Replied (code : Z) (b : sentBody)
| Escaped (e : error).

Record generated : Type := mkGenerated {
  result_ : outcome;
  calls : list apiRequest
}.

(** [[{ role: 'user', content: prompt }]] *)
Definition userMessages (prompt : jsstring) : value :=
  VArr [VObj [(str "role", VStr (str "user")); (str "content", VStr prompt)]].

Definition refuse (msg : jsstring) : outcome :=
  Replied 400 (ErrorMessage (VStr msg)).

(** [body?.error?.message || `Claude API returned HTTP ${status}`] *)
Definition apiError (r : response) (body : value) : sentBody :=
  ErrorMessage
    (or_ (getOpt (getOpt body (str "error")) (str "message"))
         (VStr (str "Claude API returned HTTP " ++ dec (status r)))).

(** What follows [await claudeResponse.json()] in every handler. *)
Definition passOn (r : response) (body : value) : outcome :=
  if negb (ok r) then Replied (status r) (apiError r body)
  else Replied 200 (Forwarded body).

(** [src/server.js], [src/nova/server.js] and the Companion server: the
    [fetch] is inside a [try] whose [catch] answers 502; [json()] is
    awaited after it, outside any [try]. *)
Definition relay (net : api) (req : apiRequest) : generated :=
  match net req with
  | Throw fetchErr =>
      mkGenerated
        (Replied 502
           (ErrorMessage
              (VStr (str "Could not reach Claude API: " ++ message fetchErr))))
        [req]
  | Ok claudeResponse =>
      match json claudeResponse with
      | Throw e => mkGenerated (Escaped e) [req]
      | Ok body => mkGenerated (passOn claudeResponse body) [req]
      end
  end.

(** The first server of [src/sylva/server.js]: [fetch] and [json()] are
    both inside the [try], whose [catch] answers 500 with the message of
    the error. *)
Definition relayGuarded (net : api) (req : apiRequest) : generated :=
  match (r <- net req ;; body <- json r ;; Ok (passOn r body)) with
  | Ok out => mkGenerated out [req]
  | Throw err =>
      mkGenerated (Replied 500 (ErrorMessage (VStr (message err)))) [req]
  end.

(** The two request formats of [src/server.js] and of the first server of
    [src/sylva/server.js]: a non-empty [prompt] string (legacy), or else
    [{ messages, system, model, max_tokens }].  [inl] is the reply sent
    at once, [inr] the request to forward; [Throw] is a [req.body] whose
    properties cannot be read. *)
Definition accept (tooLong : jsstring) (body : value)
  : result (outcome + apiRequest) :=
  p <- get body (str "prompt") ;;
  match p with
  | VStr (c :: s) =>
      let prompt := c :: s in
      if (50000 <? Z.of_nat (List.length prompt))%Z
      then Ok (inl (refuse tooLong))
      else Ok (inr {| messages := userMessages prompt;
                      system := VStr [];
                      model := VStr (str "claude-opus-4-5");
                      max_tokens := VNum 4096 |})
  | _ =>
      messages <- get body (str "messages") ;;
      system <- get body (str "system") ;;
      model <- get body (str "model") ;;
      max_tokens <- get body (str "max_tokens") ;;
      match messages with
      | VArr (_ :: _) =>
          Ok (inr {| messages := messages;
                     system := or_ system (VStr []);
                     model := or_ model (VStr (str "claude-opus-4-5"));
                     max_tokens := or_ max_tokens (VNum 2048) |})
      | _ =>
          Ok (inl (refuse
                     (str "Request body must contain a messages array or a prompt string.")))
      end
  end.

Definition handle (accepted : result (outcome + apiRequest))
    (forward : apiRequest -> generated) : generated :=
  match accepted with
  | Throw e => mkGenerated (Escaped e) []
  | Ok (inl reply) => mkGenerated reply []
  | Ok (inr req) => forward req
  end.

(** [src/server.js] *)
Definition root (body : value) (net : api) : generated :=
  handle
    (accept (str "Prompt exceeds maximum length. Shorten your OER content.") body)
    (relay net).

(** [src/sylva/server.js], first server *)
Definition suite (body : value) (net : api) : generated :=
  handle (accept (str "Prompt exceeds maximum length.") body)
    (relayGuarded net).

(** The prompt-only format of [src/nova/server.js] and of the Companion
    server, which differ in the length allowed, the message for a longer
    prompt and [max_tokens]. *)
Definition acceptPrompt (limit : Z) (tooLong : jsstring) (maxTokens : Z)
    (body : value) : result (outcome + apiRequest) :=
  p <- get body (str "prompt") ;;
  match p with
  | VStr (c :: s) =>
      let prompt := c :: s in
      if (limit <? Z.of_nat (List.length prompt))%Z
      then Ok (inl (refuse tooLong))
      else Ok (inr {| messages := userMessages prompt;
                      system := VUndefined;
                      model := VStr (str "claude-opus-4-6");
                      max_tokens := VNum maxTokens |})
  | _ =>
      Ok (inl (refuse (str "Request body must contain a " ++ [34%N]
                       ++ str "prompt" ++ [34%N] ++ str " string.")))
  end.

(** [src/nova/server.js] *)
Definition nova (body : value) (net : api) : generated :=
  handle
    (acceptPrompt 50000
       (str "Prompt exceeds maximum length. Shorten your OER content.")
       4096 body)
    (relay net).

(** [src/sylva/server.js], second server (Companion) *)
Definition companion (body : value) (net : api) : generated :=
  handle
    (acceptPrompt 60000
       (str "Prompt exceeds maximum length. Use a shorter passage or chapter.")
       1500 body)
    (relay net).


End Generate.

(* ================================================================== *)
(** * More example records, upstreams and requests *)
(* ================================================================== *)

Module MoreExamples.
Import Reference Examples.
Local Open Scope string_scope.

(** a chapter as the Pressbooks REST route returns it *)
Definition chapterRecord : value :=
  obj [("id", VNum 7);
       ("link", VStr (str "https://algebra.pressbooks.tru.ca/chapter/one/"));
       ("title", obj [("rendered", VStr (str "One &amp; only"))]);
       ("content",
        obj [("rendered", VStr (str "<h1>One</h1><p>Hello   world.</p>"))])].

Definition chapterShaped : chapterContent :=
  Eval vm_compute in
    match Content.shapeChapter chapterRecord with
    | Ok c => c
    | Throw _ => mkChapterContent VNull [] VNull 0 []
    end.

(** a table of contents: a part with a published and a draft chapter,
    and a part without chapters *)
Definition draftChapter : value :=
  obj [("id", VNum 12); ("title", VStr (str "Notes"));
       ("status", VStr (str "draft")); ("has_post_content", VBool true)].

Definition introChapter : value :=
  obj [("id", VNum 11); ("slug", VStr (str "intro"));
       ("status", VStr (str "publish")); ("has_post_content", VBool true);
       ("word_count", VNum 120)].

Definition partOne : value :=
  obj [("id", VNum 1); ("title", VStr (str "Part I"));
       ("chapters", VArr [introChapter; draftChapter])].

Definition tocRecord : value :=
  obj [("parts", VArr [partOne; obj [("id", VNum 2); ("chapters", VArr [])]])].

Definition tocShaped : list tocPart :=
  Eval vm_compute in
    match Content.simplifyToc tocRecord with
    | Ok parts => parts
    | Throw _ => []
    end.

Definition algebraUrl : jsstring := str "https://algebra.pressbooks.tru.ca".

(** the site of one book: its table of contents and chapter 7 *)
Definition bookSite : network :=
  fun url =>
    if eqs url (algebraUrl ++ str "/wp-json/pressbooks/v2/toc")%list
    then Ok (mkResponse 200 (fun _ => None) (Ok tocRecord) (Ok []))
    else if eqs url (algebraUrl ++ str "/wp-json/pressbooks/v2/chapters/7")%list
    then Ok (mkResponse 200 (fun _ => None) (Ok chapterRecord) (Ok []))
    else Throw fetchFailed.

(** the same site answering 503 to everything *)
Definition bookSiteDown : network :=
  fun _ => Ok (mkResponse 503 (fun _ => None) (Ok VNull) (Ok [])).

(** an unlisted record with the slug [sandbox1] and a number for a name *)
Definition numberNamed : value :=
  obj [("link", VStr (str "https://sandbox1.pressbooks.tru.ca/"));
       ("metadata", obj [("name", VNum 5)])].

(** a listing with [null] among the records *)
Definition nullListed : network := upstream [(1%Z, listing "1" [algebra; VNull])].

(** a listing with a junk record between two others *)
Definition mixed : network :=
  upstream [(1%Z, listing "1" [zoology; sandbox; algebra])].

(** the list a reply carries *)
Definition booksOf (h : handled) : list entry :=
  match payload (sent h) with
  | Books l => l
  | _ => []
  end.

(** what the sequential server answers for [mixed], with and without
    [?all=1] *)
Definition mixedAll : list entry :=
  Eval vm_compute in booksOf (Server.books (Some (str "1")) mixed).
Definition mixedFiltered : list entry :=
  Eval vm_compute in booksOf (Server.books None mixed).

Definition articleUrl : jsstring := str "https://example.org/post".

Definition articleHtml : jsstring :=
  str "<html><head><title> A post </title></head><body><p>A paragraph with enough words.</p></body></html>".

(** a site with one HTML page *)
Definition article : network :=
  fun url =>
    if eqs url articleUrl
    then Ok (mkResponse 200
               (fun h => if eqs h (str "content-type")
                         then Some (str "text/html; charset=utf-8") else None)
               (Ok VNull) (Ok articleHtml))
    else Throw fetchFailed.

(** a site that does not answer in time *)
Definition stalled : network := fun _ => Throw FetchUrl.AbortError.

(** a request body in the legacy format, with fields of the other format
    beside the prompt *)
Definition promptBody : value :=
  obj [("prompt", VStr (str "Hi")); ("messages", VArr []);
       ("max_tokens", VNum 10)].

Definition overloadedAnswer : response :=
  mkResponse 529 (fun _ => None)
    (Ok (obj [("error", obj [("message", VStr (str "Overloaded"))])])) (Ok []).

(** an API that answers every call with status 529 and an error body *)
Definition overloaded : Generate.api := fun _ => Ok overloadedAnswer.


Definition unreachable : Generate.api := fun _ => Throw fetchFailed.

End MoreExamples.

(* ================================================================== *)
(** * Properties of the pattern matcher *)
(* ================================================================== *)

Module RegexFacts.

(** Every way a pattern matches leaves a suffix of the subject. *)
Lemma star_greedy_suffix p s rest :
  In rest (star_greedy p s) -> exists pre, s = pre ++ rest.
Proof.
  induction s as [|c s IH]; simpl.
  - intros [<-|[]]. now exists [].
  - destruct (p c).
    + intros H. apply in_app_or in H. destruct H as [H|[<-|[]]].
      * destruct (IH H) as [pre ->]. now exists (c :: pre).
      * now exists [].
    + intros [<-|[]]. now exists [].
Qed.

Lemma star_lazy_suffix p s rest :
  In rest (star_lazy p s) -> exists pre, s = pre ++ rest.
Proof.
  induction s as [|c s IH]; simpl.
  - intros [<-|[]]. now exists [].
  - destruct (p c).
    + intros [<-|H]; [now exists []|].
      destruct (IH H) as [pre ->]. now exists (c :: pre).
    + intros [<-|[]]. now exists [].
Qed.

Lemma times_suffix n p : forall s rest,
  times n p s = Some rest -> exists pre, s = pre ++ rest /\ List.length pre = n.
Proof.
  induction n as [|n IH]; simpl; intros s rest H.
  - injection H as <-. now exists [].
  - destruct s as [|c s]; [discriminate|].
    destruct (p c); [|discriminate].
    apply IH in H. destruct H as (pre & -> & Hl). exists (c :: pre). simpl. now rewrite Hl.
Qed.

Lemma run_suffix r : forall s rest,
  In rest (run r s) -> exists pre, s = pre ++ rest.
Proof.
  induction r as [|p|r1 IH1 r2 IH2|r1 IH1 r2 IH2|g n p]; simpl; intros s rest H.
  - destruct H as [<-|[]]. now exists [].
  - destruct s as [|c s]; [easy|]. destruct (p c); [|easy].
    destruct H as [<-|[]]. now exists [c].
  - apply in_flat_map in H. destruct H as (mid & H1 & H2).
    apply IH1 in H1. destruct H1 as [pre1 ->]. apply IH2 in H2. destruct H2 as [pre2 ->].
    exists (pre1 ++ pre2). now rewrite app_assoc.
  - apply in_app_or in H. destruct H as [H|H]; eauto.
  - destruct (times n p s) as [s'|] eqn:E; [|easy].
    apply times_suffix in E. destruct E as (pre & -> & _).
    destruct g; [apply star_greedy_suffix in H|apply star_lazy_suffix in H];
      destruct H as [pre' ->]; exists (pre ++ pre'); now rewrite app_assoc.
Qed.

Lemma matchHere_suffix r s rest :
  matchHere r s = Some rest -> exists pre, s = pre ++ rest.
Proof.
  unfold matchHere. intros H. apply run_suffix with (r := r).
  destruct (run r s); [discriminate|]. injection H as ->. now left.
Qed.

(** Dropping the rest of a match is the same as resuming after it. *)
Lemma replaceFrom_skip r by_ : forall k s,
  k <= List.length s ->
  replaceFrom r by_ k s = replaceFrom r by_ 0 (skipn k s).
Proof.
  induction k as [|k IH]; intros s Hk.
  - reflexivity.
  - destruct s as [|c s]; simpl in Hk; [lia|].
    simpl. apply IH. lia.
Qed.

Lemma replaceAll_nil r by_ :
  matchHere r [] = None -> replaceAll r by_ [] = [].
Proof. unfold replaceAll. simpl. now intros ->. Qed.

Lemma replaceAll_miss r by_ c s :
  matchHere r (c :: s) = None ->
  replaceAll r by_ (c :: s) = c :: replaceAll r by_ s.
Proof. unfold replaceAll. simpl. now intros ->. Qed.

Lemma replaceAll_hit r by_ c s rest :
  matchHere r (c :: s) = Some rest ->
  List.length rest < List.length (c :: s) ->
  replaceAll r by_ (c :: s) = by_ ++ replaceAll r by_ rest.
Proof.
  intros H Hlen. unfold replaceAll. cbn [replaceFrom]. rewrite H.
  destruct (matchHere_suffix _ _ H) as [pre Hs].
  destruct (List.length (c :: s) - List.length rest) as [|k] eqn:E; [lia|].
  assert (Hp : List.length pre = S k).
  { rewrite Hs in E. rewrite length_app in E. lia. }
  assert (Hk : k <= List.length s).
  { change (List.length (c :: s)) with (S (List.length s)) in E. lia. }
  f_equal. rewrite replaceFrom_skip by exact Hk. f_equal.
  destruct pre as [|c' pre]; [discriminate|].
  simpl in Hs. injection Hs as -> ->. simpl in Hp. injection Hp as <-.
  rewrite skipn_app, skipn_all, Nat.sub_diag. reflexivity.
Qed.

Lemma times_leading n p : forall s,
  times n p s = if n <=? leading p s then Some (skipn n s) else None.
Proof.
  induction n as [|n IH]; intros [|c s]; simpl; try reflexivity.
  destruct (p c); [|reflexivity]. apply IH.
Qed.

Lemma star_greedy_head p s :
  exists l, star_greedy p s = dropWhile p s :: l
            /\ Forall (fun x => exists c x', x = c :: x' /\ p c = true) l.
Proof.
  induction s as [|c s (l & IH & Hl)]; simpl.
  - exists []. split; [reflexivity|constructor].
  - destruct (p c) eqn:E.
    + exists (l ++ [c :: s]). rewrite IH. split; [reflexivity|].
      apply Forall_app. split; [exact Hl|]. constructor; [|constructor]. eauto.
    + exists []. split; [reflexivity|constructor].
Qed.

Lemma dropWhile_skipn p : forall n s,
  n <= leading p s -> dropWhile p (skipn n s) = dropWhile p s.
Proof.
  induction n as [|n IH]; intros [|c s]; simpl; try reflexivity; try lia.
  destruct (p c); [|lia]. intros H. apply IH. lia.
Qed.

Lemma matchHere_rep n p s :
  matchHere (Rep true n p) s =
  if n <=? leading p s then Some (dropWhile p s) else None.
Proof.
  unfold matchHere. simpl. rewrite times_leading.
  destruct (Nat.leb_spec n (leading p s)) as [H|H]; [|reflexivity].
  destruct (star_greedy_head p (skipn n s)) as (l & -> & _). simpl.
  now rewrite dropWhile_skipn.
Qed.

Lemma dropWhile_length p s : List.length (dropWhile p s) <= List.length s.
Proof.
  induction s as [|c s IH]; simpl; [lia|]. destruct (p c); simpl; lia.
Qed.

Lemma leading_dropWhile p s : leading p (dropWhile p s) = 0.
Proof.
  induction s as [|c s IH]; simpl; [reflexivity|].
  destruct (p c) eqn:E; [exact IH|]. simpl. now rewrite E.
Qed.

Lemma dropWhile_short p s :
  0 < leading p s -> List.length (dropWhile p s) < List.length s.
Proof.
  destruct s as [|c s]; simpl; [lia|]. destruct (p c); [|lia].
  intros _. pose proof (dropWhile_length p s). lia.
Qed.

End RegexFacts.

(* ================================================================== *)
(** * Properties of the text extractor *)
(* ================================================================== *)

Module HtmlFacts.
Import RegexFacts.

Lemma squeeze_calm : forall n s, List.length s <= n ->
  calm (squeeze s) = true
  /\ leading (eqc LF) (squeeze s) = Nat.min (leading (eqc LF) s) 2.
Proof.
  induction n as [|n IH]; intros s Hn.
  - destruct s; [|simpl in Hn; lia]. now compute.
  - destruct s as [|c s]; [now compute|].
    unfold squeeze. pose proof (matchHere_rep 3 (eqc LF) (c :: s)) as M.
    fold re_newlines in M.
    destruct (Nat.leb_spec 3 (leading (eqc LF) (c :: s))) as [H|H].
    + rewrite (@replaceAll_hit _ _ _ _ _ M).
      2:{ apply dropWhile_short. lia. }
      pose proof (@dropWhile_short (eqc LF) (c :: s)) as Hs.
      pose proof (leading_dropWhile (eqc LF) (c :: s)) as Hz.
      remember (dropWhile (eqc LF) (c :: s)) as rest eqn:Er. clear Er M.
      fold (squeeze rest).
      destruct (IH rest) as [C L].
      { change (List.length (c :: s)) with (S (List.length s)) in *. lia. }
      rewrite Hz in L. clear Hs Hz.
      remember (leading (eqc LF) (c :: s)) as k eqn:Ek. clear Ek.
      cbn [app calm leading]. change (eqc LF LF) with true. cbn iota.
      rewrite L, C. split; [reflexivity|]. simpl. lia.
    + rewrite (@replaceAll_miss _ _ _ _ M). fold (squeeze s).
      destruct (IH s) as [C L]; [simpl in Hn; lia|].
      cbn [calm leading] in *. destruct (eqc LF c) eqn:E.
      * rewrite L, C. assert (leading (eqc LF) s < 2) by lia.
        rewrite Nat.min_l by lia. split; [|lia].
        apply andb_true_iff. split; [apply Nat.ltb_lt; lia|reflexivity].
      * rewrite C. split; reflexivity.
Qed.

Lemma calm_tail c s : calm (c :: s) = true -> calm s = true.
Proof. cbn [calm]. intros H. now apply andb_true_iff in H. Qed.

Lemma calm_dropWhile p s : calm s = true -> calm (dropWhile p s) = true.
Proof.
  induction s as [|c s IH]; [easy|]. intros H. simpl.
  destruct (p c); [|exact H]. apply IH. now apply calm_tail in H.
Qed.

Lemma blank_not_LF c : isBlank c = true -> eqc LF c = false.
Proof.
  unfold isBlank, eqc. intros H. apply orb_true_iff in H.
  destruct H as [H|H]; apply N.eqb_eq in H; now subst.
Qed.

Lemma unblank_calm : forall n s, List.length s <= n ->
  calm s = true ->
  calm (unblank s) = true
  /\ leading (eqc LF) (unblank s) = leading (eqc LF) s.
Proof.
  induction n as [|n IH]; intros s Hn Hc.
  - destruct s; [|simpl in Hn; lia]. now compute.
  - destruct s as [|c s]; [now compute|].
    unfold unblank. pose proof (matchHere_rep 2 isBlank (c :: s)) as M.
    fold re_blanks in M.
    destruct (Nat.leb_spec 2 (leading isBlank (c :: s))) as [H|H].
    + rewrite (@replaceAll_hit _ _ _ _ _ M).
      2:{ apply dropWhile_short. lia. }
      pose proof (@dropWhile_short isBlank (c :: s)) as Hs.
      pose proof (calm_dropWhile isBlank _ Hc) as Hd.
      assert (Hb : eqc LF c = false).
      { apply blank_not_LF. simpl in H. destruct (isBlank c); [reflexivity|lia]. }
      remember (dropWhile isBlank (c :: s)) as rest eqn:Er. clear Er M.
      fold (unblank rest).
      destruct (IH rest) as [C _]; [|exact Hd|].
      { change (List.length (c :: s)) with (S (List.length s)) in *. lia. }
      cbn [app calm leading]. change (eqc LF 32%N) with false. cbn iota.
      rewrite Hb, C. split; reflexivity.
    + rewrite (@replaceAll_miss _ _ _ _ M). fold (unblank s).
      destruct (IH s) as [C L]; [simpl in Hn; lia|now apply calm_tail in Hc|].
      cbn [calm leading] in *. rewrite L, C.
      split; [|reflexivity]. apply andb_true_iff in Hc. destruct Hc as [Hc _].
      now rewrite Hc.
Qed.

Lemma calm_sound s : calm s = true -> NoNewlineRun s.
Proof.
  intros H pre. revert s H.
  induction pre as [|c pre IH]; intros s H post ->.
  - discriminate H.
  - apply calm_tail in H. now apply (IH _ H post).
Qed.

(** [trim] keeps a contiguous piece of its argument. *)
Lemma dropWhile_piece p s : exists a, s = a ++ dropWhile p s.
Proof.
  induction s as [|c s [a IH]]; simpl.
  - now exists [].
  - destruct (p c); [|now exists []]. exists (c :: a). simpl. now f_equal.
Qed.

Lemma trim_piece s : exists a b, s = a ++ trim s ++ b.
Proof.
  unfold trim, trimEnd, trimStart.
  destruct (dropWhile_piece isWhiteSpace s) as [a Ha].
  destruct (dropWhile_piece isWhiteSpace (rev (dropWhile isWhiteSpace s))) as [b Hb].
  exists a, (rev b). rewrite <- rev_app_distr, <- Hb, rev_involutive. exact Ha.
Qed.

Lemma NoNewlineRun_piece a s b : NoNewlineRun (a ++ s ++ b) -> NoNewlineRun s.
Proof.
  intros H pre post ->. apply (H (a ++ pre) (post ++ b)).
  now rewrite <- !app_assoc.
Qed.

Lemma tidy_no_newline_run s : NoNewlineRun (tidy s).
Proof.
  unfold tidy. fold (squeeze s). fold (unblank (squeeze s)).
  destruct (trim_piece (unblank (squeeze s))) as (a & b & E).
  apply NoNewlineRun_piece with (a := a) (b := b). rewrite <- E.
  apply calm_sound.
  destruct (@squeeze_calm _ s (le_n _)) as [C _].
  now destruct (@unblank_calm _ (squeeze s) (le_n _) C).
Qed.

Lemma dropWhile_stops p s c rest :
  dropWhile p s = c :: rest -> p c = false.
Proof.
  induction s as [|x s IH]; simpl; [discriminate|].
  destruct (p x) eqn:E; [exact IH|]. intros H. injection H as -> _. exact E.
Qed.

Lemma notc_false c x : notc c x = false -> x = c.
Proof.
  unfold notc, eqc. intros H. apply negb_false_iff in H. now apply N.eqb_eq in H.
Qed.

Lemma flat_map_fail (f : jsstring -> list jsstring) l :
  Forall (fun x => f x = []) l -> flat_map f l = [].
Proof.
  induction 1 as [|x l Hx _ IH]; simpl; [reflexivity|]. now rewrite Hx, IH.
Qed.

Lemma matchHere_tag s : matchHere re_tag s = tagRest s.
Proof.
  unfold matchHere, re_tag, tagRest. cbn [run one].
  destruct s as [|c s]; [reflexivity|].
  destruct (eqc LT c); cbn [flat_map andb]; [|now destruct s].
  rewrite app_nil_r.
  destruct s as [|c' t]; [reflexivity|]. cbn [times].
  destruct (notc GT c') eqn:E; [|reflexivity].
  destruct (star_greedy_head (notc GT) t) as (l & -> & Hl). cbn [flat_map].
  rewrite flat_map_fail.
  2:{ eapply Forall_impl; [|exact Hl]. intros x (a & x' & -> & Ha). cbn [run].
      unfold notc in Ha. apply negb_true_iff in Ha. unfold eqc in *.
      now rewrite N.eqb_sym, Ha. }
  rewrite app_nil_r.
  destruct (dropWhile (notc GT) t) as [|g rest] eqn:D; [reflexivity|].
  apply dropWhile_stops in D. apply notc_false in D. subst g. reflexivity.
Qed.

Lemma tagRest_short s rest :
  tagRest s = Some rest -> List.length rest < List.length s.
Proof.
  destruct s as [|c [|c' t]]; try discriminate. cbn [tagRest].
  destruct (eqc LT c && notc GT c'); [|discriminate].
  pose proof (dropWhile_length (notc GT) t) as H.
  destruct (dropWhile (notc GT) t); [discriminate|].
  intros E. injection E as <-. simpl in *. lia.
Qed.

(** Deleting matches adds no code unit. *)
Lemma replaceFrom_delete_sub r x : forall s k,
  In x (replaceFrom r [] k s) -> In x s.
Proof.
  induction s as [|c s IH]; intros k; cbn [replaceFrom].
  - destruct k; [destruct (matchHere r [])|]; easy.
  - destruct k as [|k].
    + destruct (matchHere r (c :: s)) as [rest|].
      * destruct (List.length (c :: s) - List.length rest); cbn [app].
        -- intros [->|H]; [now left|right; eauto].
        -- intros H. right. eauto.
      * intros [->|H]; [now left|right; eauto].
    + intros H. right. eauto.
Qed.

Lemma dropWhile_nil p s : dropWhile p s = [] -> Forall (fun c => p c = true) s.
Proof.
  induction s as [|c s IH]; simpl; [constructor|].
  destruct (p c) eqn:E; [|discriminate]. intros H. constructor; auto.
Qed.

Lemma dropWhile_all p s : Forall (fun c => p c = true) s -> dropWhile p s = [].
Proof.
  induction 1 as [|c s Hc _ IH]; simpl; [reflexivity|]. now rewrite Hc.
Qed.

Lemma untag_miss c s :
  tagRest (c :: s) = None -> untag (c :: s) = c :: untag s.
Proof. intros H. apply replaceAll_miss. now rewrite matchHere_tag. Qed.

Lemma untag_hit c s rest :
  tagRest (c :: s) = Some rest -> untag (c :: s) = untag rest.
Proof.
  intros H. unfold untag. rewrite (@replaceAll_hit re_tag [] c s rest).
  - reflexivity.
  - now rewrite matchHere_tag.
  - now apply tagRest_short.
Qed.

Lemma untag_all p s :
  Forall (fun c => p c = true) s -> Forall (fun c => p c = true) (untag s).
Proof.
  intros H. apply Forall_forall. intros x Hx.
  apply replaceFrom_delete_sub in Hx. revert x Hx. now apply Forall_forall.
Qed.

Lemma tagRest_untag c s :
  tagRest (c :: s) = None -> tagRest (c :: untag s) = None.
Proof.
  destruct (eqc LT c) eqn:E.
  2:{ intros _. unfold tagRest. rewrite E. now destruct (untag s). }
  destruct s as [|c' t]; [reflexivity|].
  destruct (notc GT c') eqn:E'.
  - intros H. cbn [tagRest] in H. rewrite E, E' in H. cbn [andb] in H.
    destruct (dropWhile (notc GT) t) eqn:D; [|discriminate]. clear H.
    assert (A : Forall (fun x => notc GT x = true) (c' :: t)).
    { constructor; [exact E'|now apply dropWhile_nil]. }
    apply untag_all in A. destruct (untag (c' :: t)) as [|y u]; [reflexivity|].
    inversion A as [|? ? Hy Hu]; subst.
    cbn [tagRest]. rewrite E, Hy. cbn [andb]. now rewrite (@dropWhile_all _ _ Hu).
  - intros _. rewrite untag_miss.
    + cbn [tagRest]. rewrite E'. now rewrite andb_false_r.
    + cbn [tagRest]. apply notc_false in E'. subst c'. now destruct t.
Qed.

Lemma untag_noTag : forall n s, List.length s <= n -> noTag (untag s) = true.
Proof.
  induction n as [|n IH]; intros s Hn.
  - destruct s; [reflexivity|simpl in Hn; lia].
  - destruct s as [|c s]; [reflexivity|].
    destruct (tagRest (c :: s)) as [rest|] eqn:E.
    + rewrite (@untag_hit _ _ _ E). apply IH. apply tagRest_short in E.
      change (List.length (c :: s)) with (S (List.length s)) in *. lia.
    + rewrite (@untag_miss _ _ E). cbn [noTag]. rewrite (@tagRest_untag _ _ E).
      apply IH. simpl in Hn. lia.
Qed.

Lemma noTag_sound s : noTag s = true -> TagFree s.
Proof.
  intros H pre. revert s H.
  induction pre as [|c pre IH]; intros s H mid post -> Hmid.
  - destruct mid as [|m mid]; [easy|]. cbn [app noTag tagRest] in H.
    change (eqc LT LT) with true in H. cbn [andb] in H.
    destruct (notc GT m) eqn:E.
    + exfalso. destruct (dropWhile (notc GT) (mid ++ GT :: post)) eqn:D;
        [|discriminate].
      apply dropWhile_nil in D. apply Forall_app in D. destruct D as [_ D].
      inversion D as [|? ? Hg _]. discriminate Hg.
    + left. now apply notc_false.
  - cbn [app noTag] in H.
    destruct (tagRest _); [discriminate|].
    now apply (IH _ H mid post).
Qed.

Lemma stripMarkup_tag_free html : TagFree (stripMarkup html).
Proof.
  unfold stripMarkup. apply noTag_sound.
  exact (@untag_noTag _ _ (le_n _)).
Qed.

(** C1, as amended.  For every input, the output of [htmlToPlainText]
    contains no run of three or more line feeds, and the text left by the
    tag-stripping step, from which the output is made by decoding the
    entities and tidying the white space, contains no tag.  (The output
    itself can contain [<] and [>], which the entities [&lt;] and [&gt;]
    bring back.) *)
Theorem htmlToPlainText_newlines_and_tags html :
  NoNewlineRun (htmlToPlainText html)
  /\ TagFree (stripMarkup html)
  /\ htmlToPlainText html = tidy (decodeEntities (stripMarkup html)).
Proof.
  split; [apply tidy_no_newline_run|]. split; [apply stripMarkup_tag_free|].
  reflexivity.
Qed.

End HtmlFacts.

(* ================================================================== *)
(** * Properties of sorting *)
(* ================================================================== *)

Module SortFacts.
Section SortFacts.

Variable A : Type.
Variable cmp : A -> A -> Z.

Lemma insert_perm x l : Permutation (Sort.insert cmp x l) (x :: l).
Proof.
  induction l as [|y l IH]; simpl; [reflexivity|].
  destruct (0 <? cmp x y)%Z; [|reflexivity].
  rewrite IH. apply perm_swap.
Qed.

Lemma sort_perm l : Permutation (Sort.sort cmp l) l.
Proof.
  induction l as [|x l IH]; simpl; [reflexivity|].
  rewrite insert_perm. now constructor.
Qed.

Hypothesis consistent : Sort.Consistent cmp.

Lemma insert_sorted x l :
  StronglySorted (Sort.le cmp) l -> StronglySorted (Sort.le cmp) (Sort.insert cmp x l).
Proof.
  destruct consistent as [anti trans].
  induction 1 as [|y l Hl IH Hy]; simpl.
  - repeat constructor.
  - destruct (Z.ltb_spec 0 (cmp x y)) as [H|H].
    + constructor; [exact IH|].
      apply Forall_forall. intros z Hz.
      apply (Permutation_in _ (insert_perm x l)) in Hz.
      destruct Hz as [<-|Hz].
      * unfold Sort.le. specialize (anti _ _ H). lia.
      * revert z Hz. now apply Forall_forall.
    + constructor; [now constructor|].
      constructor; [exact H|].
      eapply Forall_impl; [|exact Hy]. intros z Hz. now apply trans with y.
Qed.

Lemma sort_sorted l : StronglySorted (Sort.le cmp) (Sort.sort cmp l).
Proof.
  induction l as [|x l IH]; simpl; [constructor|]. now apply insert_sorted.
Qed.




End SortFacts.
End SortFacts.

(* ================================================================== *)
(** * Properties of strings, exceptions and promises *)
(* ================================================================== *)

Module StringFacts.

Lemma eqs_eq a b : eqs a b = true <-> a = b.
Proof.
  revert b. induction a as [|x a IH]; intros [|y b]; cbn [eqs];
    try (split; [discriminate|discriminate]); [tauto|].
  rewrite andb_true_iff, IH. unfold eqc. rewrite N.eqb_eq.
  split; [intros [-> ->]; reflexivity|intros H; injection H; auto].
Qed.

Lemma startsWith_spec s p :
  startsWith s p = true <-> exists rest, s = p ++ rest.
Proof.
  revert s. induction p as [|x p IH]; intros [|y s]; cbn [startsWith].
  - split; [intros _; now exists []|reflexivity].
  - split; [intros _; now exists (y :: s)|reflexivity].
  - split; [discriminate|]. intros [rest H]. discriminate.
  - rewrite andb_true_iff, IH. unfold eqc. rewrite N.eqb_eq. split.
    + intros [-> [rest ->]]. now exists rest.
    + intros [rest H]. injection H as -> ->. eauto.
Qed.

Lemma endsWith_spec s p :
  endsWith s p = true <-> exists front, s = front ++ p.
Proof.
  unfold endsWith. rewrite startsWith_spec. split.
  - intros [rest H]. exists (rev rest).
    rewrite <- (rev_involutive s), H, rev_app_distr, rev_involutive.
    reflexivity.
  - intros [front ->]. exists (rev front). apply rev_app_distr.
Qed.

Lemma includes_spec s k :
  includes s k = true <-> exists pre post, s = pre ++ k ++ post.
Proof.
  induction s as [|c s IH]; cbn [includes].
  - rewrite orb_false_r, startsWith_spec. split.
    + intros [rest H]. now exists [], rest.
    + intros (pre & post & H). destruct pre as [|x pre]; [|discriminate].
      now exists post.
  - rewrite orb_true_iff, startsWith_spec, IH. split.
    + intros [[rest H]|(pre & post & ->)].
      * now exists [], rest.
      * now exists (c :: pre), post.
    + intros (pre & post & H). destruct pre as [|x pre].
      * left. now exists post.
      * right. injection H as -> ->. now exists pre, post.
Qed.

Lemma run_lit p rest : run (lit p) (p ++ rest) = [rest].
Proof.
  induction p as [|c p IH]; [reflexivity|].
  cbn [lit run app one]. unfold eqc at 1. rewrite N.eqb_refl.
  cbn [flat_map]. rewrite IH. reflexivity.
Qed.

Lemma testAnchored_lit p rest : testAnchored (lit p) (p ++ rest) = true.
Proof. unfold testAnchored, matchHere. now rewrite run_lit. Qed.

End StringFacts.

Module MonadFacts.

Lemma mapM_map {A B C} (f : B -> result C) (g : A -> B) l :
  mapM f (List.map g l) = mapM (fun a => f (g a)) l.
Proof.
  induction l as [|a l IH]; [reflexivity|]. cbn [List.map mapM]. now rewrite IH.
Qed.

Lemma mapM_throws {A B} (f : A -> result B) l p e :
  In p l -> f p = Throw e ->
  exists p' e', In p' l /\ f p' = Throw e' /\ mapM f l = Throw e'.
Proof.
  induction l as [|a l IH]; [easy|]. intros Hin Hp. cbn [mapM].
  destruct (f a) as [b|e0] eqn:Ea.
  - destruct Hin as [->|Hin]; [congruence|].
    destruct (IH Hin Hp) as (p' & e' & Hin' & Hp' & ->).
    exists p', e'. cbn. auto using in_cons.
  - exists a, e0. cbn. auto using in_eq.
Qed.

Lemma mapM_ok_all {A B} (f : A -> result B) l bs :
  mapM f l = Ok bs -> forall a, In a l -> exists b, f a = Ok b.
Proof.
  revert bs. induction l as [|x l IH]; [easy|]. intros bs H a Hin.
  cbn [mapM] in H. destruct (f x) as [b|] eqn:Ex; [|discriminate].
  cbn [bind] in H. destruct (mapM f l) as [bs'|]; [|discriminate].
  destruct Hin as [<-|Hin]; eauto.
Qed.

End MonadFacts.

Module PromiseFacts.
Import Nova MonadFacts.

Lemma firstRejected_in {A B} (f : A -> result B) l settled e :
  firstRejected (List.map f l) settled = Some e ->
  exists p, In p l /\ f p = Throw e.
Proof.
  induction settled as [|i settled IH]; [discriminate|]. cbn [firstRejected].
  destruct (nth_error (List.map f l) i) as [[b|e0]|] eqn:E; try exact IH.
  intros H. injection H as ->. apply nth_error_In in E.
  apply in_map_iff in E. destruct E as (p & Hp & Hin). eauto.
Qed.

Lemma firstRejected_none {A B} (f : A -> result B) l settled :
  (forall a, In a l -> exists b, f a = Ok b) ->
  firstRejected (List.map f l) settled = None.
Proof.
  intros H. induction settled as [|i settled IH]; [reflexivity|].
  cbn [firstRejected].
  destruct (nth_error (List.map f l) i) as [[b|e0]|] eqn:E; try exact IH.
  apply nth_error_In in E. apply in_map_iff in E.
  destruct E as (p & Hp & Hin). destruct (H _ Hin). congruence.
Qed.

(** If one of the promises rejects, [Promise.all] rejects, with the error
    of a promise that rejected. *)
Lemma promiseAll_rejects {A B} (f : A -> result B) l settled p e :
  In p l -> f p = Throw e ->
  exists p' e', In p' l /\ f p' = Throw e'
                /\ promiseAll (List.map f l) settled = Throw e'.
Proof.
  intros Hin Hp. unfold promiseAll.
  destruct (firstRejected (List.map f l) settled) as [e'|] eqn:E.
  - apply firstRejected_in in E. destruct E as (p' & Hin' & Hp'). eauto.
  - rewrite mapM_map. now apply mapM_throws with p e.
Qed.

(** If [Promise.all] fulfils, every promise did, and the values do not
    depend on the order of settlement. *)
Lemma promiseAll_fulfils {A B} (f : A -> result B) l settled vs :
  promiseAll (List.map f l) settled = Ok vs ->
  mapM f l = Ok vs
  /\ forall settled', promiseAll (List.map f l) settled' = Ok vs.
Proof.
  unfold promiseAll.
  destruct (firstRejected (List.map f l) settled); [discriminate|].
  rewrite mapM_map. intros H. split; [exact H|]. intros settled'.
  rewrite firstRejected_none; [exact H|].
  now apply mapM_ok_all with vs.
Qed.

End PromiseFacts.

(* ================================================================== *)
(** * Properties of the junk filter and of entry construction *)
(* ================================================================== *)

Module CatalogueFacts.
Section CatalogueFacts.

Context {RT : Runtime}.

(** one more step of a computation known to return *)
Ltac step H :=
  match type of H with
  | bind ?m _ = _ =>
      let E := fresh "E" in
      destruct m eqn:E; cbn [bind] in H |- *; [|discriminate H]
  end.

(** C3, as amended.  A record whose explicit-inclusion flag
    [metadata.inCatalog] is [true] is never junk, whatever its title and
    slug.  For a record whose flag is not [true] and whose derived
    lower-case slug contains [sandbox], what [isJunkBook] does depends on
    [metadata.name], which it lower-cases before it looks at the slug:
    when the name is a string or is falsy (absent, [null], the empty
    string, 0, [false]) the record is junk; when it is any other value
    the call throws a [TypeError] and returns nothing. *)
Theorem isJunkBook_flag_then_keywords (b : value) :
  (flagOf b = Ok true -> isJunkBook b = Ok false)
  /\ (forall slug before after,
        flagOf b = Ok false ->
        slugOf b = Ok slug ->
        slug = before ++ str "sandbox" ++ after ->
        exists mn,
          nameOf b = Ok mn
          /\ ((exists s, mn = VStr s) \/ truthy mn = false ->
              isJunkBook b = Ok true)
          /\ ((forall s, mn <> VStr s) -> truthy mn = true ->
              exists e,
                isJunkBook b = Throw e /\ name e = str "TypeError")).
Proof.
  unfold flagOf, slugOf, nameOf, isJunkBook. split.
  - intros H. step H. step H. injection H as H. now rewrite H.
  - intros slug before after Hf Hs Hin.
    assert (includes slug (str "sandbox") = true) as Hin'
      by (apply StringFacts.includes_spec; eauto).
    clear Hin. rename Hin' into Hin.
    destruct (metadataOf b) as [meta|] eqn:Em; cbn [bind] in *; [|discriminate].
    destruct (get meta (str "inCatalog")) as [flag|]; cbn [bind] in *;
      [|discriminate].
    injection Hf as ->.
    destruct (get b (str "link")) as [bl|]; cbn [bind] in *; [|discriminate].
    destruct (lowered bl) as [link|]; cbn [bind] in *; [|discriminate].
    injection Hs as <-.
    assert (exists mn, get meta (str "name") = Ok mn) as [mn Hmn].
    { unfold metadataOf in Em. destruct (get b (str "metadata")) as [m|];
        cbn [bind] in Em; [|discriminate]. injection Em as <-.
      unfold or_. destruct (truthy m) eqn:Et; [|cbn; eauto].
      destruct m; cbn in Et |- *; try discriminate Et; eauto. }
    rewrite Hmn. cbn [bind]. exists mn. split; [reflexivity|].
    unfold lowered, or_. split.
    + intros Hname.
      assert (exists s, asString (str "toLowerCase")
                          (if truthy mn then mn else VStr []) = Ok s)
        as [s ->].
      { destruct Hname as [[s ->]|Hf]; [|rewrite Hf; cbn; eauto].
        destruct (truthy (VStr s)); cbn; eauto. }
      cbn [bind]. unfold JUNK_SLUG_KEYWORDS. cbn [List.map existsb].
      now rewrite Hin.
    + intros Hns Ht. rewrite Ht.
      destruct mn as [| |v|n|s| | |]; try discriminate Ht;
        try (eexists; split; reflexivity).
      now destruct (Hns s).
Qed.

Lemma parseBook_title b e :
  parseBook b = Ok e ->
  exists meta mn bt t,
    metadataOf b = Ok meta
    /\ get meta (str "name") = Ok mn
    /\ get b (str "title") = Ok bt
    /\ or_ (or_ mn bt) (VStr (str "Untitled")) = VStr t
    /\ title e = trim t.
Proof.
  unfold parseBook. intros H.
  destruct (metadataOf b) as [meta|]; cbn [bind] in H; [|discriminate].
  destruct (get meta (str "name")) as [mn|] eqn:En; cbn [bind] in H;
    [|discriminate].
  destruct (get b (str "title")) as [bt|] eqn:Eb; cbn [bind] in H;
    [|discriminate].
  destruct (get meta (str "author")) as [ma|]; cbn [bind] in H; [|discriminate].
  destruct (names _) as [au|]; cbn [bind] in H; [|discriminate].
  destruct (get meta (str "license")) as [ml|]; cbn [bind] in H; [|discriminate].
  destruct (get meta (str "about")) as [mab|]; cbn [bind] in H; [|discriminate].
  destruct (names _) as [su|]; cbn [bind] in H; [|discriminate].
  destruct (get b (str "id")) as [bid|]; cbn [bind] in H; [|discriminate].
  destruct (or_ (or_ mn bt) (VStr (str "Untitled"))) as [| | | |t| | |] eqn:Et;
    cbn [asString bind] in H; try discriminate.
  destruct (get b (str "link")) as [bl|]; cbn [bind] in H; [|discriminate].
  destruct (asString _ _) as [l|]; cbn [bind] in H; [|discriminate].
  destruct (get meta (str "inCatalog")) as [fl|]; cbn [bind] in H; [|discriminate].
  destruct (get meta (str "wordCount")) as [wc|]; cbn [bind] in H; [|discriminate].
  destruct (get meta (str "lastUpdated")) as [lu|]; cbn [bind] in H; [|discriminate].
  injection H as <-. exists meta, mn, bt, t. cbn. auto 6.
Qed.

(** The placeholder: with no name and no title the entry is called
    [Untitled]. *)
Lemma parseBook_placeholder b e meta mn bt :
  parseBook b = Ok e ->
  metadataOf b = Ok meta ->
  get meta (str "name") = Ok mn -> truthy mn = false ->
  get b (str "title") = Ok bt -> truthy bt = false ->
  title e = str "Untitled".
Proof.
  intros H Hm Hn Hnf Ht Htf.
  destruct (parseBook_title _ H) as (meta' & mn' & bt' & t & Hm' & Hn' & Ht' & Ho & ->).
  rewrite Hm in Hm'. injection Hm' as <-. rewrite Hn in Hn'. injection Hn' as <-.
  rewrite Ht in Ht'. injection Ht' as <-.
  unfold or_ in Ho. rewrite Hnf, Htf in Ho. cbn in Ho. injection Ho as <-.
  reflexivity.
Qed.

End CatalogueFacts.
End CatalogueFacts.

(* ================================================================== *)
(** * Properties of the catalogue handlers *)
(* ================================================================== *)

Module NovaFacts.
Import Nova.
Section NovaFacts.

Context {RT : Runtime}.

Lemma aggregate_asks_page1 showAll net settled :
  exists rest, snd (aggregate showAll net settled) = 1%Z :: rest.
Proof.
  unfold aggregate. destruct (net (booksUrl 1)) as [r1|e]; [|now exists []].
  destruct (negb (ok r1)); [now exists []|].
  destruct (json r1); [|now exists []]. cbn [snd app]. eauto.
Qed.

Lemma servedFromCache_spec showAll st now cached :
  servedFromCache showAll st now = Some cached <->
  showAll = false /\ booksCache st = Some cached
  /\ (now - booksCacheTime st < BOOKS_CACHE_TTL)%Z.
Proof.
  unfold servedFromCache. destruct showAll; [intuition discriminate|].
  destruct (booksCache st) as [l|]; [|intuition discriminate].
  destruct (Z.ltb_spec (now - booksCacheTime st) BOOKS_CACHE_TTL).
  - intuition congruence.
  - split; [discriminate|]. intros (_ & _ & H'). lia.
Qed.

Lemma books_hit all now later net settled st cached :
  servedFromCache (showAllOf all) st now = Some cached ->
  books all now later net settled st =
  (mkHandled (mkReply 200 (Books cached)) [], st).
Proof. unfold books. now intros ->. Qed.

Lemma books_miss all now later net settled st :
  servedFromCache (showAllOf all) st now = None ->
  books all now later net settled st =
  match aggregate (showAllOf all) net settled with
  | (Ok allBooks, reqs) =>
      (mkHandled (mkReply 200 (Books allBooks)) (List.map booksUrl reqs),
       if showAllOf all then st else mkCache (Some allBooks) later)
  | (Throw e, reqs) =>
      (mkHandled (booksFailure e) (List.map booksUrl reqs), st)
  end.
Proof. unfold books. now intros ->. Qed.

Lemma books_miss_asks all now later net settled st :
  servedFromCache (showAllOf all) st now = None ->
  requests (fst (books all now later net settled st)) <> [].
Proof.
  intros H. rewrite books_miss by exact H.
  destruct (aggregate_asks_page1 (showAllOf all) net settled) as [rest E].
  destruct (aggregate (showAllOf all) net settled) as [[l|e] reqs];
    cbn [snd] in E; subst reqs; discriminate.
Qed.

(** C6, as amended.  A request for the filtered list is answered from the
    cache, with no request to the upstream, if and only if the cache has
    been filled (it is not [null]; an empty list counts) and less than ten
    minutes have passed since it was filled; the answer is then the cached
    list and the cache is left as it was. *)
Theorem cache_fresh_iff all now later net settled st :
  showAllOf all = false ->
  (requests (fst (books all now later net settled st)) = [] <->
   booksCache st <> None
   /\ (now - booksCacheTime st < BOOKS_CACHE_TTL)%Z)
  /\ (forall cached,
        booksCache st = Some cached ->
        (now - booksCacheTime st < BOOKS_CACHE_TTL)%Z ->
        books all now later net settled st =
        (mkHandled (mkReply 200 (Books cached)) [], st)).
Proof.
  intros Hall. split.
  - destruct (servedFromCache (showAllOf all) st now) as [cached|] eqn:E.
    + rewrite (@books_hit all now later net settled st cached E). apply servedFromCache_spec in E.
      destruct E as (_ & Hc & Ht). cbn. rewrite Hc. intuition discriminate.
    + split.
      * intros H. now apply books_miss_asks in H.
      * intros [Hc Ht]. exfalso.
        destruct (booksCache st) as [cached|] eqn:Ec; [|now apply Hc].
        assert (servedFromCache (showAllOf all) st now = Some cached) as H.
        { apply servedFromCache_spec. auto. }
        congruence.
  - intros cached Hc Ht. apply books_hit. apply servedFromCache_spec. auto.
Qed.

(** C10.  A request that does not end in a 200 reply leaves the cache, the
    entries and the time stamp, exactly as it was; the cache changes only
    when the filtered list has been fetched, filtered and sorted without
    an error, and it then holds that list. *)
Theorem books_failure_keeps_cache all now later net settled st :
  let out := books all now later net settled st in
  (code (sent (fst out)) <> 200%Z -> snd out = st)
  /\ (snd out <> st ->
      showAllOf all = false
      /\ exists allBooks reqs,
           aggregate false net settled = (Ok allBooks, reqs)
           /\ sent (fst out) = mkReply 200 (Books allBooks)
           /\ snd out = mkCache (Some allBooks) later).
Proof.
  cbv zeta.
  destruct (servedFromCache (showAllOf all) st now) as [cached|] eqn:E.
  - rewrite (@books_hit all now later net settled st cached E). cbn. intuition.
  - rewrite books_miss by exact E.
    destruct (showAllOf all) eqn:Ea;
      destruct (aggregate _ net settled) as [[l|e] reqs] eqn:Eg; cbn;
      try (intuition; fail).
    split; [intros H; now destruct H|]. intros _. split; [reflexivity|]. eauto.
Qed.

End NovaFacts.
End NovaFacts.

Module AggregateFacts.
Import Nova MonadFacts PromiseFacts NovaFacts.
Section AggregateFacts.

Context {RT : Runtime}.

Lemma fetchPage_status net p r :
  net (booksUrl p) = Ok r -> ok r = false ->
  fetchPage net p = Throw (pageError (status r) p).
Proof. unfold fetchPage. intros -> H. cbn [bind]. now rewrite H. Qed.

Lemma fetchPage_transport net p e :
  net (booksUrl p) = Throw e -> fetchPage net p = Throw e.
Proof. unfold fetchPage. now intros ->. Qed.

(** ** Parallel aggregation *)

Lemma nova_aggregate_fails showAll net settled p e :
  In p (snd (aggregate showAll net settled)) ->
  fetchPage net p = Throw e ->
  exists p' e',
    In p' (snd (aggregate showAll net settled))
    /\ fetchPage net p' = Throw e'
    /\ fst (aggregate showAll net settled) = Throw e'.
Proof.
  unfold aggregate.
  destruct (net (booksUrl 1)) as [r1|e1] eqn:E1.
  2:{ intros _ _. exists 1%Z, e1. cbn. split; [auto|].
      split; [now apply fetchPage_transport|reflexivity]. }
  destruct (ok r1) eqn:Eok; cbn [negb].
  2:{ intros _ _. exists 1%Z, (pageError (status r1) 1). cbn. split; [auto|].
      split; [now apply fetchPage_status|reflexivity]. }
  assert (F1 : fetchPage net 1 = json r1).
  { unfold fetchPage. rewrite E1. cbn [bind]. now rewrite Eok. }
  destruct (json r1) as [v1|ej] eqn:Ej.
  { cbn [snd fst app]. intros [<-|Hin] Hp; [congruence|].
    destruct (promiseAll_rejects (fetchPage net) _ settled _ Hin Hp)
      as (p' & e' & Hin' & Hp' & ->).
    exists p', e'. cbn. auto. }
  intros _ _. exists 1%Z, ej. cbn. auto.
Qed.

Lemma nova_aggregate_ok showAll net settled l reqs :
  aggregate showAll net settled = (Ok l, reqs) ->
  (exists d, discovered showAll net = Ok d /\ l = Sort.sort byTitle d)
  /\ forall settled', aggregate showAll net settled' = (Ok l, reqs).
Proof.
  unfold aggregate, discovered.
  destruct (net (booksUrl 1)) as [r1|e1] eqn:E1; [|discriminate].
  destruct (ok r1) eqn:Eok; cbn [negb]; [|discriminate].
  assert (F1 : fetchPage net 1 = json r1).
  { unfold fetchPage. rewrite E1. cbn [bind]. now rewrite Eok. }
  destruct (json r1) as [v1|ej] eqn:Ej; [|discriminate].
  destruct (promiseAll _ settled) as [vs|] eqn:Ep; [|discriminate].
  apply promiseAll_fulfils in Ep. destruct Ep as [Em Hany].
  cbn [bind]. intros H. injection H as H <-. split.
  - cbn [mapM]. rewrite F1, Em. cbn [bind]. unfold shapeAll in H.
    destruct (filterM _ _) as [kept|]; [|discriminate]. cbn [bind] in *.
    destruct (mapM parseBook kept) as [d|]; [|discriminate]. cbn [bind] in *.
    injection H as <-. eauto.
  - intros settled'. rewrite Hany. cbn [bind]. now rewrite H.
Qed.

(** ** Sequential aggregation *)

Lemma onePage_failed showAll net p acc e0 e :
  Server.onePage showAll (net (booksUrl p)) p acc = Server.Failed e0 ->
  fetchPage net p = Throw e -> e0 = e.
Proof.
  unfold Server.onePage, fetchPage.
  destruct (net (booksUrl p)) as [r|e1]; cbn [bind]; [|congruence].
  destruct (negb (ok r)); [congruence|].
  destruct (json r) as [v|]; [discriminate|congruence].
Qed.

Lemma onePage_passed showAll net p acc e :
  fetchPage net p = Throw e ->
  Server.onePage showAll (net (booksUrl p)) p acc <> Server.Stop
  /\ forall acc', Server.onePage showAll (net (booksUrl p)) p acc
                  <> Server.More acc'.
Proof.
  unfold Server.onePage, fetchPage.
  destruct (net (booksUrl p)) as [r|e1]; cbn [bind]; [|easy].
  destruct (negb (ok r)); [easy|].
  destruct (json r) as [v|]; [discriminate|easy].
Qed.

Lemma pagesFrom_fails showAll net : forall turns page acc reqs,
  exists news,
    snd (Server.pagesFrom turns showAll net page acc reqs) = reqs ++ news
    /\ forall p e, In p news -> fetchPage net p = Throw e ->
         fst (Server.pagesFrom turns showAll net page acc reqs) = Throw e.
Proof.
  induction turns as [|turns IH]; intros page acc reqs; cbn [Server.pagesFrom].
  - exists []. rewrite app_nil_r. split; [reflexivity|easy].
  - destruct (Server.onePage showAll (net (booksUrl page)) page acc)
      as [e0|  |acc'] eqn:E.
    + exists [page]. split; [reflexivity|]. intros p e [<-|[]] Hp. cbn.
      f_equal. exact (@onePage_failed showAll net page acc e0 e E Hp).
    + exists [page]. split; [reflexivity|]. intros p e [<-|[]] Hp.
      now destruct (@onePage_passed showAll net page acc e Hp).
    + destruct (IH (page + 1)%Z acc' (reqs ++ [page])) as (news & Hs & Hf).
      exists (page :: news). rewrite Hs, <- app_assoc. split; [reflexivity|].
      intros p e [<-|Hin] Hp; [|eauto].
      destruct (@onePage_passed showAll net page acc e Hp) as [_ H]. now destruct (H acc').
Qed.

End AggregateFacts.
End AggregateFacts.

Module BooksFacts.
Import Nova MonadFacts PromiseFacts NovaFacts AggregateFacts.
Section BooksFacts.

Context {RT : Runtime}.

(** C4, as amended.  If the fetch of a requested page fails, the whole
    operation fails with a 502 reply that carries an error message and no
    list, and the cache is left as it was.  In the parallel servers the
    message is that of one of the failing pages, in the sequential server
    that of the failing page.  The message names the page and the status
    when the upstream answered with a non-success status; for a transport
    failure it is the transport error's own message. *)
Theorem page_failure_aborts :
  (forall all now later net settled st p e,
      servedFromCache (showAllOf all) st now = None ->
      In p (snd (aggregate (showAllOf all) net settled)) ->
      fetchPage net p = Throw e ->
      exists p' e',
        In p' (snd (aggregate (showAllOf all) net settled))
        /\ fetchPage net p' = Throw e'
        /\ books all now later net settled st =
           (mkHandled (booksFailure e')
              (List.map booksUrl (snd (aggregate (showAllOf all) net settled))),
            st))
  /\ (forall all net p e,
         In p (snd (Server.aggregate (showAllOf all) net)) ->
         fetchPage net p = Throw e ->
         Server.books all net =
         mkHandled (booksFailure e)
           (List.map booksUrl (snd (Server.aggregate (showAllOf all) net))))
  /\ (forall net p r,
         net (booksUrl p) = Ok r -> ok r = false ->
         fetchPage net p = Throw (pageError (status r) p))
  /\ (forall net p e,
         net (booksUrl p) = Throw e -> fetchPage net p = Throw e).
Proof.
  split; [|split; [|split]].
  - intros all now later net settled st p e Hmiss Hin Hp.
    destruct (@nova_aggregate_fails RT _ _ _ _ _ Hin Hp) as (p' & e' & Hin' & Hp' & Hf).
    exists p', e'. split; [exact Hin'|]. split; [exact Hp'|].
    rewrite books_miss by exact Hmiss.
    destruct (aggregate (showAllOf all) net settled) as [res reqs].
    cbn [fst snd] in *. now subst res.
  - intros all net p e Hin Hp. unfold Server.books, Server.aggregate in *.
    destruct (@pagesFrom_fails RT (showAllOf all) net
                (S (Server.turnsAfterFirst (net (booksUrl 1)))) 1 [] [])
      as (news & Hs & Hf).
    rewrite Hs in Hin. specialize (Hf p e Hin Hp).
    destruct (Server.pagesFrom _ _ _ _ _ _) as [res reqs].
    cbn [fst snd] in *. now subst res.
  - intros net p r. apply fetchPage_status.
  - intros net p e. apply fetchPage_transport.
Qed.

Hypothesis collation : Sort.Consistent localeCompare.

Lemma byTitle_consistent : Sort.Consistent byTitle.
Proof.
  destruct collation as [anti trans]. unfold byTitle. split.
  - intros a b. apply anti.
  - intros a b c. apply trans.
Qed.



End BooksFacts.
End BooksFacts.

Module EmptyPageFacts.
Import Nova.
Section EmptyPageFacts.

Context {RT : Runtime}.

Lemma onePage_stop showAll net p acc r v :
  net (booksUrl p) = Ok r -> ok r = true -> json r = Ok v ->
  (forall b rest, v <> VArr (b :: rest)) ->
  Server.onePage showAll (net (booksUrl p)) p acc = Server.Stop.
Proof.
  intros -> Hok Hj Hv. unfold Server.onePage. rewrite Hok, Hj. cbn [negb].
  destruct v as [| | | | |[|b rest]| |]; try reflexivity. now destruct (Hv b rest).
Qed.

Lemma flat_app a b : flat (a ++ b) = flat a ++ flat b.
Proof. unfold flat. apply flat_map_app. Qed.

End EmptyPageFacts.
End EmptyPageFacts.

(* ================================================================== *)
(** * Properties of the content handlers *)
(* ================================================================== *)

Module ContentFacts.
Import Content StringFacts.
Section ContentFacts.

Context {RT : Runtime}.

Lemma checkBookUrl_refuses bookUrl parsed :
  parseURL bookUrl = Some parsed ->
  hostname parsed <> str "pressbooks.tru.ca" ->
  (forall sub, hostname parsed <> sub ++ str ".pressbooks.tru.ca") ->
  checkBookUrl bookUrl =
  inl (refuse "bookUrl must be a pressbooks.tru.ca subdomain.").
Proof.
  intros Hp Hne Hsub. unfold checkBookUrl. rewrite Hp.
  destruct (endsWith (hostname parsed) (str ".pressbooks.tru.ca")) eqn:E.
  { apply endsWith_spec in E. destruct E as [sub E]. now destruct (Hsub sub). }
  destruct (eqs (hostname parsed) (str "pressbooks.tru.ca")) eqn:E'.
  { apply eqs_eq in E'. now destruct Hne. }
  reflexivity.
Qed.

Lemma checkBookUrl_passes bookUrl :
  checkBookUrl bookUrl = inr tt ->
  exists parsed,
    parseURL bookUrl = Some parsed
    /\ (hostname parsed = str "pressbooks.tru.ca"
        \/ exists sub, hostname parsed = sub ++ str ".pressbooks.tru.ca").
Proof.
  unfold checkBookUrl. destruct (parseURL bookUrl) as [parsed|]; [|discriminate].
  destruct (endsWith (hostname parsed) (str ".pressbooks.tru.ca")) eqn:E.
  { intros _. exists parsed. split; [reflexivity|]. right.
    now apply endsWith_spec. }
  destruct (eqs (hostname parsed) (str "pressbooks.tru.ca")) eqn:E';
    [|discriminate].
  intros _. exists parsed. split; [reflexivity|]. left. now apply eqs_eq.
Qed.

Lemma checkBookUrl_cases bookUrl :
  (exists r, checkBookUrl bookUrl = inl r /\ code (sent r) = 400%Z
             /\ requests r = [])
  \/ checkBookUrl bookUrl = inr tt.
Proof.
  unfold checkBookUrl. destruct (parseURL bookUrl) as [parsed|].
  - destruct (_ && _); [left; eexists; split; [reflexivity|now split]|now right].
  - left. eexists. split; [reflexivity|now split].
Qed.

(** C2.  When the host name of [bookUrl] is neither [pressbooks.tru.ca]
    nor ends with [.pressbooks.tru.ca], the table-of-contents and chapter
    handlers reply 400 and fetch nothing; a fetch happens only for a
    [bookUrl] that parses and whose host name passes that suffix test. *)
Theorem untrusted_host_never_fetched :
  (forall bookUrl chapterId net parsed,
      parseURL bookUrl = Some parsed ->
      hostname parsed <> str "pressbooks.tru.ca" ->
      (forall sub, hostname parsed <> sub ++ str ".pressbooks.tru.ca") ->
      (code (sent (toc (Some bookUrl) net)) = 400%Z
       /\ requests (toc (Some bookUrl) net) = [])
      /\ (code (sent (chapter (Some bookUrl) chapterId net)) = 400%Z
          /\ requests (chapter (Some bookUrl) chapterId net) = []))
  /\ (forall bookUrl chapterId net,
         requests (toc bookUrl net) <> []
         \/ requests (chapter bookUrl chapterId net) <> [] ->
         exists u parsed,
           bookUrl = Some u
           /\ parseURL u = Some parsed
           /\ (hostname parsed = str "pressbooks.tru.ca"
               \/ exists sub, hostname parsed = sub ++ str ".pressbooks.tru.ca")).
Proof.
  split.
  - intros bookUrl chapterId net parsed Hp Hne Hsub.
    pose proof (checkBookUrl_refuses _ Hp Hne Hsub) as Hc.
    destruct bookUrl as [|c u].
    + unfold toc, chapter. destruct chapterId; repeat split.
    + destruct chapterId as [[|d i]|]; unfold toc, chapter; rewrite ?Hc;
        repeat split.
  - intros bookUrl chapterId net H.
    assert (exists u, bookUrl = Some u /\ checkBookUrl u = inr tt) as (u & -> & Hc).
    { unfold toc, chapter in H. destruct bookUrl as [[|c u]|].
      - destruct H as [H|H]; [now destruct H|]. destruct chapterId; now destruct H.
      - destruct (checkBookUrl_cases (c :: u)) as [(r & Hr & _ & Hq)|Hr]; [|eauto].
        rewrite Hr in H. destruct H as [H|H]; [now destruct H|].
        destruct chapterId as [[|d i]|]; now destruct H.
      - destruct H as [H|H]; [now destruct H|]. destruct chapterId; now destruct H. }
    destruct (checkBookUrl_passes _ Hc) as (parsed & Hp & Hh). eauto.
Qed.

End ContentFacts.
End ContentFacts.

Module FetchUrlFacts.
Import FetchUrl StringFacts.
Section FetchUrlFacts.

Context {RT : Runtime}.

Lemma blocked_127_10 h :
  (exists rest, h = str "127." ++ rest) \/ (exists rest, h = str "10." ++ rest) ->
  existsb (fun re => testAnchored re h) FETCH_URL_BLOCKLIST = true.
Proof.
  unfold FETCH_URL_BLOCKLIST. cbn [existsb].
  intros [[rest ->]|[rest ->]].
  - rewrite (testAnchored_lit (str "127.") rest). now rewrite orb_true_r.
  - rewrite (testAnchored_lit (str "10.") rest). now rewrite !orb_true_r.
Qed.

(** C7, as amended.  A URL whose host name starts with [127.] or [10.] is
    refused with a 400 and nothing is fetched.  The refusal is the
    blocked-host one for an http or https URL and, because the scheme is
    tested first, the unsupported-scheme one for a URL with any other
    scheme.  A page that was fetched with a success status and a
    supported content type, and whose extracted text is shorter than 20
    code units, is answered with the 422 no-content error. *)
Theorem blocked_hosts_and_short_pages :
  (forall url net parsed,
      parseURL url = Some parsed ->
      (exists rest, hostname parsed = str "127." ++ rest)
      \/ (exists rest, hostname parsed = str "10." ++ rest) ->
      requests (fetchUrl (Some url) net) = []
      /\ code (sent (fetchUrl (Some url) net)) = 400%Z
      /\ (url <> [] ->
          protocol parsed = str "http:" \/ protocol parsed = str "https:" ->
          sent (fetchUrl (Some url) net) =
          mkReply 400 (ErrorBody (str "That host is not allowed.")))
      /\ (url <> [] ->
          protocol parsed <> str "http:" -> protocol parsed <> str "https:" ->
          sent (fetchUrl (Some url) net) =
          mkReply 400
            (ErrorBody (str "Only http and https URLs are supported."))))
  /\ (forall url net r html,
         requests (fetchUrl (Some url) net) = [url] ->
         net url = Ok r -> ok r = true ->
         (let contentType :=
            match header r (str "content-type") with
            | Some t => t
            | None => []
            end in
          includes contentType (str "text/html")
          || includes contentType (str "text/plain")
          || includes contentType (str "application/xhtml") = true) ->
         text r = Ok html ->
         List.length (htmlToPlainText html) < 20 ->
         sent (fetchUrl (Some url) net) =
         mkReply 422 (ErrorBody (str "No readable text found at that URL."))).
Proof.
  split.
  - intros url net parsed Hp Hh. apply blocked_127_10 in Hh.
    unfold fetchUrl. destruct url as [|c u];
      [split; [reflexivity|]; split; [reflexivity|];
       split; intros H; now destruct H|].
    rewrite Hp, Hh.
    destruct (existsb (eqs (protocol parsed)) [str "http:"; str "https:"]) eqn:E;
      cbn [negb].
    + split; [reflexivity|]. split; [reflexivity|]. split; [reflexivity|].
      intros _ H1 H2. cbn [existsb] in E. rewrite !orb_true_iff in E.
      destruct E as [E|[E|E]]; [| |discriminate E]; apply eqs_eq in E;
        [now destruct H1|now destruct H2].
    + split; [reflexivity|]. split; [reflexivity|]. split; [|reflexivity].
      intros _ [H|H]; rewrite H in E; discriminate E.
  - intros url net r html Hreq Hn Hok Hct Ht Hlen. cbv zeta in Hct.
    unfold fetchUrl in *. destruct url as [|c u]; [discriminate|].
    destruct (parseURL (c :: u)) as [parsed|]; [|discriminate].
    destruct (negb (existsb _ _)); [discriminate|].
    destruct (existsb _ FETCH_URL_BLOCKLIST); [discriminate|].
    rewrite Hn. cbn [bind]. unfold extract. rewrite Hok, Ht. cbn [negb bind].
    destruct (includes _ (str "text/html")); cbn [negb andb orb] in *.
    + apply Nat.ltb_lt in Hlen. now rewrite Hlen.
    + destruct (includes _ (str "text/plain")); cbn [negb andb orb] in *.
      * apply Nat.ltb_lt in Hlen. now rewrite Hlen.
      * rewrite Hct. cbn [negb]. apply Nat.ltb_lt in Hlen. now rewrite Hlen.
Qed.

End FetchUrlFacts.
End FetchUrlFacts.

(* ================================================================== *)
(** * The reference runtime is a lawful one *)
(* ================================================================== *)

Module ReferenceFacts.
Import Reference.

Lemma compareUnits_anti : forall a b,
  (0 < compareUnits a b)%Z -> (compareUnits b a < 0)%Z.
Proof.
  induction a as [|x a IH]; intros [|y b]; cbn [compareUnits]; try lia.
  rewrite (N.compare_antisym x y).
  destruct (N.compare x y); cbn [CompOpp]; try lia. apply IH.
Qed.

Lemma compareUnits_trans : forall a b c,
  (compareUnits a b <= 0)%Z -> (compareUnits b c <= 0)%Z ->
  (compareUnits a c <= 0)%Z.
Proof.
  induction a as [|x a IH]; intros [|y b] [|z c]; cbn [compareUnits]; try lia.
  destruct (N.compare_spec x y) as [->|Hxy|Hxy]; try lia.
  - destruct (N.compare_spec y z) as [->|Hyz|Hyz]; try lia. apply IH.
  - destruct (N.compare_spec y z) as [->|Hyz|Hyz]; try lia.
    + intros _ _. destruct (N.compare_spec x z); lia.
    + intros _ _. destruct (N.compare_spec x z); lia.
Qed.

Lemma collation : Sort.Consistent (@localeCompare runtime).
Proof. split; [exact compareUnits_anti|exact compareUnits_trans]. Qed.

End ReferenceFacts.

(* ================================================================== *)
(** * The properties on the examples *)
(* ================================================================== *)

Module Cases.
Import Reference Examples.
Local Open Scope Z_scope.

(** C1 as stated fails: the entities [&lt;] and [&gt;] are decoded after
    the tags are stripped, so the output has both angle brackets. *)
Lemma entities_bring_angle_brackets :
  htmlToPlainText (str "1 &lt; 2 &gt; 0") = str "1 < 2 > 0"
  /\ In LT (htmlToPlainText (str "1 &lt; 2 &gt; 0"))
  /\ In GT (htmlToPlainText (str "1 &lt; 2 &gt; 0")).
Proof. vm_compute. intuition. Qed.

(** C2 at [https://pressbooks.tru.ca.evil.com]. *)
Lemma untrusted_host_never_fetched_witness :
  let bookUrl := str "https://pressbooks.tru.ca.evil.com" in
  parseURL bookUrl = Some (mkURL (str "https:") (str "pressbooks.tru.ca.evil.com"))
  /\ (code (sent (Content.toc (Some bookUrl) offline)) = 400
      /\ requests (Content.toc (Some bookUrl) offline) = [])
  /\ (code (sent (Content.chapter (Some bookUrl) (Some (str "12")) offline)) = 400
      /\ requests (Content.chapter (Some bookUrl) (Some (str "12")) offline) = []).
Proof.
  cbv zeta. split; [reflexivity|].
  apply (proj1 (@ContentFacts.untrusted_host_never_fetched runtime)
           (str "https://pressbooks.tru.ca.evil.com") (Some (str "12")) offline
           (mkURL (str "https:") (str "pressbooks.tru.ca.evil.com"))).
  - reflexivity.
  - vm_compute. discriminate.
  - intros sub H.
    assert (E : endsWith (str "pressbooks.tru.ca.evil.com")
                  (str ".pressbooks.tru.ca") = true).
    { apply StringFacts.endsWith_spec. exists sub. exact H. }
    vm_compute in E. discriminate E.
Defined.

Example evil_com_refused :
  Content.toc (Some (str "https://evil.com")) offline =
  Content.refuse "bookUrl must be a pressbooks.tru.ca subdomain."
  /\ Content.chapter (Some (str "https://evil.com")) (Some (str "12")) offline =
     Content.refuse "bookUrl must be a pressbooks.tru.ca subdomain.".
Proof. split; reflexivity. Qed.

(** C3 at three records with the slug [sandbox1]: one listed, one with a
    string for a name, one with a number for a name. *)
Lemma isJunkBook_flag_then_keywords_witness :
  (flagOf listedSandbox = Ok true /\ isJunkBook listedSandbox = Ok false)
  /\ (flagOf sandbox = Ok false
      /\ slugOf sandbox = Ok (str "sandbox1")
      /\ str "sandbox1" = [] ++ str "sandbox" ++ str "1"
      /\ nameOf sandbox = Ok (VStr (str "Field Notes"))
      /\ isJunkBook sandbox = Ok true)
  /\ (flagOf MoreExamples.numberNamed = Ok false
      /\ slugOf MoreExamples.numberNamed = Ok (str "sandbox1")
      /\ nameOf MoreExamples.numberNamed = Ok (VNum 5)
      /\ exists e,
           isJunkBook MoreExamples.numberNamed = Throw e
           /\ name e = str "TypeError").
Proof.
  split; [|split].
  - split; [reflexivity|].
    apply (proj1 (@CatalogueFacts.isJunkBook_flag_then_keywords runtime listedSandbox)).
    reflexivity.
  - repeat (split; [reflexivity|]).
    destruct (proj2 (@CatalogueFacts.isJunkBook_flag_then_keywords runtime sandbox)
                (str "sandbox1") [] (str "1") eq_refl eq_refl eq_refl)
      as (mn & Hmn & Hstring & _).
    apply Hstring. left. vm_compute in Hmn. injection Hmn as <-. eauto.
  - repeat (split; [reflexivity|]).
    destruct (proj2 (@CatalogueFacts.isJunkBook_flag_then_keywords runtime
                       MoreExamples.numberNamed)
                (str "sandbox1") [] (str "1") eq_refl eq_refl eq_refl)
      as (mn & Hmn & _ & Hother).
    vm_compute in Hmn. injection Hmn as <-.
    apply Hother; [discriminate|reflexivity].
Defined.

(** C3 as stated fails: with a number for a name, a record that is not
    marked and whose slug contains [sandbox] is not classified at all,
    the call throws. *)
Lemma number_name_is_not_classified :
  flagOf MoreExamples.numberNamed = Ok false
  /\ slugOf MoreExamples.numberNamed = Ok (str "sandbox1")
  /\ isJunkBook MoreExamples.numberNamed
     = Throw (TypeError (str "toLowerCase is not a function"))
  /\ isJunkBook MoreExamples.numberNamed <> Ok true.
Proof. repeat split; try (vm_compute; reflexivity). vm_compute. discriminate. Qed.

(** C4 at an upstream whose page 2 answers 404. *)
Lemma page_failure_aborts_witness :
  (Nova.servedFromCache (showAllOf None) Nova.startup 0 = None
   /\ In 2 (snd (Nova.aggregate (showAllOf None) page2Missing [0%nat]))
   /\ fetchPage page2Missing 2 = Throw (pageError 404 2)
   /\ exists p' e',
       In p' (snd (Nova.aggregate (showAllOf None) page2Missing [0%nat]))
       /\ fetchPage page2Missing p' = Throw e'
       /\ Nova.books None 0 0 page2Missing [0%nat] Nova.startup =
          (mkHandled (booksFailure e')
             (List.map booksUrl
                (snd (Nova.aggregate (showAllOf None) page2Missing [0%nat]))),
           Nova.startup))
  /\ (In 2 (snd (Server.aggregate (showAllOf None) page2Missing))
      /\ Server.books None page2Missing =
         mkHandled (booksFailure (pageError 404 2))
           (List.map booksUrl (snd (Server.aggregate (showAllOf None) page2Missing)))).
Proof.
  assert (Hf : fetchPage page2Missing 2 = Throw (pageError 404 2))
    by (vm_compute; reflexivity).
  split.
  - assert (Hin : In 2 (snd (Nova.aggregate (showAllOf None) page2Missing [0%nat])))
      by (vm_compute; auto).
    split; [reflexivity|]. split; [exact Hin|]. split; [exact Hf|].
    exact (proj1 (@BooksFacts.page_failure_aborts runtime)
             None 0 0 page2Missing [0%nat] Nova.startup 2 (pageError 404 2)
             eq_refl Hin Hf).
  - assert (Hin : In 2 (snd (Server.aggregate (showAllOf None) page2Missing)))
      by (vm_compute; auto).
    split; [exact Hin|].
    exact (proj1 (proj2 (@BooksFacts.page_failure_aborts runtime))
             None page2Missing 2 (pageError 404 2) Hin Hf).
Defined.

(** C4 as stated fails: when the upstream cannot be reached the message is
    the transport error's, the same whether page 1 or page 2 failed, with
    no page number and no status. *)
Lemma transport_failure_names_no_page :
  fetchPage offline 1 = Throw fetchFailed
  /\ fetchPage page2Unreachable 2 = Throw fetchFailed
  /\ sent (fst (Nova.books None 0 0 offline [] Nova.startup)) =
     mkReply 502 (ErrorBody (str "Could not fetch book list: fetch failed"))
  /\ sent (fst (Nova.books None 0 0 page2Unreachable [0%nat] Nova.startup)) =
     mkReply 502 (ErrorBody (str "Could not fetch book list: fetch failed"))
  /\ sent (Server.books None page2Unreachable) =
     mkReply 502 (ErrorBody (str "Could not fetch book list: fetch failed")).
Proof. repeat split; vm_compute; reflexivity. Qed.


(** C6 at a cache filled one millisecond before. *)
Lemma cache_fresh_iff_witness :
  showAllOf None = false
  /\ (requests (fst (Nova.books None 8 9 offline [] filledCache)) = [] <->
      Nova.booksCache filledCache <> None
      /\ 8 - Nova.booksCacheTime filledCache < Nova.BOOKS_CACHE_TTL)
  /\ (forall cached,
        Nova.booksCache filledCache = Some cached ->
        8 - Nova.booksCacheTime filledCache < Nova.BOOKS_CACHE_TTL ->
        Nova.books None 8 9 offline [] filledCache =
        (mkHandled (mkReply 200 (Books cached)) [], filledCache)).
Proof.
  split; [reflexivity|].
  exact (@NovaFacts.cache_fresh_iff runtime None 8 9 offline [] filledCache eq_refl).
Defined.

(** C6 as stated fails: a cache that holds the empty list is served, with
    no request to the upstream. *)
Lemma empty_cache_is_served :
  Nova.booksCache emptyCache = Some []
  /\ Nova.booksCacheTime emptyCache = 7
  /\ Nova.books None 8 9 offline [] emptyCache =
     (mkHandled (mkReply 200 (Books [])) [], emptyCache).
Proof. repeat split; vm_compute; reflexivity. Qed.

(** C7 at [http://127.0.0.1/x], at [http://10.0.0.5/], at
    [ftp://127.0.0.1/x] and at a page whose text is [Hi]. *)
Lemma blocked_hosts_and_short_pages_witness :
  (parseURL (str "http://127.0.0.1/x") = Some (mkURL (str "http:") (str "127.0.0.1"))
   /\ requests (FetchUrl.fetchUrl (Some (str "http://127.0.0.1/x")) offline) = []
   /\ sent (FetchUrl.fetchUrl (Some (str "http://127.0.0.1/x")) offline) =
      mkReply 400 (ErrorBody (str "That host is not allowed.")))
  /\ (parseURL (str "http://10.0.0.5/") = Some (mkURL (str "http:") (str "10.0.0.5"))
      /\ requests (FetchUrl.fetchUrl (Some (str "http://10.0.0.5/")) offline) = []
      /\ sent (FetchUrl.fetchUrl (Some (str "http://10.0.0.5/")) offline) =
         mkReply 400 (ErrorBody (str "That host is not allowed.")))
  /\ (parseURL (str "ftp://127.0.0.1/x") = Some (mkURL (str "ftp:") (str "127.0.0.1"))
      /\ requests (FetchUrl.fetchUrl (Some (str "ftp://127.0.0.1/x")) offline) = []
      /\ sent (FetchUrl.fetchUrl (Some (str "ftp://127.0.0.1/x")) offline) =
         mkReply 400
           (ErrorBody (str "Only http and https URLs are supported.")))
  /\ (requests (FetchUrl.fetchUrl (Some (str "http://example.com/")) shortPage)
      = [str "http://example.com/"]
      /\ htmlToPlainText (str "<html><body><p>Hi</p></body></html>") = str "Hi"
      /\ sent (FetchUrl.fetchUrl (Some (str "http://example.com/")) shortPage) =
         mkReply 422 (ErrorBody (str "No readable text found at that URL."))).
Proof.
  pose proof (@FetchUrlFacts.blocked_hosts_and_short_pages runtime) as [B S].
  split; [|split; [|split]].
  - split; [reflexivity|].
    destruct (B (str "http://127.0.0.1/x") offline
                (mkURL (str "http:") (str "127.0.0.1")) eq_refl)
      as (R & _ & M & _).
    { left. exists (str "0.0.1"). reflexivity. }
    split; [exact R|]. apply M; [discriminate|left; reflexivity].
  - split; [reflexivity|].
    destruct (B (str "http://10.0.0.5/") offline
                (mkURL (str "http:") (str "10.0.0.5")) eq_refl)
      as (R & _ & M & _).
    { right. exists (str "0.0.5"). reflexivity. }
    split; [exact R|]. apply M; [discriminate|left; reflexivity].
  - split; [reflexivity|].
    destruct (B (str "ftp://127.0.0.1/x") offline
                (mkURL (str "ftp:") (str "127.0.0.1")) eq_refl)
      as (R & _ & _ & M).
    { left. exists (str "0.0.1"). reflexivity. }
    split; [exact R|]. apply M; vm_compute; discriminate.
  - split; [reflexivity|]. split; [vm_compute; reflexivity|].
    apply (S (str "http://example.com/") shortPage
             (mkResponse 200
                (fun h => if eqs h (str "content-type")
                          then Some (str "text/html; charset=utf-8") else None)
                (Ok VNull) (Ok (str "<html><body><p>Hi</p></body></html>")))
             (str "<html><body><p>Hi</p></body></html>"));
      try reflexivity.
    vm_compute. lia.
Defined.

(** C7 as stated fails: the scheme is tested before the host, so an ftp
    URL on a blocked host gets the reply for unsupported schemes. *)
Lemma other_scheme_is_refused_first :
  parseURL (str "ftp://127.0.0.1/x") = Some (mkURL (str "ftp:") (str "127.0.0.1"))
  /\ FetchUrl.fetchUrl (Some (str "ftp://127.0.0.1/x")) offline =
     FetchUrl.refuse "Only http and https URLs are supported."
  /\ FetchUrl.refuse "Only http and https URLs are supported."
     <> FetchUrl.refuse "That host is not allowed.".
Proof. repeat split; try (vm_compute; reflexivity). vm_compute. discriminate. Qed.

(** C8 as stated fails for the parallel servers: page 2 is empty, page 3
    is requested all the same and its record is in the reply. *)
Lemma parallel_fetch_goes_past_empty_page :
  fetchPage gap 2 = Ok (VArr [])
  /\ requests (fst (Nova.books None 0 0 gap [0%nat; 1%nat] Nova.startup)) =
     [booksUrl 1; booksUrl 2; booksUrl 3]
  /\ exists a z,
      parseBook algebra = Ok a /\ parseBook zoology = Ok z
      /\ sent (fst (Nova.books None 0 0 gap [0%nat; 1%nat] Nova.startup)) =
         mkReply 200 (Books [a; z]).
Proof.
  split; [vm_compute; reflexivity|]. split; [vm_compute; reflexivity|].
  eexists. eexists. split; [vm_compute; reflexivity|].
  split; vm_compute; reflexivity.
Qed.

(** C9 fails on a record whose name is only white space: the name is
    truthy, so the placeholder is not used, and trimming leaves the empty
    title, in both servers. *)
Theorem blank_name_gives_empty_title :
  exists e,
    parseBook blankName = Ok e
    /\ title e = []
    /\ Nova.books None 0 0 blankListed [] Nova.startup =
       (mkHandled (mkReply 200 (Books [e])) [booksUrl 1],
        Nova.mkCache (Some [e]) 0)
    /\ Server.books None blankListed =
       mkHandled (mkReply 200 (Books [e])) [booksUrl 1].
Proof.
  eexists. split; [vm_compute; reflexivity|].
  split; [reflexivity|]. split; vm_compute; reflexivity.
Qed.

(** C10 at a failing refresh of a stale cache, and at a first fill. *)
Lemma books_failure_keeps_cache_witness :
  (code (sent (fst (Nova.books None 600007 600008 page2Missing [0%nat] filledCache)))
   <> 200
   /\ snd (Nova.books None 600007 600008 page2Missing [0%nat] filledCache)
      = filledCache)
  /\ (snd (Nova.books None 0 1 shuffled [0%nat] Nova.startup) <> Nova.startup
      /\ showAllOf None = false
      /\ exists allBooks reqs,
          Nova.aggregate false shuffled [0%nat] = (Ok allBooks, reqs)
          /\ sent (fst (Nova.books None 0 1 shuffled [0%nat] Nova.startup))
             = mkReply 200 (Books allBooks)
          /\ snd (Nova.books None 0 1 shuffled [0%nat] Nova.startup)
             = Nova.mkCache (Some allBooks) 1).
Proof.
  split.
  - assert (H : code (sent (fst (Nova.books None 600007 600008 page2Missing
                                   [0%nat] filledCache))) <> 200)
      by (vm_compute; discriminate).
    split; [exact H|].
    exact (proj1 (@NovaFacts.books_failure_keeps_cache runtime
                    None 600007 600008 page2Missing [0%nat] filledCache) H).
  - assert (H : snd (Nova.books None 0 1 shuffled [0%nat] Nova.startup)
                <> Nova.startup)
      by (vm_compute; discriminate).
    split; [exact H|].
    exact (proj2 (@NovaFacts.books_failure_keeps_cache runtime
                    None 0 1 shuffled [0%nat] Nova.startup) H).
Defined.

End Cases.

(* ================================================================== *)
(** * More on the text extractor *)
(* ================================================================== *)

Module TidyFacts.
Import RegexFacts HtmlFacts.

Lemma sparse_tail c s : sparse (c :: s) = true -> sparse s = true.
Proof. cbn [sparse]. intros H. now apply andb_true_iff in H. Qed.

Lemma sparse_dropWhile p s : sparse s = true -> sparse (dropWhile p s) = true.
Proof.
  induction s as [|c s IH]; [easy|]. intros H. simpl.
  destruct (p c); [|exact H]. apply IH. now apply sparse_tail in H.
Qed.

Lemma unblank_sparse : forall n s, List.length s <= n ->
  sparse (unblank s) = true
  /\ leading isBlank (unblank s) = Nat.min (leading isBlank s) 1.
Proof.
  induction n as [|n IH]; intros s Hn.
  - destruct s; [|simpl in Hn; lia]. now compute.
  - destruct s as [|c s]; [now compute|].
    unfold unblank. pose proof (matchHere_rep 2 isBlank (c :: s)) as M.
    fold re_blanks in M.
    destruct (Nat.leb_spec 2 (leading isBlank (c :: s))) as [H|H].
    + rewrite (@replaceAll_hit _ _ _ _ _ M).
      2:{ apply dropWhile_short. lia. }
      pose proof (@dropWhile_short isBlank (c :: s)) as Hs.
      pose proof (leading_dropWhile isBlank (c :: s)) as Hz.
      remember (dropWhile isBlank (c :: s)) as rest eqn:Er. clear Er M.
      fold (unblank rest).
      destruct (IH rest) as [C L].
      { change (List.length (c :: s)) with (S (List.length s)) in *. lia. }
      rewrite Hz in L.
      remember (leading isBlank (c :: s)) as k eqn:Ek. clear Ek.
      cbn [app sparse leading]. change (isBlank 32%N) with true. cbn iota.
      rewrite L, C. split; [reflexivity|]. simpl. lia.
    + rewrite (@replaceAll_miss _ _ _ _ M). fold (unblank s).
      destruct (IH s) as [C L]; [simpl in Hn; lia|].
      cbn [sparse leading] in *. destruct (isBlank c) eqn:E.
      * rewrite L, C. assert (leading isBlank s < 1) by lia.
        rewrite Nat.min_l by lia. split; [|lia].
        apply andb_true_iff. split; [apply Nat.ltb_lt; lia|reflexivity].
      * rewrite C. split; reflexivity.
Qed.

Lemma sparse_sound s : sparse s = true -> NoBlankRun s.
Proof.
  intros H pre. revert s H.
  induction pre as [|c pre IH]; intros s H a b post -> Ha Hb.
  - cbn [app sparse leading] in H. rewrite Ha, Hb in H. discriminate H.
  - apply sparse_tail in H. now apply (IH _ H a b post).
Qed.

Lemma NoBlankRun_piece a s b : NoBlankRun (a ++ s ++ b) -> NoBlankRun s.
Proof.
  intros H pre x y post -> Hx Hy. apply (H (a ++ pre) x y (post ++ b)); auto.
  now rewrite <- !app_assoc.
Qed.

Lemma dropWhile_keeps p r c t :
  p c = false -> dropWhile p (r ++ c :: t) = dropWhile p r ++ c :: t.
Proof.
  intros Hc. induction r as [|x r IH]; simpl; [now rewrite Hc|].
  destruct (p x); [exact IH|reflexivity].
Qed.

Lemma trim_Trimmed s : Trimmed (trim s).
Proof.
  unfold trim, trimEnd, trimStart.
  remember (dropWhile isWhiteSpace s) as x eqn:Ex. split.
  - intros c t H.
    destruct x as [|c0 x]; [discriminate H|].
    symmetry in Ex. pose proof (@dropWhile_stops _ _ _ _ Ex) as Hc0.
    cbn [rev] in H. rewrite (@dropWhile_keeps isWhiteSpace (rev x) c0 [] Hc0) in H.
    rewrite rev_app_distr in H. cbn in H. injection H as <- _. exact Hc0.
  - intros t c H.
    assert (E : dropWhile isWhiteSpace (rev x) = c :: rev t).
    { rewrite <- (rev_involutive (dropWhile isWhiteSpace (rev x))), H.
      now rewrite rev_app_distr. }
    now apply dropWhile_stops in E.
Qed.

Lemma plain_text_NoBlankRun html : NoBlankRun (htmlToPlainText html).
Proof.
  unfold htmlToPlainText, tidy.
  set (s := decodeEntities (stripMarkup html)).
  fold (squeeze s). fold (unblank (squeeze s)).
  destruct (trim_piece (unblank (squeeze s))) as (a & b & E).
  apply NoBlankRun_piece with (a := a) (b := b). rewrite <- E.
  apply sparse_sound.
  now destruct (@unblank_sparse _ (squeeze s) (le_n _)).
Qed.

Lemma plain_text_Trimmed html : Trimmed (htmlToPlainText html).
Proof. apply trim_Trimmed. Qed.

(** X1.  The white space of the extracted text: the output of
    [htmlToPlainText] never has two blanks (spaces or tabs) in a row and
    neither starts nor ends with white space; the output of [stripHtml]
    neither starts nor ends with white space. *)
Theorem htmlToPlainText_white_space html :
  NoBlankRun (htmlToPlainText html)
  /\ Trimmed (htmlToPlainText html)
  /\ Trimmed (stripHtml html).
Proof.
  split; [apply plain_text_NoBlankRun|].
  split; [apply plain_text_Trimmed|apply trim_Trimmed].
Qed.

End TidyFacts.

Module PlainTextFacts.
Import RegexFacts HtmlFacts TidyFacts.

Lemma Opens_Chr p : Opens p (Chr p).
Proof.
  intros [|c t]; cbn [run]; [easy|]. destruct (p c) eqn:E; [eauto|easy].
Qed.

Lemma Opens_Cat p r1 r2 : Opens p r1 -> Opens p (Cat r1 r2).
Proof.
  intros H s Hs. apply H. cbn [run] in Hs. intros E. rewrite E in Hs. now apply Hs.
Qed.

Lemma Opens_weaken (p q : char -> bool) r :
  (forall c, p c = true -> q c = true) -> Opens p r -> Opens q r.
Proof. intros Hpq H s Hs. destruct (H s Hs) as (c & t & -> & Hc). eauto. Qed.

Lemma Opens_lit c k : Opens (eqc c) (lit (c :: k)).
Proof. cbn [lit]. apply Opens_Cat, Opens_Chr. Qed.

Lemma Opens_lit_ci c k :
  isLowerAZ c = false -> isUpperAZ c = false -> Opens (eqc c) (lit_ci (c :: k)).
Proof.
  intros Hl Hu. cbn [lit_ci]. apply Opens_Cat.
  apply Opens_weaken with (p := fun x => eqc x (lowerAZ c) || eqc x (upperAZ c));
    [|apply Opens_Chr].
  unfold lowerAZ, upperAZ. rewrite Hl, Hu. intros x H.
  rewrite orb_diag in H. unfold eqc in *. now rewrite N.eqb_sym.
Qed.

(** A pattern that opens with a code unit absent from the subject
    changes nothing. *)
Lemma replaceAll_absent c r by_ s :
  Opens (eqc c) r -> ~ In c s -> replaceAll r by_ s = s.
Proof.
  intros Ho. assert (M : forall t, ~ In c t -> matchHere r t = None).
  { intros t Ht. unfold matchHere. destruct (run r t) as [|x l] eqn:E; [reflexivity|].
    destruct (Ho t) as (c' & t' & -> & Hc); [now rewrite E|].
    apply N.eqb_eq in Hc. subst c'. destruct Ht. now left. }
  induction s as [|x s IH]; intros Hs.
  - apply replaceAll_nil. now apply M.
  - rewrite replaceAll_miss by now apply M.
    f_equal. apply IH. intros H. apply Hs. now right.
Qed.

Lemma stripMarkup_plain s : ~ In LT s -> stripMarkup s = s.
Proof.
  intros H. unfold stripMarkup.
  rewrite (@replaceAll_absent LT re_script [] s); [| |exact H].
  2:{ apply Opens_Cat. now apply Opens_lit_ci. }
  rewrite (@replaceAll_absent LT re_style [] s); [| |exact H].
  2:{ apply Opens_Cat. now apply Opens_lit_ci. }
  rewrite (@replaceAll_absent LT re_block [LF] s); [| |exact H].
  2:{ apply Opens_Cat, Opens_Chr. }
  apply replaceAll_absent with (c := LT); [|exact H].
  apply Opens_Cat, Opens_Chr.
Qed.

Lemma entities_open :
  Forall (fun e => exists k, @fst jsstring jsstring e = AMP :: k) entities.
Proof. repeat constructor; eexists; reflexivity. Qed.

Lemma decode_plain (table : list (jsstring * jsstring)) s :
  Forall (fun e => exists k, @fst jsstring jsstring e = AMP :: k) table ->
  ~ In AMP s ->
  fold_left (fun acc e => replaceAll (lit (fst e)) (snd e) acc) table s = s.
Proof.
  intros F H. induction F as [|e l [k He] _ IH]; [reflexivity|].
  cbn [fold_left]. etransitivity; [|exact IH]. f_equal.
  apply replaceAll_absent with (c := AMP); [|exact H].
  rewrite He. apply Opens_lit.
Qed.

Lemma decodeEntities_plain s : ~ In AMP s -> decodeEntities s = s.
Proof. apply decode_plain, entities_open. Qed.

Lemma calm_complete s : NoNewlineRun s -> calm s = true.
Proof.
  induction s as [|c s IH]; [reflexivity|]. intros H. cbn [calm].
  apply andb_true_iff. split.
  - apply Nat.ltb_lt.
    destruct (Nat.lt_ge_cases (leading (eqc LF) (c :: s)) 3) as [G|G]; [exact G|].
    exfalso. destruct s as [|c1 [|c2 s]]; cbn [leading] in G;
      destruct (eqc LF c) eqn:E0; try lia.
    + destruct (eqc LF c1); cbn in G; lia.
    + destruct (eqc LF c1) eqn:E1; [|lia]. destruct (eqc LF c2) eqn:E2; [|lia].
      apply N.eqb_eq in E0, E1, E2. subst. now apply (H [] s).
  - apply IH. intros pre post ->. now apply (H (c :: pre) post).
Qed.

Lemma sparse_complete s : NoBlankRun s -> sparse s = true.
Proof.
  induction s as [|c s IH]; [reflexivity|]. intros H. cbn [sparse].
  apply andb_true_iff. split.
  - apply Nat.ltb_lt. cbn [leading]. destruct (isBlank c) eqn:E0; [|lia].
    destruct s as [|c1 s]; cbn [leading]; [lia|].
    destruct (isBlank c1) eqn:E1; [|lia].
    destruct (H [] c c1 s eq_refl E0 E1).
  - apply IH. intros pre a b post -> Ha Hb. now apply (H (c :: pre) a b post).
Qed.

Lemma squeeze_calm_id s : calm s = true -> squeeze s = s.
Proof.
  induction s as [|c s IH]; [reflexivity|]. intros H.
  pose proof (matchHere_rep 3 (eqc LF) (c :: s)) as M. fold re_newlines in M.
  cbn [calm] in H. apply andb_true_iff in H. destruct H as [Hl Hc].
  apply Nat.ltb_lt in Hl.
  destruct (Nat.leb_spec 3 (leading (eqc LF) (c :: s))); [lia|].
  unfold squeeze. rewrite (@replaceAll_miss _ _ _ _ M). f_equal. now apply IH.
Qed.

Lemma unblank_sparse_id s : sparse s = true -> unblank s = s.
Proof.
  induction s as [|c s IH]; [reflexivity|]. intros H.
  pose proof (matchHere_rep 2 isBlank (c :: s)) as M. fold re_blanks in M.
  cbn [sparse] in H. apply andb_true_iff in H. destruct H as [Hl Hc].
  apply Nat.ltb_lt in Hl.
  destruct (Nat.leb_spec 2 (leading isBlank (c :: s))); [lia|].
  unfold unblank. rewrite (@replaceAll_miss _ _ _ _ M). f_equal. now apply IH.
Qed.

Lemma trim_Trimmed_id s : Trimmed s -> trim s = s.
Proof.
  intros [Hfirst Hlast]. unfold trim, trimEnd, trimStart.
  assert (E : dropWhile isWhiteSpace s = s).
  { destruct s as [|c t]; [reflexivity|]. simpl.
    now rewrite (Hfirst c t eq_refl). }
  rewrite E. destruct (rev s) as [|c r] eqn:Er.
  - apply (f_equal (@rev char)) in Er. rewrite rev_involutive in Er. now subst.
  - assert (Hs : s = rev r ++ [c]).
    { rewrite <- (rev_involutive s), Er. reflexivity. }
    simpl. rewrite (Hlast _ _ Hs). simpl. symmetry. exact Hs.
Qed.

Lemma tidy_normal_id s :
  NoNewlineRun s -> NoBlankRun s -> Trimmed s -> tidy s = s.
Proof.
  intros Hn Hb Ht. unfold tidy. fold (squeeze s).
  rewrite (@squeeze_calm_id s (@calm_complete s Hn)). fold (unblank s).
  rewrite (@unblank_sparse_id s (@sparse_complete s Hb)).
  now apply trim_Trimmed_id.
Qed.

(** X2.  Plain text is left as it is: [htmlToPlainText] returns its
    input unchanged when the input has no [<] and no [&], no three line
    feeds and no two blanks in a row, and no white space at either end.
    It follows that extracting twice gives the same as extracting once,
    whenever the first result has no [<] and no [&] left. *)
Theorem htmlToPlainText_plain_text :
  (forall s,
      ~ In LT s -> ~ In AMP s ->
      NoNewlineRun s -> NoBlankRun s -> Trimmed s ->
      htmlToPlainText s = s)
  /\ (forall html,
         ~ In LT (htmlToPlainText html) -> ~ In AMP (htmlToPlainText html) ->
         htmlToPlainText (htmlToPlainText html) = htmlToPlainText html).
Proof.
  assert (P : forall s,
             ~ In LT s -> ~ In AMP s ->
             NoNewlineRun s -> NoBlankRun s -> Trimmed s ->
             htmlToPlainText s = s).
  { intros s Hl Ha Hn Hb Ht. unfold htmlToPlainText.
    rewrite (@stripMarkup_plain s Hl), (@decodeEntities_plain s Ha).
    now apply tidy_normal_id. }
  split; [exact P|]. intros html Hl Ha. apply P; auto.
  - apply tidy_no_newline_run.
  - apply plain_text_NoBlankRun.
  - apply plain_text_Trimmed.
Qed.

End PlainTextFacts.

(* ================================================================== *)
(** * Word counts, and the junk test as a whole *)
(* ================================================================== *)

Module WordFacts.
Import TidyFacts.

Lemma count_pieces : forall s inRun piece,
  (inRun = true -> piece = []) ->
  List.length (filter nonEmpty (splitFrom inRun piece s)) =
  (if nonEmpty piece then 1 else 0) + countWords (nonEmpty piece) s.
Proof.
  induction s as [|c s IH]; intros inRun piece Hrun.
  - cbn. destruct (nonEmpty piece); reflexivity.
  - cbn [splitFrom countWords]. destruct (isWhiteSpace c).
    + destruct inRun.
      * rewrite IH by exact Hrun. now rewrite (Hrun eq_refl).
      * cbn [filter]. destruct (nonEmpty piece); cbn [List.length];
          rewrite IH by reflexivity; reflexivity.
    + rewrite IH by discriminate.
      assert (E : nonEmpty (piece ++ [c]) = true) by now destruct piece.
      rewrite E. destruct (nonEmpty piece); reflexivity.
Qed.

(** The count the handlers send is the number of non-empty pieces of
    [text.split(/\s+/)]. *)
Lemma countWords_split s :
  countWords false s = List.length (filter nonEmpty (splitWhiteSpace s)).
Proof.
  unfold splitWhiteSpace. now rewrite count_pieces by discriminate.
Qed.

Lemma countWords_bound : forall s inWord,
  2 * countWords inWord s <= List.length s + (if inWord then 0 else 1).
Proof.
  induction s as [|c s IH]; intros inWord; cbn [countWords List.length].
  - destruct inWord; lia.
  - destruct (isWhiteSpace c).
    + specialize (IH false). cbn in IH. destruct inWord; lia.
    + destruct inWord; [specialize (IH true)|specialize (IH true)]; cbn in IH; lia.
Qed.

Lemma countWords_starts c s :
  isWhiteSpace c = false -> 1 <= countWords false (c :: s).
Proof. intros H. cbn [countWords]. rewrite H. lia. Qed.

Lemma countWords_zero s :
  Trimmed s -> (countWords false s = 0 <-> s = []).
Proof.
  intros [Hfirst _]. split; [|now intros ->].
  destruct s as [|c s]; [reflexivity|]. intros H.
  pose proof (@countWords_starts c s (Hfirst c s eq_refl)). lia.
Qed.

Section WordFacts.
Context {RT : Runtime}.

(** X3.  What [/api/chapter] makes of a chapter record: the text is the
    plain text of [content.rendered] (of the empty string when that is
    absent), and the word count is the number of non-empty pieces of
    that text between runs of white space.  The count is zero exactly
    when the text is empty, and twice the count is at most the length of
    the text plus one. *)
Theorem chapter_text_and_word_count chapter c :
  Content.shapeChapter chapter = Ok c ->
  (exists html,
      or_ (getOpt (getOpt chapter (str "content")) (str "rendered")) (VStr [])
      = VStr html
      /\ ch_text c = htmlToPlainText html)
  /\ ch_wordCount c
     = List.length (filter nonEmpty (splitWhiteSpace (ch_text c)))
  /\ (ch_wordCount c = 0 <-> ch_text c = [])
  /\ 2 * ch_wordCount c <= List.length (ch_text c) + 1.
Proof.
  unfold Content.shapeChapter, Content.plainTextOf. intros H.
  destruct (or_ (getOpt (getOpt chapter (str "content")) (str "rendered")) (VStr []))
    as [| | | |html| | |]; cbn [asString bind] in H; try discriminate.
  destruct (get chapter (str "id")) as [cid|]; cbn [bind] in H; [|discriminate].
  destruct (asString _ _) as [t|]; cbn [bind] in H; [|discriminate].
  injection H as <-. cbn [ch_text ch_wordCount].
  split; [now exists html|]. split; [apply countWords_split|].
  split; [apply countWords_zero, plain_text_Trimmed|].
  apply (countWords_bound (htmlToPlainText html) false).
Qed.

End WordFacts.
End WordFacts.

Module JunkFacts.
Import StringFacts.
Section JunkFacts.
Context {RT : Runtime}.



End JunkFacts.
End JunkFacts.

(* ================================================================== *)
(** * Decimal numerals and the pages requested *)
(* ================================================================== *)

Module DecimalFacts.
Import DecimalString.

Lemma str_cons a s : str (String a s) = N_of_ascii a :: str s.
Proof. reflexivity. Qed.

Lemma digits_acc d : forall acc,
  digits (Zpos acc) (str (NilEmpty.string_of_uint d))
  = Zpos (Pos.of_uint_acc d acc).
Proof.
  induction d; intros acc; cbn [NilEmpty.string_of_uint Pos.of_uint_acc];
    [reflexivity|..]; rewrite str_cons; cbn [digits];
    match goal with
    | |- context [isDigit ?c] => change (isDigit c) with true; cbv iota
    end;
    rewrite <- IHd; f_equal;
    match goal with
    | |- context [Z.of_N ?n] =>
        let v := eval vm_compute in (Z.of_N n) in change (Z.of_N n) with v
    end;
    rewrite ?Pos2Z.inj_add, ?Pos2Z.inj_mul; lia.
Qed.

Lemma digits_zero d :
  digits 0 (str (NilEmpty.string_of_uint d)) = Z.of_N (Pos.of_uint d).
Proof.
  induction d; cbn [NilEmpty.string_of_uint Pos.of_uint];
    [reflexivity|..]; rewrite str_cons; cbn [digits];
    match goal with
    | |- context [isDigit ?c] => change (isDigit c) with true; cbv iota
    end;
    [exact IHd|..]; cbn [Z.of_N]; rewrite <- digits_acc; reflexivity.
Qed.

(** a numeral starts with a digit *)
Lemma numeral_starts d :
  d <> Decimal.Nil ->
  exists c t, str (NilEmpty.string_of_uint d) = c :: t /\ isDigit c = true.
Proof.
  destruct d; [easy|..]; intros _; cbn [NilEmpty.string_of_uint];
    rewrite str_cons; eexists; eexists; split; reflexivity.
Qed.

Lemma digit_plain c :
  isDigit c = true ->
  isWhiteSpace c = false /\ eqc c (ch "-") = false /\ eqc c (ch "+") = false.
Proof.
  unfold isDigit, isWhiteSpace, eqc, ch. intros H.
  apply andb_true_iff in H. destruct H as [H1 H2].
  apply N.leb_le in H1, H2.
  repeat split;
    repeat (apply orb_false_iff; split);
    try (apply andb_false_iff; (left; apply N.leb_gt; cbn; lia)
                               || (right; apply N.leb_gt; cbn; lia));
    apply N.eqb_neq; cbn; lia.
Qed.

Lemma parseInt10_numeral d :
  d <> Decimal.Nil ->
  parseInt10 (str (NilEmpty.string_of_uint d)) = Some (Z.of_N (Pos.of_uint d)).
Proof.
  intros Hd. pose proof (digits_zero d) as Hz.
  destruct (@numeral_starts d Hd) as (c & t & E & Hc). rewrite E in *.
  destruct (@digit_plain c Hc) as (Hw & Hm & Hp).
  unfold parseInt10, trimStart. cbn [dropWhile]. rewrite Hw, Hm, Hp, Hc, Hz.
  f_equal. lia.
Qed.

(** Reading back a number written in decimal. *)
Lemma parseInt10_dec z : parseInt10 (dec z) = Some z.
Proof.
  unfold dec. destruct z as [|p|p]; [reflexivity|..];
    cbn [Z.to_int NilZero.string_of_int];
    pose proof (Stdlib.Numbers.DecimalPos.Unsigned.to_uint_nonnil p) as Hn;
    pose proof (Stdlib.Numbers.DecimalPos.Unsigned.of_to p) as Hp;
    unfold NilZero.string_of_uint;
    destruct (Pos.to_uint p) as [| | | | | | | | | | ] eqn:E; try easy;
    rewrite <- E in *.
  all: try (rewrite parseInt10_numeral by exact Hn; now rewrite Hp).
  all: rewrite str_cons; pose proof (digits_zero (Pos.to_uint p)) as Hz;
    destruct (@numeral_starts _ Hn) as (c & t & Es & Hc); rewrite Es in *;
    destruct (@digit_plain c Hc) as (Hw & Hm & Hpl);
    unfold parseInt10, trimStart; cbn [dropWhile];
    change (isWhiteSpace (N_of_ascii "-")) with false; cbv iota;
    change (eqc (N_of_ascii "-") (ch "-")) with true; cbv iota;
    rewrite Hc, Hz, Hp; reflexivity.
Qed.

End DecimalFacts.

Module PagingFacts.
Import Nova DecimalFacts.
Section PagingFacts.
Context {RT : Runtime}.

Lemma remainingPages_seq n :
  remainingPages (Some n) = List.map Z.of_nat (seq 2 (Z.to_nat (n - 1))).
Proof.
  unfold remainingPages. rewrite <- (seq_shift _ 1), <- (seq_shift _ 0).
  rewrite !map_map. apply map_ext. intros i. lia.
Qed.

Lemma pagesFrom_consecutive showAll net : forall turns i acc reqs,
  exists k,
    k <= turns /\ (1 <= turns -> 1 <= k)
    /\ snd (Server.pagesFrom turns showAll net (Z.of_nat i) acc reqs)
       = reqs ++ List.map Z.of_nat (seq i k).
Proof.
  induction turns as [|turns IH]; intros i acc reqs; cbn [Server.pagesFrom].
  - exists 0. cbn. rewrite app_nil_r. repeat split; lia.
  - destruct (Server.onePage _ _ _ _) as [e| |acc'].
    + exists 1. cbn. repeat split; lia.
    + exists 1. cbn. repeat split; lia.
    + replace (Z.of_nat i + 1)%Z with (Z.of_nat (S i)) by lia.
      destruct (IH (S i) acc' (reqs ++ [Z.of_nat i])) as (k & Hk & _ & E).
      exists (S k). rewrite E, <- app_assoc. cbn. repeat split; lia.
Qed.

Lemma pagesOf_cons i k : pagesOf i (S k) = Z.of_nat i :: pagesOf (S i) k.
Proof. reflexivity. Qed.

Lemma fetchPage_throws net p e :
  fetchPage net p = Throw e ->
  net (booksUrl p) = Throw e
  \/ exists r, net (booksUrl p) = Ok r
               /\ (ok r = false \/ (ok r = true /\ json r = Throw e)).
Proof.
  unfold fetchPage. destruct (net (booksUrl p)) as [r|e']; cbn [bind].
  - intros H. right. exists r. split; [reflexivity|].
    destruct (ok r); cbn [negb] in H; auto.
  - intros [= <-]. now left.
Qed.

(** X5.  The pages asked for.  In the parallel servers, when page 1 is
    answered with a success status and a JSON body, the pages requested
    are 1, 2, ..., N for the declared count N (page 1 only when N is less
    than 1).  In the sequential server the pages requested are 1, 2, ...,
    k for some k from 1 to that count.  In every server, when page 1
    cannot be fetched or read, no other page is requested. *)
Theorem pages_requested showAll net settled :
  (forall r1 v,
      net (booksUrl 1) = Ok r1 -> ok r1 = true -> json r1 = Ok v ->
      snd (aggregate showAll net settled)
      = pagesOf 1 (Z.to_nat (Z.max 1 (declared r1)))
      /\ exists k,
           1 <= k <= Z.to_nat (Z.max 1 (declared r1))
           /\ snd (Server.aggregate showAll net) = pagesOf 1 k)
  /\ (forall e,
        fetchPage net 1 = Throw e ->
        snd (aggregate showAll net settled) = [1%Z]
        /\ snd (Server.aggregate showAll net) = [1%Z]).
Proof.
  split.
  - intros r1 v H1 Hok Hj. split.
    + unfold aggregate. rewrite H1, Hok, Hj. cbn [negb snd].
      unfold declared. destruct (totalPagesOf r1) as [n|].
      * rewrite remainingPages_seq.
        replace (Z.to_nat (Z.max 1 n)) with (S (Z.to_nat (n - 1))) by lia.
        reflexivity.
      * reflexivity.
    + unfold Server.aggregate.
      destruct (pagesFrom_consecutive showAll net
                  (S (Server.turnsAfterFirst (net (booksUrl 1)))) 1 [] [])
        as (k & Hk & Hk1 & E).
      exists k. change (Z.of_nat 1) with 1%Z in E. rewrite E.
      split; [|reflexivity]. rewrite H1 in Hk.
      cbn [Server.turnsAfterFirst] in Hk. unfold declared.
      destruct (totalPagesOf r1); lia.
  - intros e He. split.
    + unfold aggregate.
      destruct (fetchPage_throws _ _ He) as [->|(r & -> & [Hok|[Hok Hj]])];
        [reflexivity| |]; rewrite Hok; cbn [negb]; [reflexivity|].
      now rewrite Hj.
    + unfold Server.aggregate. cbn [Server.pagesFrom]. unfold Server.onePage.
      destruct (fetchPage_throws _ _ He) as [->|(r & -> & [Hok|[Hok Hj]])];
        [reflexivity| |]; rewrite Hok; cbn [negb]; [reflexivity|].
      now rewrite Hj.
Qed.

(** X6.  Reading the page count.  A header [X-WP-TotalPages] that is
    the decimal rendering of an integer of absolute value at most 2^53,
    the range in which [parseInt] returns integers exactly, gives that
    integer back; an absent or empty header counts as one page; a header
    that starts with anything but white space, a sign or a digit gives no
    number. *)
Theorem totalPagesOf_header r :
  (forall n, (Z.abs n <= 2 ^ 53)%Z ->
             header r (str "X-WP-TotalPages") = Some (dec n) ->
             totalPagesOf r = Some n)
  /\ (header r (str "X-WP-TotalPages") = None
      \/ header r (str "X-WP-TotalPages") = Some [] ->
      totalPagesOf r = Some 1%Z)
  /\ (forall c s, header r (str "X-WP-TotalPages") = Some (c :: s) ->
                  isWhiteSpace c = false -> isDigit c = false ->
                  eqc c (ch "-") = false -> eqc c (ch "+") = false ->
                  totalPagesOf r = None).
Proof.
  unfold totalPagesOf. split; [|split].
  - intros n _ H. rewrite H. pose proof (parseInt10_dec n) as P.
    destruct (dec n); [discriminate P|exact P].
  - intros [H|H]; rewrite H; reflexivity.
  - intros c s H Hw Hd Hm Hp. rewrite H.
    unfold parseInt10, trimStart. cbn [dropWhile]. now rewrite Hw, Hm, Hp, Hd.
Qed.

End PagingFacts.
End PagingFacts.

(* ================================================================== *)
(** * The cache across requests, and requests for the unfiltered list *)
(* ================================================================== *)

Module CacheFacts.
Import Nova MonadFacts PromiseFacts NovaFacts AggregateFacts StringFacts.
Section CacheFacts.

Context {RT : Runtime}.

Lemma showAllOf_true all : showAllOf all = true <-> all = Some (str "1").
Proof.
  destruct all as [s|]; cbn [showAllOf]; [|split; discriminate].
  rewrite eqs_eq. split; [now intros ->|now intros [= ->]].
Qed.

Lemma filterM_keep_all l : filterM (keep true) l = Ok l.
Proof.
  induction l as [|b l IH]; [reflexivity|]. cbn [filterM keep bind].
  now rewrite IH.
Qed.

Lemma mapM_length {A B} (f : A -> result B) l bs :
  mapM f l = Ok bs -> List.length bs = List.length l.
Proof.
  revert bs. induction l as [|a l IH]; intros bs; cbn [mapM].
  - now intros [= <-].
  - destruct (f a) as [b|]; [|discriminate]. cbn [bind].
    destruct (mapM f l) as [bs'|]; [|discriminate]. cbn [bind].
    intros [= <-]. cbn. f_equal. now apply IH.
Qed.

(** X7.  With [?all=1] the parallel servers neither read nor write the
    cache: page 1 is requested whatever the cache holds, the reply is the
    same from any state of the cache and at any time, the state is left as
    it was, and no record is filtered out: a list sent has one entry for
    each record of the pages.  Only the exact value [1] asks for this. *)
Theorem show_all_bypasses_cache all now later net settled st :
  showAllOf all = true ->
  all = Some (str "1")
  /\ snd (books all now later net settled st) = st
  /\ (exists rest,
        requests (fst (books all now later net settled st))
        = booksUrl 1 :: rest)
  /\ (forall now' later' st',
        fst (books all now' later' net settled st')
        = fst (books all now later net settled st))
  /\ (forall l,
        payload (sent (fst (books all now later net settled st))) = Books l ->
        exists r1 bodies d,
          net (booksUrl 1) = Ok r1
          /\ mapM (fetchPage net) (1%Z :: remainingPages (totalPagesOf r1))
             = Ok bodies
          /\ mapM parseBook (flat bodies) = Ok d
          /\ l = Sort.sort byTitle d
          /\ List.length l = List.length (flat bodies)).
Proof.
  intros Hall. split; [now apply showAllOf_true|].
  assert (Hmiss : forall st' now', servedFromCache (showAllOf all) st' now' = None).
  { intros st' now'. unfold servedFromCache. now rewrite Hall. }
  split; [|split; [|split]].
  - rewrite books_miss by apply Hmiss. rewrite Hall.
    now destruct (aggregate true net settled) as [[l|e] reqs].
  - rewrite books_miss by apply Hmiss.
    destruct (aggregate_asks_page1 (showAllOf all) net settled) as [rest E].
    destruct (aggregate (showAllOf all) net settled) as [[l|e] reqs];
      cbn [snd] in E; subst reqs; cbn; eauto.
  - intros now' later' st'. rewrite !books_miss by apply Hmiss.
    now destruct (aggregate (showAllOf all) net settled) as [[l|e] reqs].
  - intros l. rewrite books_miss by apply Hmiss. rewrite Hall.
    destruct (aggregate true net settled) as [[l'|e] reqs] eqn:Eg;
      cbn; [|discriminate].
    intros [= ->]. apply nova_aggregate_ok in Eg.
    destruct Eg as [(d & Hd & ->) _]. unfold discovered in Hd.
    destruct (net (booksUrl 1)) as [r1|] eqn:E1; [|discriminate].
    cbn [bind] in Hd.
    destruct (mapM (fetchPage net) _) as [bodies|] eqn:Eb; [|discriminate].
    cbn [bind] in Hd. rewrite filterM_keep_all in Hd. cbn [bind] in Hd.
    exists r1, bodies, d. repeat split; try assumption.
    rewrite (Permutation_length (SortFacts.sort_perm byTitle d)).
    now apply mapM_length with parseBook.
Qed.

(** X8.  Two requests for the filtered list in a row.  When the first one
    had to ask the upstream and was answered with a list, a second one
    made less than ten minutes after the list was stored gets the same
    reply without any request, whatever the upstream would answer by then,
    and leaves the cache as it is; from ten minutes on it asks the
    upstream for page 1 again. *)
Theorem second_request_within_ttl
    all now later net settled st all2 now2 later2 net2 settled2 :
  showAllOf all = false -> showAllOf all2 = false ->
  requests (fst (books all now later net settled st)) <> [] ->
  code (sent (fst (books all now later net settled st))) = 200%Z ->
  let first := books all now later net settled st in
  let second := books all2 now2 later2 net2 settled2 (snd first) in
  ((now2 - later < BOOKS_CACHE_TTL)%Z ->
   sent (fst second) = sent (fst first)
   /\ requests (fst second) = []
   /\ snd second = snd first)
  /\ ((BOOKS_CACHE_TTL <= now2 - later)%Z ->
      exists rest, requests (fst second) = booksUrl 1 :: rest).
Proof.
  intros Hall Hall2 Hreq Hcode. cbv zeta.
  destruct (servedFromCache (showAllOf all) st now) as [cached|] eqn:E.
  { rewrite (@books_hit _ all now later net settled st cached E) in Hreq.
    now destruct Hreq. }
  pose proof (@books_miss _ all now later net settled st E) as Hb.
  rewrite Hall in Hb.
  destruct (aggregate false net settled) as [[l|e] reqs] eqn:Eg;
    rewrite Hb in *; cbn [fst snd sent code booksFailure] in *;
    [|discriminate].
  split.
  - intros Ht.
    rewrite (@books_hit _ all2 now2 later2 net2 settled2 (mkCache (Some l) later) l).
    + cbn. auto.
    + apply servedFromCache_spec. cbn. auto.
  - intros Ht.
    assert (servedFromCache (showAllOf all2) (mkCache (Some l) later) now2 = None)
      as Hmiss.
    { destruct (servedFromCache _ _ now2) as [c|] eqn:Ec; [|reflexivity].
      apply servedFromCache_spec in Ec. cbn [booksCacheTime] in Ec.
      destruct Ec as (_ & _ & Ec). lia. }
    rewrite books_miss by exact Hmiss.
    destruct (aggregate_asks_page1 (showAllOf all2) net2 settled2) as [rest Er].
    destruct (aggregate (showAllOf all2) net2 settled2) as [[l2|e2] reqs2];
      cbn [snd] in Er; subst reqs2; cbn; eauto.
Qed.

End CacheFacts.
End CacheFacts.

(* ================================================================== *)
(** * The two aggregations compared *)
(* ================================================================== *)

Module AgreementFacts.
Import Nova MonadFacts PromiseFacts NovaFacts AggregateFacts EmptyPageFacts
       PagingFacts.
Section AgreementFacts.

Context {RT : Runtime}.

Lemma filterM_app {A} (f : A -> result bool) a b :
  filterM f (a ++ b)
  = (ka <- filterM f a ;; kb <- filterM f b ;; Ok (ka ++ kb)).
Proof.
  induction a as [|x a IH]; cbn [app filterM bind].
  - now destruct (filterM f b).
  - destruct (f x) as [k|]; [|reflexivity]. cbn [bind]. rewrite IH.
    destruct (filterM f a) as [ka|]; [|reflexivity]. cbn [bind].
    destruct (filterM f b) as [kb|]; [|reflexivity]. cbn [bind].
    now destruct k.
Qed.

Lemma mapM_app {A B} (f : A -> result B) a b :
  mapM f (a ++ b) = (x <- mapM f a ;; y <- mapM f b ;; Ok (x ++ y)).
Proof.
  induction a as [|x a IH]; cbn [app mapM bind].
  - now destruct (mapM f b).
  - destruct (f x) as [k|]; [|reflexivity]. cbn [bind]. rewrite IH.
    destruct (mapM f a) as [ka|]; [|reflexivity]. cbn [bind].
    now destruct (mapM f b).
Qed.

Lemma shaped_fun showAll records es es' :
  shaped showAll records es -> shaped showAll records es' -> es = es'.
Proof. intros (k & Hk & He) (k' & Hk' & He'). congruence. Qed.

Lemma shaped_nil showAll es : shaped showAll [] es <-> es = [].
Proof.
  split.
  - intros (k & Hk & He). cbn in Hk. injection Hk as <-. cbn in He. congruence.
  - intros ->. now exists [].
Qed.

Lemma shaped_app showAll a b es :
  shaped showAll (a ++ b) es <->
  exists ea eb, shaped showAll a ea /\ shaped showAll b eb /\ es = ea ++ eb.
Proof.
  unfold shaped. rewrite filterM_app. split.
  - intros (k & Hk & He).
    destruct (filterM (keep showAll) a) as [ka|]; [|discriminate].
    destruct (filterM (keep showAll) b) as [kb|]; [|discriminate].
    cbn [bind] in Hk. injection Hk as <-. rewrite mapM_app in He.
    destruct (mapM parseBook ka) as [ea|] eqn:Ea; [|discriminate].
    destruct (mapM parseBook kb) as [eb|] eqn:Eb; [|discriminate].
    cbn [bind] in He. injection He as <-. exists ea, eb.
    split; [now exists ka|]. split; [now exists kb|reflexivity].
  - intros (ea & eb & (ka & -> & Ha) & (kb & -> & Hb) & ->).
    exists (ka ++ kb). split; [reflexivity|]. rewrite mapM_app, Ha, Hb.
    reflexivity.
Qed.

Lemma shaped_cons showAll b rest es :
  shaped showAll (b :: rest) es <->
  exists o er,
    Server.shape showAll b = Ok o /\ shaped showAll rest er
    /\ es = match o with Some e => e :: er | None => er end.
Proof.
  unfold shaped, Server.shape, keep. cbn [filterM]. split.
  - intros (k & Hk & He).
    destruct showAll.
    + cbn [bind] in *.
      destruct (filterM _ rest) as [kr|]; [|discriminate]. cbn [bind] in Hk.
      injection Hk as <-. cbn [mapM] in He.
      destruct (parseBook b) as [e|]; [|discriminate]. cbn [bind] in *.
      destruct (mapM parseBook kr) as [er|] eqn:Er; [|discriminate].
      cbn [bind] in He. injection He as <-. exists (Some e), er. eauto.
    + destruct (isJunkBook b) as [j|]; [|discriminate]. cbn [bind] in *.
      destruct (filterM _ rest) as [kr|]; [|discriminate]. cbn [bind] in Hk.
      injection Hk as <-. destruct j; cbn [negb] in *.
      * exists None, es. eauto.
      * cbn [mapM] in He.
        destruct (parseBook b) as [e|]; [|discriminate]. cbn [bind] in *.
        destruct (mapM parseBook kr) as [er|] eqn:Er; [|discriminate].
        cbn [bind] in He. injection He as <-. exists (Some e), er. eauto.
  - intros (o & er & Ho & (kr & Hk & Hr) & ->). rewrite Hk.
    destruct showAll.
    + cbn [bind] in *. destruct (parseBook b) as [e|] eqn:Eb; [|discriminate].
      cbn [bind] in Ho. injection Ho as <-. exists (b :: kr).
      split; [reflexivity|]. cbn [mapM]. rewrite Eb, Hr. reflexivity.
    + destruct (isJunkBook b) as [j|]; [|discriminate]. cbn [bind] in *.
      destruct j; cbn [negb].
      * injection Ho as <-. exists kr. auto.
      * destruct (parseBook b) as [e|] eqn:Eb; [|discriminate].
        cbn [bind] in Ho. injection Ho as <-. exists (b :: kr).
        split; [reflexivity|]. cbn [mapM]. rewrite Eb, Hr. reflexivity.
Qed.

(** The loop over the records of a page and the filter-then-map of the
    parallel servers build the same entries. *)
Lemma shapePage_shaped showAll : forall records acc l,
  Server.shapePage showAll records acc = Ok l <->
  exists es, shaped showAll records es /\ l = acc ++ es.
Proof.
  induction records as [|b rest IH]; intros acc l; cbn [Server.shapePage].
  - split.
    + intros [= <-]. exists []. rewrite app_nil_r.
      split; [now apply shaped_nil|reflexivity].
    + intros (es & He & ->). apply shaped_nil in He. subst es.
      now rewrite app_nil_r.
  - split.
    + destruct (Server.shape showAll b) as [o|] eqn:Eo; [|discriminate].
      cbn [bind]. rewrite IH. intros (er & Hr & ->).
      exists (match o with Some e => e :: er | None => er end). split.
      * apply shaped_cons. exists o, er. auto.
      * destruct o; [|reflexivity]. now rewrite <- app_assoc.
    + intros (es & He & ->). apply shaped_cons in He.
      destruct He as (o & er & -> & Hr & ->). cbn [bind]. apply IH.
      exists er. split; [exact Hr|].
      destruct o; [|reflexivity]. now rewrite <- app_assoc.
Qed.

(** a page that answers with a success status and a body that is an
    array with a record in it *)
Lemma pagesFrom_shaped showAll net : forall turns i acc reqs,
  (forall p, In p (pagesOf i turns) ->
     exists r b bs,
       net (booksUrl p) = Ok r /\ ok r = true /\ json r = Ok (VArr (b :: bs))) ->
  exists bodies,
    mapM (fetchPage net) (pagesOf i turns) = Ok bodies
    /\ (forall l,
          fst (Server.pagesFrom turns showAll net (Z.of_nat i) acc reqs) = Ok l
          <-> exists es, shaped showAll (flat bodies) es /\ l = acc ++ es)
    /\ (forall l,
          fst (Server.pagesFrom turns showAll net (Z.of_nat i) acc reqs) = Ok l ->
          snd (Server.pagesFrom turns showAll net (Z.of_nat i) acc reqs)
          = reqs ++ pagesOf i turns).
Proof.
  induction turns as [|turns IH]; intros i acc reqs H.
  - exists []. cbn. split; [reflexivity|]. split.
    + intros l. split.
      * intros [= <-]. exists []. rewrite app_nil_r.
        split; [now apply shaped_nil|reflexivity].
      * intros (es & He & ->). apply shaped_nil in He. subst es.
        now rewrite app_nil_r.
    + intros l _. now rewrite app_nil_r.
  - unfold pagesOf in *. cbn [seq List.map] in *.
    destruct (H (Z.of_nat i) (or_introl eq_refl)) as (r & b & bs & Hn & Hok & Hj).
    destruct (IH (S i) (match Server.shapePage showAll (b :: bs) acc with
                        | Ok acc' => acc'
                        | Throw _ => acc
                        end) (reqs ++ [Z.of_nat i])) as (bodies & Hb & Hl & Hs).
    { intros p Hp. apply H. now right. }
    exists (VArr (b :: bs) :: bodies). split; [|split].
    + cbn [mapM]. unfold fetchPage at 1. rewrite Hn. cbn [bind].
      rewrite Hok, Hj. cbn [negb bind]. now rewrite Hb.
    + intros l. cbn [Server.pagesFrom]. unfold Server.onePage.
      rewrite Hn, Hok, Hj. cbn [negb].
      change (flat (VArr (b :: bs) :: bodies)) with ((b :: bs) ++ flat bodies).
      setoid_rewrite shaped_app.
      replace (Z.of_nat i + 1)%Z with (Z.of_nat (S i)) by lia.
      destruct (Server.shapePage showAll (b :: bs) acc) as [acc'|e] eqn:Ep.
      * rewrite Hl. apply shapePage_shaped in Ep. destruct Ep as (e1 & H1 & ->).
        split.
        -- intros (es' & He' & ->). exists (e1 ++ es'). split.
           ++ exists e1, es'. auto.
           ++ now rewrite app_assoc.
        -- intros (es & (ea & eb & Ha & Hb' & ->) & ->).
           rewrite (shaped_fun Ha H1). exists eb. split; [exact Hb'|].
           now rewrite app_assoc.
      * split; [discriminate|].
        intros (es & (ea & eb & Ha & _ & _) & _). exfalso.
        assert (Server.shapePage showAll (b :: bs) acc = Ok (acc ++ ea)) as G.
        { apply shapePage_shaped. eauto. }
        congruence.
    + intros l. cbn [Server.pagesFrom]. unfold Server.onePage.
      rewrite Hn, Hok, Hj. cbn [negb].
      replace (Z.of_nat i + 1)%Z with (Z.of_nat (S i)) by lia.
      destruct (Server.shapePage showAll (b :: bs) acc) as [acc'|e] eqn:Ep;
        [|discriminate].
      intros G. rewrite (Hs l G), <- app_assoc. reflexivity.
Qed.

Lemma promiseAll_all_ok {A B} (f : A -> result B) l settled vs :
  mapM f l = Ok vs -> promiseAll (List.map f l) settled = Ok vs.
Proof.
  intros H. unfold promiseAll. rewrite firstRejected_none.
  - now rewrite mapM_map.
  - now apply mapM_ok_all with vs.
Qed.

Lemma remainingPages_pagesOf r1 :
  remainingPages (totalPagesOf r1) = pagesOf 2 (Z.to_nat (declared r1 - 1)).
Proof.
  unfold declared, pagesOf. destruct (totalPagesOf r1) as [n|].
  - apply remainingPages_seq.
  - reflexivity.
Qed.

Lemma turnsAfterFirst_declared r1 :
  Server.turnsAfterFirst (Ok r1) = Z.to_nat (declared r1 - 1).
Proof.
  unfold declared. cbn [Server.turnsAfterFirst].
  now destruct (totalPagesOf r1).
Qed.

(** X9.  When every page up to the declared count answers with a success
    status and an array holding a record, the sequential server and the
    parallel servers (on a cache miss) give the same answer: one sends a
    list if and only if the other does, and then the lists and the pages
    requested are the same. *)
Theorem aggregations_agree all now later net settled st r1 :
  net (booksUrl 1) = Ok r1 ->
  (forall p, (1 <= p <= Z.max 1 (declared r1))%Z ->
     exists r b bs,
       net (booksUrl p) = Ok r /\ ok r = true /\ json r = Ok (VArr (b :: bs))) ->
  servedFromCache (showAllOf all) st now = None ->
  (code (sent (Server.books all net)) = 200%Z
   <-> code (sent (fst (books all now later net settled st))) = 200%Z)
  /\ (code (sent (Server.books all net)) = 200%Z ->
      Server.books all net = fst (books all now later net settled st)).
Proof.
  intros H1 Hgood Hmiss.
  destruct (@pagesFrom_shaped (showAllOf all) net
              (S (Z.to_nat (declared r1 - 1))) 1 [] [])
    as (bodies & Hb & Hl & Hs).
  { intros p Hp. apply Hgood. unfold pagesOf in Hp. apply in_map_iff in Hp.
    destruct Hp as (i & <- & Hi). apply in_seq in Hi. lia. }
  change (Z.of_nat 1) with 1%Z in *.
  rewrite books_miss by exact Hmiss.
  unfold Server.books, Server.aggregate, aggregate. rewrite H1.
  rewrite turnsAfterFirst_declared, remainingPages_pagesOf.
  destruct (Hgood 1%Z ltac:(lia)) as (r & b & bs & Hn & Hok & Hj).
  rewrite H1 in Hn. injection Hn as <-. rewrite Hok, Hj. cbn [negb].
  unfold pagesOf in Hb. cbn [seq List.map mapM] in Hb.
  change (Z.of_nat 1) with 1%Z in Hb.
  unfold fetchPage in Hb at 1. rewrite H1 in Hb. cbn [bind] in Hb.
  rewrite Hok, Hj in Hb. cbn [negb bind] in Hb.
  fold (pagesOf 2 (Z.to_nat (declared r1 - 1))) in Hb.
  destruct (mapM (fetchPage net) (pagesOf 2 _)) as [rest|] eqn:Er;
    [|discriminate].
  cbn [bind] in Hb. injection Hb as <-.
  rewrite (promiseAll_all_ok _ _ settled Er). cbn [bind].
  destruct (Server.pagesFrom _ _ _ _ _ _) as [res reqs] eqn:Ep.
  cbn [fst snd] in Hl, Hs. unfold shapeAll.
  destruct res as [l|e].
  - destruct (proj1 (Hl l) eq_refl) as (es & (kept & Hk & He) & ->).
    rewrite (Hs _ eq_refl). cbn [app]. rewrite Hk. cbn [bind]. rewrite He.
    cbn [bind]. split; [tauto|reflexivity].
  - cbn [code sent booksFailure]. split; [|discriminate]. split; [discriminate|].
    destruct (filterM _ _) as [kept|] eqn:Ek; [|discriminate]. cbn [bind].
    destruct (mapM parseBook kept) as [es|] eqn:Ee; [|discriminate].
    exfalso. assert (Throw e = Ok ([] ++ es)) as G; [|discriminate G].
    apply Hl. exists es. split; [now exists kept|reflexivity].
Qed.

End AgreementFacts.
End AgreementFacts.

(* ================================================================== *)
(** * A page without records *)
(* ================================================================== *)

Module StopFacts.
Import Nova MonadFacts PromiseFacts NovaFacts AggregateFacts EmptyPageFacts
       PagingFacts AgreementFacts.
Section StopFacts.

Context {RT : Runtime}.

Lemma onePage_more showAll net p acc acc' :
  Server.onePage showAll (net (booksUrl p)) p acc = Server.More acc' ->
  exists b rest,
    answersWith net p (b :: rest)
    /\ Server.shapePage showAll (b :: rest) acc = Ok acc'.
Proof.
  unfold Server.onePage, answersWith.
  destruct (net (booksUrl p)) as [r|]; [|discriminate].
  destruct (ok r) eqn:Eok; cbn [negb]; [|discriminate].
  destruct (json r) as [v|] eqn:Ej; [|discriminate].
  destruct v as [| | | | |[|b rest]| |]; try discriminate.
  destruct (Server.shapePage showAll (b :: rest) acc) as [l|] eqn:Es;
    [|discriminate].
  intros [= <-]. exists b, rest. split; [|exact Es].
  exists r. repeat split; try assumption; try reflexivity. discriminate.
Qed.

(** When the loop comes to a page without records, what it returns are
    the entries of the pages before, which all had records. *)
Lemma pagesFrom_gathered showAll net : forall turns page acc reqs,
  exists news,
    snd (Server.pagesFrom turns showAll net page acc reqs) = reqs ++ news
    /\ forall p r v,
        In p news ->
        net (booksUrl p) = Ok r -> ok r = true -> json r = Ok v ->
        (forall b rest, v <> VArr (b :: rest)) ->
        exists before bodies es,
          news = before ++ [p]
          /\ Forall2 (answersWith net) before bodies
          /\ shaped showAll (List.concat bodies) es
          /\ fst (Server.pagesFrom turns showAll net page acc reqs)
             = Ok (acc ++ es).
Proof.
  induction turns as [|turns IH]; intros page acc reqs; cbn [Server.pagesFrom].
  - exists []. rewrite app_nil_r. split; [reflexivity|easy].
  - destruct (Server.onePage showAll (net (booksUrl page)) page acc)
      as [e0|  |acc'] eqn:E.
    + exists [page]. split; [reflexivity|]. intros p r v [<-|[]] Hn Hok Hj Hv.
      rewrite (@onePage_stop _ showAll net page acc r v Hn Hok Hj Hv) in E.
      discriminate.
    + exists [page]. split; [reflexivity|]. intros p r v [<-|[]] _ _ _ _.
      exists [], [], []. split; [reflexivity|]. split; [constructor|].
      split; [now apply shaped_nil|]. cbn [fst]. now rewrite app_nil_r.
    + destruct (IH (page + 1)%Z acc' (reqs ++ [page])) as (news & Hs & Hf).
      exists (page :: news). rewrite Hs, <- app_assoc. split; [reflexivity|].
      intros p r v [<-|Hin] Hn Hok Hj Hv.
      * rewrite (@onePage_stop _ showAll net page acc r v Hn Hok Hj Hv) in E.
        discriminate.
      * destruct (Hf p r v Hin Hn Hok Hj Hv)
          as (before & bodies & es & -> & Hgood & Hshaped & Hfst).
        destruct (onePage_more _ _ _ _ E) as (b & rest & Hpage & Hsp).
        apply shapePage_shaped in Hsp. destruct Hsp as (e1 & H1 & ->).
        exists (page :: before), ((b :: rest) :: bodies), (e1 ++ es).
        split; [reflexivity|]. split; [now constructor|]. split.
        -- cbn [List.concat]. apply shaped_app. exists e1, es. auto.
        -- rewrite Hfst. now rewrite app_assoc.
Qed.

(** C8, as amended.  In the sequential server a page that answers with a
    success status and an empty or non-array body ends the loop: it is
    the last page requested, the pages requested are 1, 2, ... up to it,
    and the reply is a 200 with the entries gathered so far, that is the
    entries of the records of the pages before it, each of which answered
    with records, filtered and shaped in the order of the pages, then
    sorted.  In the parallel servers, once page 1 has answered with a
    success status and a JSON body, every page from 2 to the declared
    count is requested, whatever the pages hold; when all of them can be
    read the list is made from all the bodies, and an empty page among
    them changes nothing in it. *)
Theorem empty_page_ends_sequential_only :
  (forall all net p r v,
      In p (snd (Server.aggregate (showAllOf all) net)) ->
      net (booksUrl p) = Ok r -> ok r = true -> json r = Ok v ->
      (forall b rest, v <> VArr (b :: rest)) ->
      exists before bodies allBooks,
        Server.aggregate (showAllOf all) net = (Ok allBooks, before ++ [p])
        /\ before ++ [p] = pagesOf 1 (S (List.length before))
        /\ Forall2 (answersWith net) before bodies
        /\ shaped (showAllOf all) (List.concat bodies) allBooks
        /\ Server.books all net =
           mkHandled (mkReply 200 (Books (Sort.sort Server.byTitle allBooks)))
             (List.map booksUrl (before ++ [p])))
  /\ (forall showAll net settled r1 v1,
         net (booksUrl 1) = Ok r1 -> ok r1 = true -> json r1 = Ok v1 ->
         snd (aggregate showAll net settled) =
         1%Z :: remainingPages (totalPagesOf r1))
  /\ (forall showAll net settled r1 bodies,
         net (booksUrl 1) = Ok r1 ->
         mapM (fetchPage net) (1%Z :: remainingPages (totalPagesOf r1))
         = Ok bodies ->
         aggregate showAll net settled =
         (shapeAll showAll bodies, 1%Z :: remainingPages (totalPagesOf r1)))
  /\ (forall showAll before after,
         shapeAll showAll (before ++ VArr [] :: after) =
         shapeAll showAll (before ++ after)).
Proof.
  split; [|split; [|split]].
  - intros all net p r v Hin Hn Hok Hj Hv.
    unfold Server.books, Server.aggregate in *.
    destruct (pagesFrom_gathered (showAllOf all) net
                (S (Server.turnsAfterFirst (net (booksUrl 1)))) 1 [] [])
      as (news & Hs & Hf).
    destruct (pagesFrom_consecutive (showAllOf all) net
                (S (Server.turnsAfterFirst (net (booksUrl 1)))) 1 [] [])
      as (k & _ & _ & Hk).
    change (Z.of_nat 1) with 1%Z in Hk.
    rewrite Hs in Hin. cbn [app] in Hin, Hs, Hk.
    destruct (Hf p r v Hin Hn Hok Hj Hv)
      as (before & bodies & es & -> & Hgood & Hshaped & Ha).
    exists before, bodies, es.
    destruct (Server.pagesFrom _ _ _ _ _ _) as [res reqs].
    cbn [fst snd app] in *. subst res reqs.
    split; [reflexivity|]. split; [|auto].
    rewrite Hk. unfold pagesOf. f_equal. f_equal.
    apply (f_equal (@List.length Z)) in Hk.
    rewrite length_app, length_map, length_seq in Hk. cbn in Hk. lia.
  - intros showAll net settled r1 v1 Hn Hok Hj. unfold aggregate.
    rewrite Hn, Hok, Hj. reflexivity.
  - intros showAll net settled r1 bodies Hn Hb. unfold aggregate.
    rewrite Hn. cbn [mapM] in Hb. unfold fetchPage in Hb at 1.
    rewrite Hn in Hb. cbn [bind] in Hb.
    destruct (ok r1); cbn [negb] in *; [|discriminate Hb].
    destruct (json r1) as [v1|]; cbn [bind] in Hb; [|discriminate Hb].
    destruct (mapM (fetchPage net) (remainingPages (totalPagesOf r1)))
      as [rest|] eqn:Er; cbn [bind] in Hb; [|discriminate Hb].
    injection Hb as <-. now rewrite (promiseAll_all_ok _ _ settled Er).
  - intros showAll before after. unfold shapeAll.
    rewrite !flat_app. reflexivity.
Qed.

End StopFacts.
End StopFacts.

(* ================================================================== *)
(** * Records that cannot be shaped *)
(* ================================================================== *)

Module RecordFacts.
Import Nova MonadFacts PromiseFacts NovaFacts AggregateFacts AgreementFacts.
Section RecordFacts.

Context {RT : Runtime}.

Lemma shaped_each showAll : forall records es,
  shaped showAll records es ->
  forall b, In b records -> exists o, Server.shape showAll b = Ok o.
Proof.
  induction records as [|x records IH]; intros es H b Hin; [easy|].
  apply shaped_cons in H. destruct H as (o & er & Ho & Hr & _).
  destruct Hin as [<-|Hin]; [eauto|]. now apply IH with er.
Qed.

(** X10.  One record of page 1 on which the junk test or the construction
    of the entry throws (a [null] among the records, a link that is not a
    string, ...) fails the whole listing: every server answers 502, and
    the parallel servers leave the cache as it was. *)
Theorem malformed_record_fails all now later net settled st r1 records b e :
  net (booksUrl 1) = Ok r1 ->
  json r1 = Ok (VArr records) ->
  In b records ->
  Server.shape (showAllOf all) b = Throw e ->
  servedFromCache (showAllOf all) st now = None ->
  code (sent (Server.books all net)) = 502%Z
  /\ code (sent (fst (books all now later net settled st))) = 502%Z
  /\ snd (books all now later net settled st) = st.
Proof.
  intros H1 Hj Hin Hb Hmiss.
  assert (Hno : forall es, ~ shaped (showAllOf all) records es).
  { intros es Hs. destruct (shaped_each Hs b Hin) as [o Ho]. congruence. }
  split.
  - unfold Server.books, Server.aggregate. cbn [Server.pagesFrom].
    unfold Server.onePage. rewrite H1, Hj.
    destruct (negb (ok r1)); [reflexivity|].
    destruct records as [|x rest]; [easy|].
    destruct (Server.shapePage (showAllOf all) (x :: rest) []) as [l|e'] eqn:Ep;
      [|reflexivity].
    apply shapePage_shaped in Ep. destruct Ep as (es & Hs & _).
    now destruct (Hno es).
  - rewrite books_miss by exact Hmiss. unfold aggregate. rewrite H1, Hj.
    destruct (negb (ok r1)); [now split|].
    destruct (promiseAll _ settled) as [rest|e']; [|now split].
    cbn [bind]. unfold shapeAll.
    change (flat (VArr records :: rest)) with (records ++ flat rest).
    destruct (filterM _ _) as [kept|] eqn:Ek; [|now split]. cbn [bind].
    destruct (mapM parseBook kept) as [es|] eqn:Ee; [|now split].
    exfalso.
    assert (shaped (showAllOf all) (records ++ flat rest) es) as Hs
      by now exists kept.
    apply shaped_app in Hs. destruct Hs as (ea & eb & Ha & _ & _).
    now destruct (Hno ea).
Qed.

End RecordFacts.
End RecordFacts.

(* ================================================================== *)
(** * The table of contents and the replies of the content handlers *)
(* ================================================================== *)

Module TocFacts.
Import Content Nova MonadFacts StringFacts ContentFacts.
Section TocFacts.

Context {RT : Runtime}.

Lemma filterM_In {A} (f : A -> result bool) : forall l kept,
  filterM f l = Ok kept ->
  forall a, In a kept -> In a l /\ f a = Ok true.
Proof.
  induction l as [|x l IH]; intros kept; cbn [filterM].
  - intros [= <-] a [].
  - destruct (f x) as [k|] eqn:Ex; [|discriminate]. cbn [bind].
    destruct (filterM f l) as [rest|]; [|discriminate]. cbn [bind].
    intros [= <-] a Hin. destruct k.
    + destruct Hin as [<-|Hin]; [auto using in_eq|].
      destruct (IH rest eq_refl a Hin). auto using in_cons.
    + destruct (IH rest eq_refl a Hin). auto using in_cons.
Qed.

Lemma filterM_length {A} (f : A -> result bool) : forall l kept,
  filterM f l = Ok kept -> List.length kept <= List.length l.
Proof.
  induction l as [|x l IH]; intros kept; cbn [filterM].
  - now intros [= <-].
  - destruct (f x) as [k|]; [|discriminate]. cbn [bind].
    destruct (filterM f l) as [rest|]; [|discriminate]. cbn [bind].
    intros [= <-]. specialize (IH rest eq_refl). destruct k; cbn; lia.
Qed.

Lemma mapM_In {A B} (f : A -> result B) : forall l bs,
  mapM f l = Ok bs -> forall b, In b bs -> exists a, In a l /\ f a = Ok b.
Proof.
  induction l as [|x l IH]; intros bs; cbn [mapM].
  - intros [= <-] b [].
  - destruct (f x) as [y|] eqn:Ex; [|discriminate]. cbn [bind].
    destruct (mapM f l) as [rest|]; [|discriminate]. cbn [bind].
    intros [= <-] b [<-|Hin].
    + exists x. auto using in_eq.
    + destruct (IH rest eq_refl b Hin) as (a & Ha & Hf).
      exists a. auto using in_cons.
Qed.

Lemma asArray_or ps raws :
  asArray (or_ ps (VArr [])) = Ok raws -> raws = arrayOrEmpty ps.
Proof.
  unfold or_. destruct (truthy ps) eqn:Et; intros H.
  - destruct ps; cbn in H; try discriminate H; try discriminate Et.
    now injection H as <-.
  - cbn in H. injection H as <-.
    destruct ps; try reflexivity; discriminate Et.
Qed.

Lemma or_truthy a b : truthy b = true -> truthy (or_ a b) = true.
Proof. unfold or_. now destruct (truthy a) eqn:E. Qed.

(** X11.  What [/api/toc] lists.  Every part listed has at least one
    chapter and comes from a part of the upstream table; every chapter
    listed comes from a chapter of that part whose status is [publish] and
    which has content; no title is absent or empty; and no more parts are
    listed than the upstream table has. *)
Theorem simplifyToc_lists_published t parts :
  simplifyToc t = Ok parts ->
  (forall p, In p parts ->
     p_chapters p <> []
     /\ truthy (p_title p) = true
     /\ exists raw chapters,
          In raw (arrayOrEmpty (getOpt t (str "parts")))
          /\ get raw (str "chapters") = Ok (VArr chapters)
          /\ get raw (str "id") = Ok (p_id p)
          /\ forall c, In c (p_chapters p) ->
               truthy (c_title c) = true
               /\ exists rawc,
                    In rawc chapters
                    /\ published rawc = Ok true
                    /\ simplifyChapter rawc = Ok c)
  /\ List.length parts <= List.length (arrayOrEmpty (getOpt t (str "parts"))).
Proof.
  unfold simplifyToc. unfold getOpt.
  destruct (get t (str "parts")) as [ps|]; [|discriminate]. cbn [bind].
  destruct (asArray (or_ ps (VArr []))) as [raws|] eqn:Ea; [|discriminate].
  cbn [bind].
  apply asArray_or in Ea. subst raws.
  destruct (filterM hasChapters (arrayOrEmpty ps)) as [withChapters|] eqn:Ef; [|discriminate].
  cbn [bind].
  destruct (mapM simplifyPart withChapters) as [simplified|] eqn:Em;
    [|discriminate].
  cbn [bind]. intros [= <-]. split.
  - intros p Hp. apply filter_In in Hp. destruct Hp as [Hp Hne].
    split; [now destruct (p_chapters p)|].
    destruct (mapM_In _ _ Em p Hp) as (raw & Hraw & Hs).
    destruct (filterM_In _ _ Ef raw Hraw) as [Hin Hhas].
    unfold simplifyPart in Hs. unfold hasChapters in Hhas.
    destruct (get raw (str "id")) as [pid|] eqn:Eid; [|discriminate].
    destruct (get raw (str "title")) as [pt|]; [|discriminate].
    destruct (get raw (str "chapters")) as [cs|] eqn:Ecs; [|discriminate].
    cbn [bind] in *.
    destruct cs as [| | | | |[|c0 chapters]| |]; try discriminate.
    cbn [arrayOrEmpty] in Hs.
    destruct (filterM published (c0 :: chapters)) as [kept|] eqn:Ek;
      [|discriminate].
    cbn [bind] in Hs.
    destruct (mapM simplifyChapter kept) as [cs|] eqn:Ec; [|discriminate].
    cbn [bind] in Hs. injection Hs as <-. cbn [p_title p_chapters p_id].
    split; [now apply or_truthy|].
    exists raw, (c0 :: chapters). split; [exact Hin|].
    split; [exact Ecs|]. split; [exact Eid|].
    intros c Hc. destruct (mapM_In _ _ Ec c Hc) as (rawc & Hrawc & Hsc).
    destruct (filterM_In _ _ Ek rawc Hrawc) as [Hinc Hpub]. split; [|eauto].
    unfold simplifyChapter in Hsc.
    destruct (get rawc (str "id")); [|discriminate].
    destruct (get rawc (str "title")); [|discriminate].
    destruct (get rawc (str "slug")); [|discriminate].
    destruct (get rawc (str "link")); [|discriminate].
    destruct (get rawc (str "word_count")); [|discriminate].
    cbn [bind] in Hsc. injection Hsc as <-. cbn [c_title].
    now apply or_truthy.
  - pose proof (filter_length_le
                  (fun p => match p_chapters p with [] => false | _ => true end)
                  simplified) as H1.
    pose proof (CacheFacts.mapM_length _ _ Em) as H2.
    pose proof (filterM_length _ _ Ef) as H3. lia.
Qed.

Lemma fetchJson_ok net url v :
  fetchJson net url = Ok v ->
  exists r, net url = Ok r /\ ok r = true /\ json r = Ok v.
Proof.
  unfold fetchJson. destruct (net url) as [r|]; [|discriminate]. cbn [bind].
  destruct (ok r) eqn:Eok; [|discriminate]. cbn [negb]. intros H.
  exists r. auto.
Qed.

Lemma fetchJson_status net url r :
  net url = Ok r -> ok r = false ->
  fetchJson net url = Throw (Error (str "HTTP " ++ dec (status r))).
Proof. unfold fetchJson. intros -> H. cbn [bind]. now rewrite H. Qed.

(** X12.  The replies of [/api/toc] and [/api/chapter].  A refusal (400)
    is sent without any request; otherwise exactly one request is made, to
    the book's own REST route, and the reply is a 200 or a 502.  A 200
    means the upstream answered with a success status and a JSON body; an
    upstream answer with another status gives a 502 whose message carries
    that status. *)
Theorem content_replies bookUrl chapterId net :
  let t := toc bookUrl net in
  let c := chapter bookUrl chapterId net in
  (((code (sent t) = 400%Z /\ requests t = [])
    \/ exists u,
         bookUrl = Some u
         /\ requests t = [u ++ str "/wp-json/pressbooks/v2/toc"]
         /\ (code (sent t) = 200%Z \/ code (sent t) = 502%Z))
   /\ (forall url, requests t = [url] ->
         (code (sent t) = 200%Z ->
          exists r v, net url = Ok r /\ ok r = true /\ json r = Ok v)
         /\ (forall r, net url = Ok r -> ok r = false ->
               sent t = mkReply 502
                          (ErrorBody (str "Could not fetch table of contents: "
                                      ++ str "HTTP " ++ dec (status r))))))
  /\ (((code (sent c) = 400%Z /\ requests c = [])
       \/ exists u i,
            bookUrl = Some u /\ chapterId = Some i
            /\ requests c = [u ++ str "/wp-json/pressbooks/v2/chapters/" ++ i]
            /\ (code (sent c) = 200%Z \/ code (sent c) = 502%Z))
      /\ (forall url, requests c = [url] ->
            (code (sent c) = 200%Z ->
             exists r v, net url = Ok r /\ ok r = true /\ json r = Ok v)
            /\ (forall r, net url = Ok r -> ok r = false ->
                  sent c = mkReply 502
                             (ErrorBody (str "Could not fetch chapter: "
                                         ++ str "HTTP " ++ dec (status r)))))).
Proof.
  cbv zeta. split.
  - unfold toc. destruct bookUrl as [[|c0 u]|];
      try (split; [left; now split|discriminate]).
    destruct (checkBookUrl_cases (c0 :: u)) as [(r & -> & Hc & Hq) | -> ].
    { split; [left; now split|]. intros url H. congruence. }
    split.
    + right. exists (c0 :: u). split; [reflexivity|].
      destruct (_ <- fetchJson net _ ;; simplifyToc _); cbn; auto.
    + intros url Hreq.
      assert (url = (c0 :: u) ++ str "/wp-json/pressbooks/v2/toc") as ->.
      { destruct (_ <- fetchJson net _ ;; simplifyToc _);
          cbn [requests] in Hreq; now injection Hreq as <-. }
      split.
      * intros Hcode.
        destruct (fetchJson net _) as [v|] eqn:Ev; [|discriminate Hcode].
        destruct (fetchJson_ok _ _ Ev) as (r & Hr). eauto.
      * intros r Hn Hok. now rewrite (fetchJson_status _ _ Hn Hok).
  - unfold chapter. destruct bookUrl as [[|c0 u]|];
      try (split; [left; now split|discriminate]).
    destruct chapterId as [[|d i]|];
      try (split; [left; now split|discriminate]).
    destruct (checkBookUrl_cases (c0 :: u)) as [(r & -> & Hc & Hq) | -> ].
    { split; [left; now split|]. intros url H. congruence. }
    split.
    + right. exists (c0 :: u), (d :: i). split; [reflexivity|].
      split; [reflexivity|].
      destruct (_ <- fetchJson net _ ;; shapeChapter _); cbn; auto.
    + intros url Hreq.
      assert (url = (c0 :: u) ++ str "/wp-json/pressbooks/v2/chapters/" ++ d :: i)
        as ->.
      { destruct (_ <- fetchJson net _ ;; shapeChapter _);
          cbn [requests] in Hreq; now injection Hreq as <-. }
      split.
      * intros Hcode.
        destruct (fetchJson net _) as [v|] eqn:Ev; [|discriminate Hcode].
        destruct (fetchJson_ok _ _ Ev) as (r & Hr). eauto.
      * intros r Hn Hok. now rewrite (fetchJson_status _ _ Hn Hok).
Qed.

End TocFacts.
End TocFacts.

(* ================================================================== *)
(** * The hosts [/api/fetch-url] refuses, and its replies *)
(* ================================================================== *)

Module BlocklistFacts.
Import FetchUrl StringFacts TidyFacts WordFacts.
Local Open Scope regex_scope.

Lemma testAnchored_run r s : testAnchored r s = true <-> run r s <> [].
Proof.
  unfold testAnchored, matchHere. destruct (run r s); cbn; split; easy.
Qed.

Lemma run_cat_assoc a b r s :
  run ((a +++ b) +++ r) s = run (a +++ b +++ r) s.
Proof.
  cbn [run]. induction (run a s) as [|x l IH]; [reflexivity|].
  cbn [flat_map]. now rewrite flat_map_app, IH.
Qed.

Lemma run_cat_lit p r : forall s,
  run (lit p +++ r) s
  = if startsWith s p then run r (skipn (List.length p) s) else [].
Proof.
  induction p as [|c p IH]; intros s.
  - cbn. destruct s; cbn; now rewrite app_nil_r.
  - cbn [lit]. rewrite run_cat_assoc.
    change (run (one c +++ lit p +++ r) s)
      with (flat_map (run (lit p +++ r)) (run (one c) s)).
    destruct s as [|x s]; [reflexivity|].
    change (run (one c) (x :: s)) with (if eqc c x then [s] else []).
    cbn [startsWith List.length skipn].
    destruct (eqc c x); cbn [flat_map andb]; [|reflexivity].
    now rewrite app_nil_r, IH.
Qed.

Lemma testAnchored_lit_iff p h :
  testAnchored (lit p) h = true <-> exists rest, h = p ++ rest.
Proof.
  rewrite <- startsWith_spec, testAnchored_run.
  assert (run (lit p) h = run (lit p +++ Eps) h) as ->.
  { cbn [run]. induction (run (lit p) h) as [|x l IH]; [reflexivity|].
    cbn. now rewrite <- IH. }
  rewrite run_cat_lit. destruct (startsWith h p); cbn; split; easy.
Qed.

Lemma one_ci_lower c x :
  isLowerAZ c = true ->
  (eqc x (lowerAZ c) || eqc x (upperAZ c) = true <-> lowerAZ x = c).
Proof.
  unfold lowerAZ, upperAZ, isLowerAZ, isUpperAZ, eqc. intros H. rewrite H.
  apply andb_true_iff in H. destruct H as [H1 H2].
  apply N.leb_le in H1, H2.
  assert ((65 <=? c) && (c <=? 90) = false)%N as ->.
  { apply andb_false_iff. right. apply N.leb_gt. lia. }
  rewrite orb_true_iff, !N.eqb_eq.
  destruct ((65 <=? x) && (x <=? 90))%N eqn:E.
  - apply andb_true_iff in E. destruct E as [E1 E2].
    apply N.leb_le in E1, E2. lia.
  - apply andb_false_iff in E. rewrite !N.leb_gt in E. lia.
Qed.

Lemma testAnchored_lit_ci p : forall h,
  Forall (fun c => isLowerAZ c = true) p ->
  (testAnchored (lit_ci p) h = true <->
   exists pre rest, h = pre ++ rest /\ List.map lowerAZ pre = p).
Proof.
  induction p as [|c p IH]; intros h Hp.
  - cbn. split; [intros _; now exists [], h|reflexivity].
  - inversion Hp as [|? ? Hc Hp']; subst. rewrite testAnchored_run.
    cbn [lit_ci run one_ci]. destruct h as [|x h].
    + cbn. split; [easy|]. intros (pre & rest & H & Hm).
      destruct pre; discriminate.
    + destruct (eqc x (lowerAZ c) || eqc x (upperAZ c)) eqn:E.
      * apply (@one_ci_lower c x Hc) in E. cbn [flat_map]. rewrite app_nil_r.
        rewrite <- testAnchored_run, (IH h Hp'). split.
        -- intros (pre & rest & -> & Hm). exists (x :: pre), rest.
           cbn. now rewrite E, Hm.
        -- intros (pre & rest & H & Hm). destruct pre as [|y pre];
             [discriminate|].
           cbn in H, Hm. injection H as <- ->. injection Hm as _ Hm. eauto.
      * cbn. split; [easy|]. intros (pre & rest & H & Hm).
        destruct pre as [|y pre]; [discriminate|].
        cbn in H, Hm. injection H as <- ->. injection Hm as Hx _.
        apply (@one_ci_lower c x Hc) in Hx. congruence.
Qed.

(** the two digits after [172.] that the fifth pattern accepts *)
Lemma private_172 a b :
  (eqc (ch "1") a && range "6" "9" b)
  || (eqc (ch "2") a && range "0" "9" b)
  || (eqc (ch "3") a && range "0" "1" b) = true
  <-> isDigit a = true /\ isDigit b = true
      /\ (16 <= 10 * (a - 48) + (b - 48) <= 31)%N.
Proof.
  unfold eqc, range, isDigit, ch.
  change (N_of_ascii "0") with 48%N. change (N_of_ascii "1") with 49%N.
  change (N_of_ascii "2") with 50%N. change (N_of_ascii "3") with 51%N.
  change (N_of_ascii "6") with 54%N. change (N_of_ascii "9") with 57%N.
  rewrite !orb_true_iff, !andb_true_iff, !N.eqb_eq, !N.leb_le. lia.
Qed.

Lemma run_pair p q s :
  run (Chr p +++ Chr q) s
  = match s with
    | a :: b :: rest => if p a && q b then [rest] else []
    | _ => []
    end.
Proof.
  destruct s as [|a [|b rest]]; cbn [run flat_map]; try reflexivity.
  - now destruct (p a).
  - destruct (p a); cbn [flat_map andb app]; [|reflexivity].
    now destruct (q b).
Qed.

Lemma run_three p1 q1 p2 q2 p3 q3 dot s :
  run (alts [Chr p1 +++ Chr q1; Chr p2 +++ Chr q2; Chr p3 +++ Chr q3]
       +++ Chr dot) s <> []
  <-> exists a b d rest,
        s = a :: b :: d :: rest
        /\ (p1 a && q1 b) || (p2 a && q2 b) || (p3 a && q3 b) = true
        /\ dot d = true.
Proof.
  change (run (alts [Chr p1 +++ Chr q1; Chr p2 +++ Chr q2; Chr p3 +++ Chr q3]
               +++ Chr dot) s)
    with (flat_map (run (Chr dot))
            (run (Chr p1 +++ Chr q1) s ++ run (Chr p2 +++ Chr q2) s
             ++ run (Chr p3 +++ Chr q3) s)).
  rewrite !run_pair. destruct s as [|a [|b [|d rest]]].
  - split; [easy|]. intros (a & b & d & rest & H & _). discriminate.
  - split; [easy|]. intros (a' & b & d & rest & H & _). discriminate.
  - split.
    + intros H. exfalso. apply H.
      destruct (p1 a && q1 b), (p2 a && q2 b), (p3 a && q3 b); reflexivity.
    + intros (a' & b' & d & rest & H & _). discriminate.
  - split.
    + intros H. exists a, b, d, rest. split; [reflexivity|].
      destruct (dot d) eqn:Ed.
      * split; [|reflexivity].
        destruct (p1 a && q1 b), (p2 a && q2 b), (p3 a && q3 b);
          try reflexivity. now destruct H.
      * exfalso. apply H.
        destruct (p1 a && q1 b), (p2 a && q2 b), (p3 a && q3 b);
          cbn [flat_map app run]; rewrite ?Ed; reflexivity.
    + intros (a' & b' & d' & rest' & H & Hc & Hd). injection H as <- <- <- <-.
      destruct (p1 a && q1 b), (p2 a && q2 b), (p3 a && q3 b);
        try discriminate Hc; cbn [flat_map app run]; rewrite Hd; discriminate.
Qed.

Lemma testAnchored_172 h :
  testAnchored
    (lit (str "172.") +++
     alts [ one (ch "1") +++ Chr (range "6" "9");
            one (ch "2") +++ Chr (range "0" "9");
            one (ch "3") +++ Chr (range "0" "1") ] +++
     one (ch ".")) h = true
  <-> exists a b rest,
        h = str "172." ++ a :: b :: ch "." :: rest
        /\ isDigit a = true /\ isDigit b = true
        /\ (16 <= 10 * (a - 48) + (b - 48) <= 31)%N.
Proof.
  rewrite testAnchored_run, run_cat_lit.
  destruct (startsWith h (str "172.")) eqn:Es.
  - apply startsWith_spec in Es. destruct Es as [rest ->].
    change (skipn (List.length (str "172.")) (str "172." ++ rest)) with rest.
    unfold one. rewrite run_three. split.
    + intros (a & b & d & r & -> & Hc & Hd). apply N.eqb_eq in Hd. subst d.
      exists a, b, r. split; [reflexivity|]. now apply private_172.
    + intros (a & b & r & H & Hc). apply app_inv_head in H. subst rest.
      exists a, b, (ch "."), r. split; [reflexivity|].
      split; [now apply private_172|]. apply N.eqb_refl.
  - split; [easy|]. intros (a & b & rest & -> & _).
    rewrite (proj2 (startsWith_spec _ (str "172."))) in Es; [discriminate|].
    now exists (a :: b :: ch "." :: rest).
Qed.

(** X13.  The host names the blocklist matches: those that start with
    [localhost] in any mix of upper and lower case, with [127.], [10.] or
    [192.168.], or with [172.] followed by a number from 16 to 31 and a
    dot. *)
Theorem blocklist_hosts h :
  existsb (fun re => testAnchored re h) FETCH_URL_BLOCKLIST = true <->
  (exists pre rest, h = pre ++ rest /\ List.map lowerAZ pre = str "localhost")
  \/ (exists rest, h = str "127." ++ rest)
  \/ (exists rest, h = str "10." ++ rest)
  \/ (exists rest, h = str "192.168." ++ rest)
  \/ (exists a b rest,
        h = str "172." ++ a :: b :: ch "." :: rest
        /\ isDigit a = true /\ isDigit b = true
        /\ (16 <= 10 * (a - 48) + (b - 48) <= 31)%N).
Proof.
  unfold FETCH_URL_BLOCKLIST. cbn [existsb].
  rewrite !orb_true_iff, !testAnchored_lit_iff, testAnchored_172.
  rewrite testAnchored_lit_ci by (repeat constructor).
  intuition discriminate.
Qed.

End BlocklistFacts.

Module FetchReplyFacts.
Import FetchUrl StringFacts TidyFacts WordFacts.
Section FetchReplyFacts.

Context {RT : Runtime}.

Lemma failed_codes e :
  (name e = str "AbortError" /\ code (failed e) = 504%Z)
  \/ (name e <> str "AbortError"
      /\ failed e = mkReply 502 (ErrorBody (str "Could not fetch URL: "
                                            ++ message e))).
Proof.
  unfold failed. destruct (eqs (name e) (str "AbortError")) eqn:E.
  - left. split; [now apply eqs_eq|reflexivity].
  - right. split; [|reflexivity]. intros H. apply eqs_eq in H. congruence.
Qed.

Lemma extract_cases parsed r rep :
  extract parsed r = Ok rep ->
  ok r = true
  /\ (code rep = 415%Z \/ code rep = 422%Z
      \/ exists html x,
           text r = Ok html /\ rep = mkReply 200 (Page x)
           /\ x_text x = htmlToPlainText html
           /\ 20 <= List.length (x_text x)
           /\ 1 <= x_wordCount x
           /\ (x_title x = hostname parsed \/ Trimmed (x_title x))).
Proof.
  unfold extract. destruct (ok r); [|discriminate]. cbn [negb].
  intros H. split; [reflexivity|]. revert H.
  destruct (_ && _); [intros [= <-]; now left|].
  destruct (text r) as [html|]; [|discriminate]. cbn [bind].
  destruct (Nat.ltb_spec (List.length (htmlToPlainText html)) 20) as [Hl|Hl];
    intros [= <-]; [right; now left|].
  right. right. eexists html, _. split; [reflexivity|]. split; [reflexivity|].
  cbn [x_text x_wordCount x_title]. split; [reflexivity|]. split; [exact Hl|].
  split.
  - assert (Trimmed (htmlToPlainText html)) as Ht by apply trim_Trimmed.
    destruct (countWords false (htmlToPlainText html)) eqn:Ec; [|lia].
    apply (countWords_zero Ht) in Ec. rewrite Ec in Hl. cbn in Hl. lia.
  - destruct (firstGroup _ _ _ html); [right; apply trim_Trimmed|now left].
Qed.

(** X14.  The replies of [/api/fetch-url].  Either the request is refused
    with a 400 and nothing is fetched, or exactly the given URL is
    fetched, once; it then parses, has scheme http or https and a host
    name the blocklist does not match, and the reply is one of 200, 415,
    422, 502 and 504.  A 200 carries the plain text of the body, at least
    20 code units and one word of it, and a title that is trimmed or the
    host name.  A 504 is sent only when the fetch, or the reading of the
    body, rejected with an error named [AbortError], and it is sent
    whenever the fetch did. *)
Theorem fetch_url_replies url net :
  let h := fetchUrl url net in
  (requests h = [] /\ code (sent h) = 400%Z)
  \/ exists u parsed,
       url = Some u /\ requests h = [u] /\ parseURL u = Some parsed
       /\ (protocol parsed = str "http:" \/ protocol parsed = str "https:")
       /\ existsb (fun re => testAnchored re (hostname parsed))
            FETCH_URL_BLOCKLIST = false
       /\ In (code (sent h)) [200; 415; 422; 502; 504]%Z
       /\ (code (sent h) = 200%Z ->
           exists r html x,
             net u = Ok r /\ ok r = true /\ text r = Ok html
             /\ payload (sent h) = Page x
             /\ x_text x = htmlToPlainText html
             /\ 20 <= List.length (x_text x)
             /\ 1 <= x_wordCount x
             /\ (x_title x = hostname parsed \/ Trimmed (x_title x)))
       /\ (code (sent h) = 504%Z ->
           exists e,
             name e = str "AbortError"
             /\ (net u = Throw e
                 \/ exists r, net u = Ok r /\ ok r = true /\ text r = Throw e))
       /\ (forall e, net u = Throw e -> name e = str "AbortError" ->
             code (sent h) = 504%Z).
Proof.
  cbv zeta. unfold fetchUrl.
  destruct url as [[|c0 u]|]; try (left; now split).
  destruct (parseURL (c0 :: u)) as [parsed|] eqn:Ep; [|left; now split].
  destruct (existsb (eqs (protocol parsed)) [str "http:"; str "https:"]) eqn:Es;
    cbn [negb]; [|left; now split].
  destruct (existsb _ FETCH_URL_BLOCKLIST) eqn:Eb; [left; now split|].
  right. exists (c0 :: u), parsed. split; [reflexivity|].
  assert (Hs : protocol parsed = str "http:" \/ protocol parsed = str "https:").
  { cbn [existsb] in Es. rewrite !orb_true_iff in Es.
    destruct Es as [H|[H|H]]; [| |discriminate]; apply eqs_eq in H; auto. }
  destruct (net (c0 :: u)) as [r|e] eqn:En; cbn [bind].
  - destruct (extract parsed r) as [rep|e] eqn:Ex.
    + destruct (extract_cases _ _ Ex) as [Hok Hc]. cbn [requests sent].
      split; [reflexivity|]. split; [exact Ep|]. split; [exact Hs|].
      split; [exact Eb|].
      destruct Hc as [Hc|[Hc|(html & x & Ht & -> & Hx)]].
      * rewrite Hc. split; [cbn; auto|].
        split; [discriminate|]. split; [discriminate|]. discriminate.
      * rewrite Hc. split; [cbn; auto 6|].
        split; [discriminate|]. split; [discriminate|]. discriminate.
      * cbn [code payload]. split; [cbn; auto|]. split.
        -- intros _. exists r, html, x. auto.
        -- split; discriminate.
    + cbn [requests sent].
      split; [reflexivity|]. split; [exact Ep|]. split; [exact Hs|].
      split; [exact Eb|].
      assert (ok r = true /\ text r = Throw e \/ ok r = false) as Hwhy.
      { unfold extract in Ex. destruct (ok r); [|now right]. cbn [negb] in Ex.
        destruct (_ && _); [discriminate|].
        destruct (text r) as [html|e']; cbn [bind] in Ex.
        - destruct (_ <? _); discriminate.
        - left. split; [reflexivity|congruence]. }
      destruct (failed_codes e) as [[Hn Hc]|[Hn Hc]].
      * rewrite Hc. split; [cbn; auto 8|]. split; [discriminate|].
        split; [|discriminate]. intros _. exists e. split; [exact Hn|].
        right. exists r. split; [reflexivity|].
        destruct Hwhy as [[Hok Ht]|Hok]; [auto|].
        exfalso. unfold extract in Ex. rewrite Hok in Ex. cbn [negb] in Ex.
        injection Ex as <-. cbn in Hn. discriminate Hn.
      * rewrite Hc. cbn [code]. split; [cbn; auto 8|].
        split; [discriminate|]. split; discriminate.
  - cbn [requests sent].
    split; [reflexivity|]. split; [exact Ep|]. split; [exact Hs|].
    split; [exact Eb|].
    destruct (failed_codes e) as [[Hn Hc]|[Hn Hc]].
    + rewrite Hc. split; [cbn; auto 8|]. split; [discriminate|]. split.
      * intros _. exists e. auto.
      * intros e' [= <-] _. reflexivity.
    + rewrite Hc. cbn [code]. split; [cbn; auto 8|].
      split; [discriminate|]. split; [discriminate|].
      intros e' [= <-] H. now destruct Hn.
Qed.

End FetchReplyFacts.
End FetchReplyFacts.

(* ================================================================== *)
(** * The junk filter only leaves entries out *)
(* ================================================================== *)

Module FilterFacts.
Import Nova MonadFacts PromiseFacts NovaFacts AggregateFacts AgreementFacts.

Section Subsequences.

Variable A : Type.

Lemma Subsequence_refl (l : list A) : Subsequence l l.
Proof. induction l; [apply sub_nil|now apply sub_take]. Qed.

Lemma Subsequence_In (l1 l2 : list A) :
  Subsequence l1 l2 -> forall x, In x l1 -> In x l2.
Proof.
  induction 1 as [|y l1 l2 _ IH|y l1 l2 _ IH]; intros x Hx.
  - easy.
  - right. now apply IH.
  - destruct Hx as [<-|Hx]; [now left|right; now apply IH].
Qed.

Lemma Subsequence_app (a1 a2 b1 b2 : list A) :
  Subsequence a1 a2 -> Subsequence b1 b2 -> Subsequence (a1 ++ b1) (a2 ++ b2).
Proof.
  induction 1 as [|y l1 l2 _ IH|y l1 l2 _ IH]; cbn [app]; intros Hb.
  - exact Hb.
  - apply sub_skip. now apply IH.
  - apply sub_take. now apply IH.
Qed.

Variable cmp : A -> A -> Z.
Hypothesis consistent : Sort.Consistent cmp.

Lemma insert_least x l :
  Forall (Sort.le cmp x) l -> Sort.insert cmp x l = x :: l.
Proof.
  destruct l as [|y l]; [reflexivity|]. intros H. inversion H as [|? ? Hy _].
  cbn [Sort.insert]. unfold Sort.le in Hy.
  destruct (Z.ltb_spec 0 (cmp x y)); [lia|reflexivity].
Qed.

Lemma Subsequence_insert_right x (l1 l2 : list A) :
  Subsequence l1 l2 -> Subsequence l1 (Sort.insert cmp x l2).
Proof.
  induction 1 as [|y l1 l2 H IH|y l1 l2 H IH]; cbn [Sort.insert].
  - apply sub_skip, sub_nil.
  - destruct (0 <? cmp x y)%Z.
    + apply sub_skip, IH.
    + apply sub_skip, sub_skip, H.
  - destruct (0 <? cmp x y)%Z.
    + apply sub_take, IH.
    + apply sub_skip, sub_take, H.
Qed.

Lemma Subsequence_insert x (l1 l2 : list A) :
  Subsequence l1 l2 ->
  StronglySorted (Sort.le cmp) l2 ->
  Subsequence (Sort.insert cmp x l1) (Sort.insert cmp x l2).
Proof.
  destruct consistent as [anti trans].
  induction 1 as [|y l1 l2 H IH|y l1 l2 H IH]; intros Hs; cbn [Sort.insert].
  - apply sub_take, sub_nil.
  - inversion Hs as [|? ? Hs' Hy]; subst.
    destruct (Z.ltb_spec 0 (cmp x y)) as [Hxy|Hxy].
    + apply sub_skip. now apply IH.
    + rewrite insert_least.
      * apply sub_take, sub_skip, H.
      * apply Forall_forall. intros z Hz.
        apply (Subsequence_In H) in Hz.
        rewrite Forall_forall in Hy. apply trans with y; [exact Hxy|].
        now apply Hy.
  - inversion Hs as [|? ? Hs' Hy]; subst.
    destruct (Z.ltb_spec 0 (cmp x y)) as [Hxy|Hxy].
    + apply sub_take. now apply IH.
    + apply sub_take, sub_take, H.
Qed.

Lemma Subsequence_sort (l1 l2 : list A) :
  Subsequence l1 l2 -> Subsequence (Sort.sort cmp l1) (Sort.sort cmp l2).
Proof.
  induction 1 as [|y l1 l2 H IH|y l1 l2 H IH]; cbn [Sort.sort].
  - apply sub_nil.
  - now apply Subsequence_insert_right.
  - apply Subsequence_insert; [exact IH|].
    now apply SortFacts.sort_sorted.
Qed.

End Subsequences.

Section FilterFacts.

Context {RT : Runtime}.

(** What is shaped after the junk filter is a subsequence of what is
    shaped without it. *)
Lemma shaped_Subsequence : forall records all some,
  shaped true records all -> shaped false records some ->
  Subsequence some all.
Proof.
  induction records as [|b records IH]; intros all some Ha Hs.
  - apply shaped_nil in Ha, Hs. subst. apply sub_nil.
  - apply shaped_cons in Ha, Hs.
    destruct Ha as (oa & ea & Hoa & Ha & ->).
    destruct Hs as (os & es & Hos & Hs & ->).
    specialize (IH ea es Ha Hs). unfold Server.shape in Hoa, Hos.
    cbn [bind] in Hoa. destruct (parseBook b) as [e|]; [|discriminate].
    cbn [bind] in Hoa. injection Hoa as <-.
    destruct (isJunkBook b) as [[|]|]; cbn [bind] in Hos; try discriminate;
      injection Hos as <-; [now apply sub_skip|now apply sub_take].
Qed.

Lemma pagesFrom_Subsequence net : forall turns page acc acc' reqs reqs' all some,
  Subsequence acc' acc ->
  fst (Server.pagesFrom turns true net page acc reqs) = Ok all ->
  fst (Server.pagesFrom turns false net page acc' reqs') = Ok some ->
  Subsequence some all.
Proof.
  induction turns as [|turns IH]; intros page acc acc' reqs reqs' all some Hacc;
    cbn [Server.pagesFrom].
  - cbn. now intros [= <-] [= <-].
  - unfold Server.onePage. destruct (net (booksUrl page)) as [r|]; [|discriminate].
    destruct (negb (ok r)); [discriminate|].
    destruct (json r) as [v|]; [|discriminate].
    destruct v as [| | | | |[|b rest]| |];
      try (cbn; now intros [= <-] [= <-]).
    destruct (Server.shapePage true (b :: rest) acc) as [a1|] eqn:E1;
      [|discriminate].
    destruct (Server.shapePage false (b :: rest) acc') as [a2|] eqn:E2;
      [|discriminate].
    apply IH. apply shapePage_shaped in E1, E2.
    destruct E1 as (e1 & H1 & ->). destruct E2 as (e2 & H2 & ->).
    apply Subsequence_app; [exact Hacc|].
    now apply shaped_Subsequence with (b :: rest).
Qed.

Hypothesis collation : Sort.Consistent localeCompare.

(** X15.  The list without [?all=1] is the list with [?all=1] with some
    entries left out: when both are sent for the same upstream, the
    filtered list holds nothing the full list lacks, and its entries come
    in the same order.  This holds for the sequential server and for the
    parallel servers, with a consistent collation. *)
Theorem filter_only_leaves_out net :
  (forall all some,
      payload (sent (Server.books (Some (str "1")) net)) = Books all ->
      payload (sent (Server.books None net)) = Books some ->
      Subsequence some all)
  /\ (forall now later settled st now' later' settled' st' all some,
        payload (sent (fst (books (Some (str "1")) now later net settled st)))
        = Books all ->
        servedFromCache false st' now' = None ->
        payload (sent (fst (books None now' later' net settled' st')))
        = Books some ->
        Subsequence some all).
Proof.
  assert (Hc : Sort.Consistent byTitle) by now apply BooksFacts.byTitle_consistent.
  split.
  - intros all some. unfold Server.books, Server.aggregate.
    change (showAllOf (Some (str "1"))) with true.
    change (showAllOf None) with false.
    destruct (Server.pagesFrom _ true _ _ _ _) as [[l1|] reqs1] eqn:E1;
      [|discriminate].
    destruct (Server.pagesFrom _ false _ _ _ _) as [[l2|] reqs2] eqn:E2;
      [|discriminate].
    cbn. intros [= <-] [= <-]. apply (Subsequence_sort Hc).
    apply (@pagesFrom_Subsequence net
             (S (Server.turnsAfterFirst (net (booksUrl 1)))) 1%Z [] [] [] []).
    + apply sub_nil.
    + now rewrite E1.
    + now rewrite E2.
  - intros now later settled st now' later' settled' st' all some Ha Hmiss Hs.
    rewrite books_miss in Ha by reflexivity.
    rewrite books_miss in Hs by exact Hmiss.
    change (showAllOf (Some (str "1"))) with true in Ha.
    change (showAllOf None) with false in Hs.
    destruct (aggregate true net settled) as [[l1|] reqs1] eqn:E1;
      [|discriminate].
    destruct (aggregate false net settled') as [[l2|] reqs2] eqn:E2;
      [|discriminate].
    cbn in Ha, Hs. injection Ha as <-. injection Hs as <-.
    apply nova_aggregate_ok in E1, E2.
    destruct E1 as [(d1 & H1 & ->) _]. destruct E2 as [(d2 & H2 & ->) _].
    apply (Subsequence_sort Hc). unfold discovered in H1, H2.
    destruct (net (booksUrl 1)) as [r1|]; [|discriminate]. cbn [bind] in *.
    destruct (mapM (fetchPage net) _) as [bodies|]; [|discriminate].
    cbn [bind] in *.
    destruct (filterM (keep true) (flat bodies)) as [k1|] eqn:K1; [|discriminate].
    destruct (filterM (keep false) (flat bodies)) as [k2|] eqn:K2; [|discriminate].
    cbn [bind] in *. apply shaped_Subsequence with (flat bodies).
    + now exists k1.
    + now exists k2.
Qed.

End FilterFacts.
End FilterFacts.

(* ================================================================== *)
(** * Properties of [/api/generate] *)
(* ================================================================== *)

Module GenerateFacts.
Import Generate.



Lemma relay_calls net req : calls (relay net req) = [req].
Proof.
  unfold relay. destruct (net req) as [r|]; [|reflexivity].
  now destruct (json r).
Qed.

Lemma relayGuarded_calls net req : calls (relayGuarded net req) = [req].
Proof. unfold relayGuarded. now destruct (_ <- net req ;; _). Qed.


Lemma accept_prompt tooLong body p :
  get body (str "prompt") = Ok (VStr p) -> p <> [] ->
  accept tooLong body
  = if (50000 <? Z.of_nat (List.length p))%Z
    then Ok (inl (refuse tooLong))
    else Ok (inr {| messages := userMessages p;
                    system := VStr [];
                    model := VStr (str "claude-opus-4-5");
                    max_tokens := VNum 4096 |}).
Proof.
  intros Hp Hne. unfold accept. rewrite Hp. cbn [bind].
  now destruct p as [|c s].
Qed.

Lemma acceptPrompt_prompt limit tooLong maxTokens body p :
  get body (str "prompt") = Ok (VStr p) -> p <> [] ->
  acceptPrompt limit tooLong maxTokens body
  = if (limit <? Z.of_nat (List.length p))%Z
    then Ok (inl (refuse tooLong))
    else Ok (inr {| messages := userMessages p;
                    system := VUndefined;
                    model := VStr (str "claude-opus-4-6");
                    max_tokens := VNum maxTokens |}).
Proof.
  intros Hp Hne. unfold acceptPrompt. rewrite Hp. cbn [bind].
  now destruct p as [|c s].
Qed.

(** X17.  A non-empty [prompt] string decides the request alone.  It is
    forwarded, as the single user message and whatever else the body
    holds, if and only if it is no longer than the server allows: 50000
    code units, 60000 in the Companion server; a longer one is refused
    with a 400 and no call is made. *)
Theorem prompt_length_limits body net p :
  get body (str "prompt") = Ok (VStr p) -> p <> [] ->
  Forall
    (fun gl =>
       ((Z.of_nat (List.length p) <= snd gl)%Z <-> calls (fst gl) <> [])
       /\ ((snd gl < Z.of_nat (List.length p))%Z ->
           exists msg, result_ (fst gl) = Replied 400 (ErrorMessage (VStr msg)))
       /\ (forall req, calls (fst gl) = [req] -> messages req = userMessages p))
    [ (root body net, 50000%Z); (suite body net, 50000%Z);
      (nova body net, 50000%Z); (companion body net, 60000%Z) ].
Proof.
  intros Hp Hne.
  assert (Hstep : forall limit tooLong req forward,
    (forall r, calls (forward r) = [r]) ->
    messages req = userMessages p ->
    let g := handle (if (limit <? Z.of_nat (List.length p))%Z
                     then Ok (inl (refuse tooLong)) else Ok (inr req)) forward in
    ((Z.of_nat (List.length p) <= limit)%Z <-> calls g <> [])
    /\ ((limit < Z.of_nat (List.length p))%Z ->
        exists msg, result_ g = Replied 400 (ErrorMessage (VStr msg)))
    /\ (forall r, calls g = [r] -> messages r = userMessages p)).
  { intros limit tooLong req forward Hf Hm. cbv zeta.
    destruct (Z.ltb_spec limit (Z.of_nat (List.length p))) as [H|H];
      cbn [handle].
    - split; [split; [lia|now intros []]|].
      split; [intros _; now exists tooLong|]. cbn. discriminate.
    - rewrite Hf. split; [split; [discriminate|intros _; exact H]|].
      split; [lia|]. now intros r [= <-]. }
  apply Forall_cons;
    [|apply Forall_cons;
      [|apply Forall_cons; [|apply Forall_cons; [|apply Forall_nil]]]];
    cbn [fst snd]; unfold root, suite, nova, companion;
    rewrite ?(accept_prompt _ _ Hp Hne), ?(acceptPrompt_prompt _ _ _ _ Hp Hne);
    apply Hstep; try reflexivity;
    first [apply relay_calls|apply relayGuarded_calls].
Qed.


End GenerateFacts.

(* ================================================================== *)
(** * The further properties on the examples *)
(* ================================================================== *)

Module Instances.
Import Reference Examples MoreExamples.
Local Open Scope Z_scope.

(** C8 at an upstream of three pages whose second page is empty: the
    sequential server stops there and sends the entry of page 1. *)
Lemma empty_page_ends_sequential_only_witness :
  (In 2 (snd (Server.aggregate (showAllOf None) gap))
   /\ gap (booksUrl 2) = Ok (listing "3" [])
   /\ List.map title (booksOf (Server.books None gap)) = [str "Algebra"]
   /\ exists before bodies allBooks,
       Server.aggregate (showAllOf None) gap = (Ok allBooks, before ++ [2])
       /\ before ++ [2] = pagesOf 1 (S (List.length before))
       /\ Forall2 (answersWith gap) before bodies
       /\ shaped (showAllOf None) (List.concat bodies) allBooks
       /\ Server.books None gap =
          mkHandled (mkReply 200 (Books (Sort.sort Server.byTitle allBooks)))
            (List.map booksUrl (before ++ [2])))
  /\ (gap (booksUrl 1) = Ok (listing "3" [algebra])
      /\ snd (Nova.aggregate false gap [0%nat; 1%nat]) =
         1 :: Nova.remainingPages (totalPagesOf (listing "3" [algebra])))
  /\ (mapM (fetchPage gap)
        (1 :: Nova.remainingPages (totalPagesOf (listing "3" [algebra])))
      = Ok [VArr [algebra]; VArr []; VArr [zoology]]
      /\ Nova.aggregate false gap [0%nat; 1%nat] =
         (Nova.shapeAll false [VArr [algebra]; VArr []; VArr [zoology]],
          1 :: Nova.remainingPages (totalPagesOf (listing "3" [algebra])))).
Proof.
  pose proof (@StopFacts.empty_page_ends_sequential_only runtime)
    as (Seq & Par & All & _).
  assert (H1 : gap (booksUrl 1) = Ok (listing "3" [algebra])) by reflexivity.
  split; [|split].
  - assert (Hin : In 2 (snd (Server.aggregate (showAllOf None) gap)))
      by (vm_compute; auto).
    assert (Hn : gap (booksUrl 2) = Ok (listing "3" [])) by reflexivity.
    split; [exact Hin|]. split; [exact Hn|]. split; [reflexivity|].
    apply (Seq None gap 2 (listing "3" []) (VArr []) Hin Hn);
      [reflexivity|reflexivity|discriminate].
  - split; [exact H1|].
    apply (Par false gap [0%nat; 1%nat] (listing "3" [algebra]) (VArr [algebra]) H1);
      reflexivity.
  - assert (Hb : mapM (fetchPage gap)
                   (1 :: Nova.remainingPages (totalPagesOf (listing "3" [algebra])))
                 = Ok [VArr [algebra]; VArr []; VArr [zoology]])
      by (vm_compute; reflexivity).
    split; [exact Hb|].
    apply (All false gap [0%nat; 1%nat] (listing "3" [algebra]) _ H1 Hb).
Defined.

(** X2 at a line of plain text. *)
Lemma htmlToPlainText_plain_text_witness :
  htmlToPlainText (str "Hello, world") = str "Hello, world".
Proof.
  apply (proj1 PlainTextFacts.htmlToPlainText_plain_text (str "Hello, world")).
  - vm_compute. intuition discriminate.
  - vm_compute. intuition discriminate.
  - apply HtmlFacts.calm_sound. reflexivity.
  - apply TidyFacts.sparse_sound. reflexivity.
  - change (str "Hello, world") with (trim (str "Hello, world")).
    apply TidyFacts.trim_Trimmed.
Defined.

(** X3 at a chapter with a heading and a paragraph. *)
Lemma chapter_text_and_word_count_witness :
  Content.shapeChapter chapterRecord = Ok chapterShaped
  /\ ch_text chapterShaped = str "One" ++ [LF; LF] ++ str "Hello world."
  /\ ch_wordCount chapterShaped = 3%nat
  /\ ch_wordCount chapterShaped
     = List.length (filter nonEmpty (splitWhiteSpace (ch_text chapterShaped))).
Proof.
  split; [reflexivity|]. split; [reflexivity|]. split; [reflexivity|].
  apply (@WordFacts.chapter_text_and_word_count chapterRecord chapterShaped).
  reflexivity.
Defined.


(** X5 at an upstream with three pages, the second one empty, and at one
    that cannot be reached. *)
Lemma pages_requested_witness :
  (snd (Nova.aggregate false gap [0%nat]) = [1; 2; 3]
   /\ exists k,
        (1 <= k <= 3)%nat
        /\ snd (Server.aggregate false gap) = pagesOf 1 k)
  /\ (snd (Nova.aggregate false offline []) = [1]
      /\ snd (Server.aggregate false offline) = [1]).
Proof.
  split.
  - apply (proj1 (@PagingFacts.pages_requested runtime false gap [0%nat])
             (listing "3" [algebra]) (VArr [algebra])); reflexivity.
  - apply (proj2 (@PagingFacts.pages_requested runtime false offline [])
             fetchFailed).
    reflexivity.
Defined.

(** X6 at a header that reads 3 and at one that reads [many]. *)
Lemma totalPagesOf_header_witness :
  totalPagesOf (listing "3" []) = Some 3
  /\ totalPagesOf (listing "many" []) = None.
Proof.
  split.
  - apply (proj1 (PagingFacts.totalPagesOf_header (listing "3" [])) 3).
    + vm_compute. discriminate.
    + reflexivity.
  - apply (proj2 (proj2 (PagingFacts.totalPagesOf_header (listing "many" [])))
             (ch "m") (str "any")); reflexivity.
Defined.

(** X7 at a filled cache and an upstream with a junk record. *)
Lemma show_all_bypasses_cache_witness :
  snd (Nova.books (Some (str "1")) 8 9 mixed [] filledCache) = filledCache
  /\ exists rest,
       requests (fst (Nova.books (Some (str "1")) 8 9 mixed [] filledCache))
       = booksUrl 1 :: rest.
Proof.
  destruct (@CacheFacts.show_all_bypasses_cache runtime (Some (str "1")) 8 9
              mixed [] filledCache eq_refl) as (_ & Hst & Hreq & _).
  split; [exact Hst|exact Hreq].
Defined.

(** X8: a first request at time 0 stored at time 7, then a second one
    nine minutes later with the upstream gone, and one after ten
    minutes. *)
Lemma second_request_within_ttl_witness :
  (sent (fst (Nova.books None 540000 540001 offline []
                (snd (Nova.books None 0 7 shuffled [0%nat] Nova.startup))))
   = mkReply 200 (Books shuffledReply)
   /\ requests (fst (Nova.books None 540000 540001 offline []
                       (snd (Nova.books None 0 7 shuffled [0%nat] Nova.startup))))
      = [])
  /\ exists rest,
       requests (fst (Nova.books None 600007 600008 offline []
                        (snd (Nova.books None 0 7 shuffled [0%nat] Nova.startup))))
       = booksUrl 1 :: rest.
Proof.
  assert (Hreq : requests (fst (Nova.books None 0 7 shuffled [0%nat] Nova.startup))
                 <> []) by (vm_compute; discriminate).
  assert (Hcode : code (sent (fst (Nova.books None 0 7 shuffled [0%nat] Nova.startup)))
                  = 200) by reflexivity.
  split.
  - destruct (proj1 (@CacheFacts.second_request_within_ttl runtime
                       None 0 7 shuffled [0%nat] Nova.startup
                       None 540000 540001 offline [] eq_refl eq_refl Hreq Hcode))
      as (Hs & Hr & _).
    + vm_compute. reflexivity.
    + split; [exact Hs|exact Hr].
  - apply (proj2 (@CacheFacts.second_request_within_ttl runtime
                    None 0 7 shuffled [0%nat] Nova.startup
                    None 600007 600008 offline [] eq_refl eq_refl Hreq Hcode)).
    vm_compute. discriminate.
Defined.

(** X9 at an upstream with two pages of two records each. *)
Lemma aggregations_agree_witness :
  Server.books None shuffled
  = fst (Nova.books None 0 7 shuffled [1%nat; 0%nat] Nova.startup).
Proof.
  apply (@AgreementFacts.aggregations_agree runtime None 0 7 shuffled
           [1%nat; 0%nat] Nova.startup (listing "2" [zoology; algebra])).
  - reflexivity.
  - intros p Hp. change (Z.max 1 (declared (listing "2" [zoology; algebra])))
      with 2 in Hp.
    assert (p = 1 \/ p = 2) as [Hp1 | Hp2] by lia; [rewrite Hp1 | rewrite Hp2].
    + exists (listing "2" [zoology; algebra]), zoology, [algebra].
      repeat split.
    + exists (listing "2" [botany; algebra2]), botany, [algebra2].
      repeat split.
  - reflexivity.
  - reflexivity.
Defined.

(** X10 at a listing with [null] among its records. *)
Lemma malformed_record_fails_witness :
  code (sent (Server.books None nullListed)) = 502
  /\ code (sent (fst (Nova.books None 0 7 nullListed [] Nova.startup))) = 502
  /\ snd (Nova.books None 0 7 nullListed [] Nova.startup) = Nova.startup.
Proof.
  apply (@RecordFacts.malformed_record_fails runtime None 0 7 nullListed []
           Nova.startup (listing "1" [algebra; VNull]) [algebra; VNull] VNull
           (TypeError (str "Cannot read properties of null or undefined"))).
  - reflexivity.
  - reflexivity.
  - right. left. reflexivity.
  - reflexivity.
  - reflexivity.
Defined.

(** X11 at a table with a published and a draft chapter in one part and
    no chapter in the other: one part is listed, with one chapter. *)
Lemma simplifyToc_lists_published_witness :
  Content.simplifyToc tocRecord = Ok tocShaped
  /\ List.map (fun p => List.length (p_chapters p)) tocShaped = [1%nat]
  /\ (List.length tocShaped <= 2)%nat.
Proof.
  split; [reflexivity|]. split; [reflexivity|].
  apply (proj2 (@TocFacts.simplifyToc_lists_published tocRecord tocShaped eq_refl)).
Defined.

(** X12 at the site of a book, up and down. *)
Lemma content_replies_witness :
  (exists r v,
      bookSite (algebraUrl ++ str "/wp-json/pressbooks/v2/toc") = Ok r
      /\ ok r = true /\ json r = Ok v)
  /\ sent (Content.chapter (Some algebraUrl) (Some (str "7")) bookSiteDown)
     = mkReply 502 (ErrorBody (str "Could not fetch chapter: HTTP 503")).
Proof.
  split.
  - apply (proj2 (proj1 (@TocFacts.content_replies runtime (Some algebraUrl)
                           None bookSite))
             (algebraUrl ++ str "/wp-json/pressbooks/v2/toc")); reflexivity.
  - apply (proj2 (proj2 (@TocFacts.content_replies runtime (Some algebraUrl)
                           (Some (str "7")) bookSiteDown))
             (algebraUrl ++ str "/wp-json/pressbooks/v2/chapters/" ++ str "7"))
      with (r := mkResponse 503 (fun _ => None) (Ok VNull) (Ok []));
      reflexivity.
Defined.

(** X13 at a private address and at a public one next to the range. *)
Lemma blocklist_hosts_witness :
  existsb (fun re => testAnchored re (str "172.20.1.1"))
    FetchUrl.FETCH_URL_BLOCKLIST = true
  /\ existsb (fun re => testAnchored re (str "LocalHost.example"))
       FetchUrl.FETCH_URL_BLOCKLIST = true.
Proof.
  split.
  - apply (proj2 (BlocklistFacts.blocklist_hosts (str "172.20.1.1"))).
    do 4 right. exists (ch "2"), (ch "0"), (str "1.1").
    split; [reflexivity|]. split; [reflexivity|]. split; [reflexivity|].
    vm_compute. split; discriminate.
  - apply (proj2 (BlocklistFacts.blocklist_hosts (str "LocalHost.example"))).
    left. exists (str "LocalHost"), (str ".example"). split; reflexivity.
Defined.

(** X14 at a site with one HTML page and at one that does not answer in
    time. *)
Lemma fetch_url_replies_witness :
  (exists r html x,
      article articleUrl = Ok r /\ ok r = true /\ text r = Ok html
      /\ payload (sent (FetchUrl.fetchUrl (Some articleUrl) article)) = Page x
      /\ x_text x = htmlToPlainText html
      /\ (20 <= List.length (x_text x))%nat
      /\ (1 <= x_wordCount x)%nat
      /\ (x_title x = str "example.org" \/ Trimmed (x_title x)))
  /\ code (sent (FetchUrl.fetchUrl (Some articleUrl) stalled)) = 504.
Proof.
  split.
  - destruct (@FetchReplyFacts.fetch_url_replies runtime (Some articleUrl) article)
      as [[Hreq _]|(u & parsed & Hu & _ & Hp & _ & _ & _ & H200 & _)].
    + vm_compute in Hreq. discriminate Hreq.
    + injection Hu as <-. vm_compute in Hp. injection Hp as <-.
      apply H200. reflexivity.
  - destruct (@FetchReplyFacts.fetch_url_replies runtime (Some articleUrl) stalled)
      as [[Hreq _]|(u & parsed & Hu & _ & _ & _ & _ & _ & _ & _ & H504)].
    + vm_compute in Hreq. discriminate Hreq.
    + injection Hu as <-. apply (H504 FetchUrl.AbortError); reflexivity.
Defined.

(** X15 at a listing with a junk record between two others. *)
Lemma filter_only_leaves_out_witness :
  List.map title mixedAll = [str "Algebra"; str "Field Notes"; str "Zoology"]
  /\ List.map title mixedFiltered = [str "Algebra"; str "Zoology"]
  /\ Subsequence mixedFiltered mixedAll.
Proof.
  split; [reflexivity|]. split; [reflexivity|].
  apply (proj1 (@FilterFacts.filter_only_leaves_out runtime
                  ReferenceFacts.collation mixed) mixedAll mixedFiltered);
    reflexivity.
Defined.

(** X17 at a two-letter prompt sent along with an empty [messages]
    array. *)
Lemma prompt_length_limits_witness :
  Forall
    (fun gl =>
       (2 <= snd gl <-> Generate.calls (fst gl) <> [])
       /\ (snd gl < 2 ->
           exists msg,
             Generate.result_ (fst gl)
             = Generate.Replied 400 (Generate.ErrorMessage (VStr msg)))
       /\ (forall req,
             Generate.calls (fst gl) = [req] ->
             Generate.messages req = Generate.userMessages (str "Hi")))
    [ (Generate.root promptBody overloaded, 50000);
      (Generate.suite promptBody overloaded, 50000);
      (Generate.nova promptBody overloaded, 50000);
      (Generate.companion promptBody overloaded, 60000) ].
Proof.
  apply (@GenerateFacts.prompt_length_limits promptBody overloaded (str "Hi")).
  - reflexivity.
  - discriminate.
Defined.


End Instances.
